(** * Lead-management CRM: the MWS revenue page and the data-access facade

    A shallow embedding of [src/pages/MwsRevenuePage.tsx] (the revenue
    calculator, the payment modal and the page's own figures), of the
    [ApiService] class ([src/unnamed/part_000]), and of the session holder
    [src/contexts/AuthContext.tsx] with the login form
    [src/pages/LoginPage.tsx], with the properties the specification states
    about them and further properties read off the code.

    Conventions of the embedding.
    - A JavaScript number is an IEEE 754 binary64 value ([Double.double]),
      and a number column of a row is the decimal numeral the backend
      delivered ([Q]), read as the double it denotes. The payment modal and
      the page's figures are embedded on these numbers. The revenue formula
      is embedded twice: in exact arithmetic ([Revenue]), where a property
      is about the formula, and on JavaScript numbers ([Revenue64]), where a
      property depends on how the sums round. On whole amounts below
      [2^53] the two give the same revenue, ad spend and profit
      ([Revenue64.exact_on_whole_amounts]).
    - A string is the sequence of the bytes of its UTF-8 encoding.
    - A [Date] object is its time value in milliseconds since the epoch,
      [None] standing for an Invalid Date ([NaN]).
    - A timestamp column delivered by the backend ([created_at], [date]) is
      kept as the instant [new Date] reads back from it. *)

From Stdlib Require Import List String Ascii Bool ZArith QArith Qminmax Qround.
From Stdlib Require Import Lia Permutation Sorted.
From Stdlib Require Import DecimalString DecimalZ DecimalPos SpecFloat.
Import ListNotations.

Local Open Scope string_scope.

(** ** JavaScript values used by both files *)

Module Js.

(** A [Date]: the time value in ms, [None] for Invalid Date. *)
Definition Date := option Z.

(** [a >= b] on dates: the comparison of the two time values, false when
    either is [NaN]. *)
Definition date_geb (a b : Date) : bool :=
  match a, b with
  | Some x, Some y => (y <=? x)%Z
  | _, _ => false
  end.

(** [a <= b] on dates. *)
Definition date_leb (a b : Date) : bool :=
  match a, b with
  | Some x, Some y => (x <=? y)%Z
  | _, _ => false
  end.

(** Truthiness of a string: every string but the empty one. *)
Definition truthy (s : string) : bool :=
  match s with
  | EmptyString => false
  | String _ _ => true
  end.

(** [x || d] where [x] is a number: [0] is falsy. *)
Definition num_or (x d : Q) : Q := if Qeq_bool x 0 then d else x.

(** [x || d] where [x] is a number that may be [undefined] or [null]. *)
Definition opt_num_or (x : option Q) (d : Q) : Q :=
  match x with
  | Some v => num_or v d
  | None => d
  end.

(** [a > b] on numbers. *)
Definition gtb (a b : Q) : bool := negb (Qle_bool a b).

(** [a >= b] on numbers. *)
Definition geb (a b : Q) : bool := Qle_bool b a.

(** [record[key]] on a [Record<string, string>]: the first binding of the
    key, [None] for [undefined]. *)
Fixpoint prop (key : string) (record : list (string * string)) : option string :=
  match record with
  | [] => None
  | (k, v) :: rest => if String.eqb k key then Some v else prop key rest
  end.

Lemma num_or_zero (x : Q) : num_or x 0 == x.
Proof.
  unfold num_or. destruct (Qeq_bool x 0) eqn:E; [|reflexivity].
  apply Qeq_bool_eq in E. now rewrite E.
Qed.

Lemma gtb_true (a b : Q) : gtb a b = true <-> b < a.
Proof.
  unfold gtb. rewrite negb_true_iff. split.
  - intros H. apply Qnot_le_lt. intros L. apply Qle_bool_iff in L. congruence.
  - intros H. destruct (Qle_bool a b) eqn:E; [|reflexivity].
    apply Qle_bool_iff in E. exfalso. exact (Qlt_not_le _ _ H E).
Qed.

Lemma gtb_false (a b : Q) : gtb a b = false <-> a <= b.
Proof.
  unfold gtb. rewrite negb_false_iff. apply Qle_bool_iff.
Qed.

End Js.

(** ** JavaScript numbers *)

Module Double.

(** A JavaScript number is an IEEE 754 binary64 value, here a [spec_float]
    of the Standard Library with 53 bits of precision and the exponent
    bound 1024. The operations below are those of [SpecFloat]: each result is
    the exact result rounded to the nearest value, a tie to the even one. *)
Definition double : Type := spec_float.

Definition prec : Z := 53.
Definition emax : Z := 1024.

Definition zero : double := S754_zero false.
Definition NaN : double := S754_nan.

(** The value of a decimal numeral (a literal of the program, a number of
    a JSON body, the text [parseFloat] reads): the rational rounded to the
    nearest double. *)
Definition dec (q : Q) : double :=
  match Qnum q with
  | Z0 => zero
  | Zpos n => SFdiv prec emax (S754_finite false n 0) (S754_finite false (Qden q) 0)
  | Zneg n => SFdiv prec emax (S754_finite true n 0) (S754_finite false (Qden q) 0)
  end.

(** [a + b], [a - b], [a * b], [a / b] *)
Definition add (a b : double) : double := SFadd prec emax a b.
Definition sub (a b : double) : double := SFsub prec emax a b.
Definition mul (a b : double) : double := SFmul prec emax a b.
Definition div (a b : double) : double := SFdiv prec emax a b.

(** [a < b], [a > b], [a >= b], [a === b]: false when either is [NaN]. *)
Definition ltb (a b : double) : bool := SFltb a b.
Definition gtb (a b : double) : bool := SFltb b a.
Definition geb (a b : double) : bool := SFleb b a.
Definition eqb (a b : double) : bool := SFeqb a b.

Definition isNaN (x : double) : bool :=
  match x with
  | S754_nan => true
  | _ => false
  end.

(** Truthiness of a number: every number but [0], [-0] and [NaN]. *)
Definition truthy (x : double) : bool :=
  match x with
  | S754_nan | S754_zero _ => false
  | _ => true
  end.

(** [x || d] where [x] is a number. *)
Definition num_or (x d : double) : double := if truthy x then x else d.

(** [Math.abs(x)] *)
Definition abs (x : double) : double := SFabs x.

(** [Math.max(a, b)]: [NaN] when either is, and [+0] is larger than [-0]. *)
Definition max (a b : double) : double :=
  if isNaN a || isNaN b then NaN
  else if ltb a b then b
  else if ltb b a then a
  else match a, b with
       | S754_zero true, S754_zero false => b
       | _, _ => a
       end.

(** The value of the finite double with mantissa [m] and exponent [e]. *)
Definition exact (m : positive) (e : Z) : Q := inject_Z (Zpos m) * Qpower 2 e.

(** [parseFloat(x.toFixed(2))]: the text [toFixed] writes for a finite [x]
    below [1e21] is the integer [n] nearest to [100 x] (the larger of two)
    with a point before its last two digits, and with the sign of [x];
    [parseFloat] reads it as the nearest double. A larger [x], an infinity and
    [NaN] are written as by [String(x)] and read back unchanged. *)
Definition toFixed2 (x : double) : double :=
  match x with
  | S754_finite s m e =>
    if geb (abs x) (dec 1e21) then x
    else
      let n := Qfloor (exact m e * 100 + (1 # 2)) in
      match n with
      | Zpos p => dec (Qmake (if s then Zneg p else Zpos p) 100)
      | _ => S754_zero s
      end
  | S754_zero _ => zero
  | _ => x
  end.

(** *** Facts about the comparisons *)

Lemma sub_diag (x : double) :
  sub x x = zero \/ sub x x = NaN.
Proof.
  destruct x as [s|s| |s m e]; cbn.
  - left. now destruct s.
  - right. now destruct s.
  - now right.
  - left. unfold sub, SFsub. rewrite Z.sub_diag. reflexivity.
Qed.

Lemma gtb_positive (a b : double) :
  gtb a b = true -> (gtb b zero = true \/ b = zero) -> gtb a zero = true.
Proof.
  unfold gtb, SFltb. intros H [P| ->].
  - destruct b as [s|s| |s m e], a as [s'|s'| |s' m' e']; cbn in *;
      repeat match goal with x : bool |- _ => destruct x end;
      cbn in *; try discriminate; reflexivity.
  - destruct a as [s'|s'| |s' m' e']; cbn in *;
      repeat match goal with x : bool |- _ => destruct x end;
      cbn in *; try discriminate; reflexivity.
Qed.

Lemma positive_number (a : double) :
  gtb a zero = true -> isNaN a = false /\ ltb a zero = false /\ eqb a zero = false /\ truthy a = true.
Proof.
  unfold gtb, ltb, eqb, SFltb, SFeqb.
  destruct a as [s|s| |s m e]; cbn; try discriminate.
  - destruct s; [discriminate | now repeat split].
  - destruct s; [discriminate | now repeat split].
Qed.

(** [Math.max(0, d)] is [0], a positive number, or [NaN]. *)
Lemma max_zero (d : double) :
  max zero d = zero \/ gtb (max zero d) zero = true \/ max zero d = NaN.
Proof.
  unfold max. destruct (isNaN zero || isNaN d) eqn:N; [now right; right|].
  destruct (ltb zero d) eqn:L; [right; left; exact L|].
  left. destruct (ltb d zero); reflexivity.
Qed.

(** *** The sign of a rounded result *)

(** A number, and not a negative one. *)
Definition nonneg (x : double) : Prop :=
  match x with
  | S754_nan => False
  | S754_zero s | S754_infinity s | S754_finite s _ _ => s = false
  end.

Lemma nonneg_number (x : double) : nonneg x -> isNaN x = false /\ ltb x zero = false.
Proof.
  destruct x as [s|s| |s m e]; cbn; try contradiction; intros ->; now split.
Qed.

Lemma positive_nonneg (x : double) : gtb x zero = true -> nonneg x.
Proof.
  unfold gtb, SFltb. destruct x as [s|s| |s m e]; cbn; try discriminate;
    destruct s; try discriminate; reflexivity.
Qed.

Lemma shr_1_nonneg (r : shr_record) : (0 <= shr_m r)%Z -> (0 <= shr_m (shr_1 r))%Z.
Proof.
  destruct r as [m r s]. cbn [shr_m]. intros H.
  destruct m as [|[p|p|]|p]; cbn; lia.
Qed.

Lemma iter_shr_1_nonneg (p : positive) (r : shr_record) :
  (0 <= shr_m r)%Z -> (0 <= shr_m (iter_pos shr_1 p r))%Z.
Proof.
  revert r. induction p as [p IH|p IH|]; intros r H; cbn [iter_pos].
  - apply IH, IH, shr_1_nonneg, H.
  - apply IH, IH, H.
  - apply shr_1_nonneg, H.
Qed.

Lemma shr_fexp_nonneg (m e : Z) (l : location) :
  (0 <= m)%Z -> (0 <= shr_m (fst (shr_fexp prec emax m e l)))%Z.
Proof.
  intros H. unfold shr_fexp, shr.
  assert (R : (0 <= shr_m (shr_record_of_loc m l))%Z)
    by (destruct l as [|[| |]]; exact H).
  destruct (fexp prec emax (Zdigits2 m + e) - e)%Z; cbn [fst]; try exact R.
  now apply iter_shr_1_nonneg.
Qed.

Lemma round_nonneg (m e : Z) (l : location) :
  (0 <= m)%Z -> nonneg (binary_round_aux prec emax false m e l).
Proof.
  intros H. unfold binary_round_aux.
  pose proof (shr_fexp_nonneg m e l H) as H1.
  destruct (shr_fexp prec emax m e l) as [mrs' e']. cbn [fst] in H1.
  assert (H2 : (0 <= round_nearest_even (shr_m mrs') (loc_of_shr_record mrs'))%Z).
  { unfold round_nearest_even.
    destruct (loc_of_shr_record mrs') as [|[| |]]; try exact H1; [|lia].
    destruct (Z.even (shr_m mrs')); lia. }
  pose proof (shr_fexp_nonneg _ e' loc_Exact H2) as H3.
  destruct (shr_fexp prec emax _ e' loc_Exact) as [mrs'' e'']. cbn [fst] in H3.
  destruct (shr_m mrs'') as [|p|p]; [reflexivity| |lia].
  destruct (e'' <=? emax - prec)%Z; reflexivity.
Qed.

Lemma dec_nonneg (q : Q) : (0 <= Qnum q)%Z -> nonneg (dec q).
Proof.
  unfold dec. destruct (Qnum q) as [|n|n]; intros H; [reflexivity| |lia].
  unfold SFdiv, SFdiv_core_binary.
  set (s := (0 - 0 - _)%Z).
  set (m' := match s with Z.pos _ => Z.shiftl (Z.pos n) s | 0%Z => Z.pos n | Z.neg _ => 0%Z end).
  assert (M : (0 <= m')%Z).
  { subst m'. destruct s; [lia| |lia]. apply Z.shiftl_nonneg. lia. }
  pose proof (Z.div_pos m' (Z.pos (Qden q)) M ltac:(lia)) as D.
  unfold Z.div in D.
  destruct (Z.div_eucl m' (Z.pos (Qden q))) as [q0 r0]. cbn [fst] in D.
  now apply round_nonneg.
Qed.

Lemma toFixed2_positive (x : double) : gtb x zero = true -> nonneg (toFixed2 x).
Proof.
  intros P. pose proof (positive_nonneg x P) as N.
  destruct x as [s|s| |s m e]; cbn in N; try contradiction; subst s.
  - reflexivity.
  - reflexivity.
  - unfold toFixed2.
    destruct (geb (abs (S754_finite false m e)) (dec 1e21)); [reflexivity|].
    destruct (Qfloor _) as [|p|p]; [reflexivity| |reflexivity].
    apply dec_nonneg. cbn. lia.
Qed.

(** *** Whole numbers *)

(** The double nearest to an integer. *)
Definition of_Z (n : Z) : double := binary_normalize prec emax n 0 false.

Lemma iter_pos_nat (A : Type) (f : A -> A) (p : positive) (x : A) :
  iter_pos f p x = Nat.iter (Pos.to_nat p) f x.
Proof.
  revert x. induction p as [p IH|p IH|]; intros x; cbn [iter_pos].
  - rewrite !IH, Pos2Nat.inj_xI. cbn [Nat.mul]. rewrite Nat.add_0_r.
    rewrite <- Nat.iter_add. rewrite Nat.iter_succ_r. reflexivity.
  - rewrite !IH, Pos2Nat.inj_xO. cbn [Nat.mul]. rewrite Nat.add_0_r.
    now rewrite <- Nat.iter_add.
  - reflexivity.
Qed.

Definition rec0 (m : Z) : shr_record := {| shr_m := m; shr_r := false; shr_s := false |}.

Lemma shr_1_double (m : positive) : shr_1 (rec0 (Zpos m~0)) = rec0 (Zpos m).
Proof. reflexivity. Qed.

Fixpoint shift (m : positive) (k : nat) : positive :=
  match k with
  | O => m
  | S k => (shift m k)~0
  end.

Lemma shr_shift (m : positive) (k : nat) :
  Nat.iter k shr_1 (rec0 (Zpos (shift m k))) = rec0 (Zpos m).
Proof.
  induction k as [|k IH]; [reflexivity|].
  rewrite Nat.iter_succ_r. cbn [shift]. rewrite shr_1_double. exact IH.
Qed.

Lemma pos_iter_shift (m d : positive) : Pos.iter xO m d = shift m (Pos.to_nat d).
Proof.
  rewrite Pos2Nat.inj_iter. 
  induction (Pos.to_nat d) as [|k IH]; [reflexivity|]. cbn. now rewrite IH.
Qed.

Lemma digits_shift (m : positive) (k : nat) :
  Zpos (digits2_pos (shift m k)) = (Zpos (digits2_pos m) + Z.of_nat k)%Z.
Proof.
  induction k as [|k IH]; [cbn; lia|].
  cbn [shift digits2_pos]. rewrite Pos2Z.inj_succ, IH. lia.
Qed.

Lemma shift_add (m : positive) (j k : nat) : shift (shift m k) j = shift m (j + k).
Proof. induction j as [|j IH]; [reflexivity|]. cbn. now rewrite IH. Qed.

Lemma shift_value (m : positive) (k : nat) : Zpos (shift m k) = (Zpos m * 2 ^ Z.of_nat k)%Z.
Proof.
  induction k as [|k IH]; [cbn; lia|].
  cbn [shift]. rewrite Pos2Z.inj_xO, IH, Nat2Z.inj_succ, Z.pow_succ_r by lia. lia.
Qed.

Lemma shl_align_shift (m : positive) (e E : Z) :
  shl_align m e E = (shift m (Z.to_nat (e - E)), Z.min e E).
Proof.
  unfold shl_align. destruct (E - e)%Z as [|d|d] eqn:D.
  - replace (e - E)%Z with 0%Z by lia. cbn [Z.to_nat shift]. f_equal. lia.
  - replace (Z.to_nat (e - E)) with 0%nat by lia. cbn [shift]. f_equal. lia.
  - rewrite pos_iter_shift. f_equal; [|lia]. f_equal. lia.
Qed.

Lemma shr_iter (r : shr_record) (e n : Z) :
  shr r e n = (Nat.iter (Z.to_nat n) shr_1 r, (e + Z.max 0 n)%Z).
Proof.
  unfold shr. destruct n as [|p|p].
  - cbn. f_equal. lia.
  - now rewrite iter_pos_nat.
  - cbn. f_equal. lia.
Qed.

(** The first step of [binary_round]: the mantissa brought to the exponent
    of the format. *)
Definition aligned (m : positive) (e : Z) : shr_record * Z :=
  let '(mz, ez) := shl_align m e (fexp prec emax (Zpos (digits2_pos m) + e)) in
  shr_fexp prec emax (Zpos mz) ez loc_Exact.

Lemma aligned_iter (m : positive) (e : Z) :
  let E := fexp prec emax (Zpos (digits2_pos m) + e) in
  aligned m e
  = (Nat.iter (Z.to_nat (E - e)) shr_1 (rec0 (Zpos (shift m (Z.to_nat (e - E))))), E).
Proof.
  intros E. unfold aligned. fold E. rewrite shl_align_shift.
  unfold shr_fexp. cbn [Zdigits2 shr_record_of_loc]. rewrite digits_shift.
  replace (Zpos (digits2_pos m) + Z.of_nat (Z.to_nat (e - E)) + Z.min e E)%Z
    with (Zpos (digits2_pos m) + e)%Z by lia.
  fold E. rewrite shr_iter. fold (rec0 (Zpos (shift m (Z.to_nat (e - E))))).
  f_equal; [|lia]. f_equal. lia.
Qed.

Lemma aligned_shift (m : positive) (e : Z) (k : nat) :
  aligned (shift m k) e = aligned m (e + Z.of_nat k).
Proof.
  pose proof (aligned_iter (shift m k) e) as A.
  pose proof (aligned_iter m (e + Z.of_nat k)) as B.
  cbv zeta in A, B. rewrite digits_shift in A.
  replace (Zpos (digits2_pos m) + Z.of_nat k + e)%Z
    with (Zpos (digits2_pos m) + (e + Z.of_nat k))%Z in A by lia.
  set (E := fexp prec emax (Zpos (digits2_pos m) + (e + Z.of_nat k))) in *.
  rewrite A, B. f_equal. rewrite shift_add.
  destruct (Z.le_gt_cases E e) as [L|L].
  - replace (Z.to_nat (E - e)) with 0%nat by lia.
    replace (Z.to_nat (E - (e + Z.of_nat k))) with 0%nat by lia.
    cbn [Nat.iter]. replace (Z.to_nat (e - E) + k)%nat
      with (Z.to_nat (e + Z.of_nat k - E)) by lia. reflexivity.
  - replace (Z.to_nat (e - E)) with 0%nat by lia. cbn [Nat.add].
    destruct (Z.le_gt_cases E (e + Z.of_nat k)) as [M|M].
    + replace (Z.to_nat (E - (e + Z.of_nat k))) with 0%nat by lia.
      cbn [Nat.iter].
      replace k with (Z.to_nat (E - e) + Z.to_nat (e + Z.of_nat k - E))%nat at 1 by lia.
      rewrite <- shift_add. apply shr_shift.
    + replace (Z.to_nat (e + Z.of_nat k - E)) with 0%nat by lia. cbn [shift].
      replace (Z.to_nat (E - e)) with (Z.to_nat (E - (e + Z.of_nat k)) + k)%nat by lia.
      rewrite Nat.iter_add. now rewrite shr_shift.
Qed.

Lemma binary_round_aligned (s : bool) (m : positive) (e : Z) :
  binary_round prec emax s m e
  = let '(mrs', e') := aligned m e in
    let '(mrs'', e'') :=
      shr_fexp prec emax
        (round_nearest_even (shr_m mrs') (loc_of_shr_record mrs')) e' loc_Exact in
    match shr_m mrs'' with
    | Z0 => S754_zero s
    | Zpos m => if (e'' <=? emax - prec)%Z then S754_finite s m e'' else S754_infinity s
    | Zneg _ => S754_nan
    end.
Proof.
  unfold binary_round, aligned, binary_round_aux.
  destruct (shl_align m e _) as [mz ez]. reflexivity.
Qed.

Lemma binary_round_shift (s : bool) (m : positive) (e : Z) (k : nat) :
  binary_round prec emax s (shift m k) e = binary_round prec emax s m (e + Z.of_nat k).
Proof. now rewrite !binary_round_aligned, aligned_shift. Qed.

Lemma binary_normalize_shift (n e : Z) (k : nat) :
  binary_normalize prec emax (n * 2 ^ Z.of_nat k) e false
  = binary_normalize prec emax n (e + Z.of_nat k) false.
Proof.
  destruct n as [|m|m].
  - reflexivity.
  - rewrite <- shift_value. apply binary_round_shift.
  - change (Z.neg m) with (- Z.pos m)%Z. rewrite Z.mul_opp_l, <- shift_value.
    apply binary_round_shift.
Qed.

Lemma digits_size (m : positive) : digits2_pos m = Pos.size m.
Proof. induction m as [m IH|m IH|]; cbn; now rewrite ?IH. Qed.

Lemma digits_bound (m : positive) :
  (Zpos m < 2 ^ 53)%Z -> (1 <= Zpos (digits2_pos m) <= 53)%Z.
Proof.
  intros H. split; [lia|]. rewrite digits_size.
  pose proof (Pos.size_le m) as L.
  apply Pos2Z.pos_le_pos in L. rewrite Pos2Z.inj_pow, Pos2Z.inj_xO in L.
  assert (P : (2 ^ Zpos (Pos.size m) < 2 ^ 54)%Z).
  { apply Z.le_lt_trans with (2 * Zpos m)%Z; [exact L|].
    change (2 ^ 54)%Z with (2 * 2 ^ 53)%Z. lia. }
  apply Z.pow_lt_mono_r_iff in P; lia.
Qed.

(** A whole number below [2^53] is a double: its mantissa brought to 53
    bits. *)
Definition slack (m : positive) : nat := Z.to_nat (53 - Zpos (digits2_pos m)).

Lemma round_whole (s : bool) (m : positive) :
  (Zpos m < 2 ^ 53)%Z ->
  binary_round prec emax s m 0
  = S754_finite s (shift m (slack m)) (- Z.of_nat (slack m)).
Proof.
  intros H. pose proof (digits_bound m H) as D.
  rewrite binary_round_aligned.
  pose proof (aligned_iter m 0) as A. cbv zeta in A.
  assert (E : fexp prec emax (Zpos (digits2_pos m) + 0) = (- Z.of_nat (slack m))%Z).
  { unfold fexp, emin, prec, emax, slack. lia. }
  rewrite E in A. rewrite A.
  replace (Z.to_nat (- Z.of_nat (slack m) - 0)) with 0%nat by lia.
  replace (Z.to_nat (0 - - Z.of_nat (slack m))) with (slack m) by lia.
  unfold Nat.iter. cbn [nat_rect rec0 shr_m loc_of_shr_record shr_r shr_s round_nearest_even].
  unfold shr_fexp. cbn [Zdigits2 shr_record_of_loc]. rewrite digits_shift.
  replace (fexp prec emax (Zpos (digits2_pos m) + Z.of_nat (slack m)
                           + - Z.of_nat (slack m))
           - - Z.of_nat (slack m))%Z with 0%Z
    by (unfold fexp, emin, prec, emax, slack; lia).
  cbn [shr shr_m].
  replace (- Z.of_nat (slack m) <=? emax - prec)%Z with true; [reflexivity|].
  symmetry. apply Z.leb_le. unfold emax, prec. lia.
Qed.

Definition whole_number (n : Z) : Prop := (Z.abs n < 2 ^ 53)%Z.

Lemma of_Z_finite (n : Z) :
  whole_number n -> n <> 0%Z ->
  of_Z n = S754_finite (n <? 0)%Z (shift (Z.to_pos (Z.abs n)) (slack (Z.to_pos (Z.abs n))))
                       (- Z.of_nat (slack (Z.to_pos (Z.abs n)))).
Proof.
  unfold whole_number, of_Z, binary_normalize. intros W N.
  destruct n as [|m|m]; [contradiction| |]; cbn [Z.abs Z.to_pos Z.ltb Z.compare] in *;
    now apply round_whole.
Qed.

Lemma aligned_whole (n : Z) (k : nat) :
  whole_number n -> n <> 0%Z ->
  let m := Z.to_pos (Z.abs n) in
  (slack m <= k)%nat ->
  cond_Zopp (n <? 0)%Z
    (Zpos (fst (shl_align (shift m (slack m)) (- Z.of_nat (slack m)) (- Z.of_nat k))))
  = (n * 2 ^ Z.of_nat k)%Z.
Proof.
  intros W N m K. rewrite shl_align_shift. cbn [fst]. rewrite shift_add, shift_value.
  replace (Z.to_nat (- Z.of_nat (slack m) - - Z.of_nat k) + slack m)%nat with k by lia.
  subst m. destruct n as [|p|p]; [contradiction| |]; cbn [Z.abs Z.to_pos Z.ltb Z.compare cond_Zopp]; lia.
Qed.

(** The sum and the difference of two whole numbers below [2^53] are the
    doubles nearest to their sum and their difference. *)
Lemma add_of_Z (a b : Z) : whole_number a -> whole_number b -> add (of_Z a) (of_Z b) = of_Z (a + b).
Proof.
  intros Wa Wb.
  destruct (Z.eq_dec a 0) as [->|Na].
  { destruct (Z.eq_dec b 0) as [->|Nb]; [reflexivity|].
    change (0 + b)%Z with b. rewrite (of_Z_finite b Wb Nb). reflexivity. }
  destruct (Z.eq_dec b 0) as [->|Nb].
  { rewrite Z.add_0_r, (of_Z_finite a Wa Na). reflexivity. }
  rewrite (of_Z_finite a Wa Na), (of_Z_finite b Wb Nb).
  unfold add, SFadd. cbv zeta.
  set (k := Nat.max (slack (Z.to_pos (Z.abs a))) (slack (Z.to_pos (Z.abs b)))).
  replace (Z.min (- Z.of_nat (slack (Z.to_pos (Z.abs a))))
                 (- Z.of_nat (slack (Z.to_pos (Z.abs b)))))
    with (- Z.of_nat k)%Z by lia.
  rewrite (aligned_whole a k Wa Na), (aligned_whole b k Wb Nb) by lia.
  rewrite <- Z.mul_add_distr_r, binary_normalize_shift.
  replace (- Z.of_nat k + Z.of_nat k)%Z with 0%Z by lia. reflexivity.
Qed.

Lemma sub_of_Z (a b : Z) : whole_number a -> whole_number b -> sub (of_Z a) (of_Z b) = of_Z (a - b).
Proof.
  intros Wa Wb.
  destruct (Z.eq_dec b 0) as [->|Nb].
  { rewrite Z.sub_0_r. destruct (Z.eq_dec a 0) as [->|Na]; [reflexivity|].
    rewrite (of_Z_finite a Wa Na). reflexivity. }
  destruct (Z.eq_dec a 0) as [->|Na].
  { assert (Wb' : whole_number (0 - b)) by (unfold whole_number in *; lia).
    rewrite (of_Z_finite b Wb Nb), (of_Z_finite (0 - b) Wb') by lia.
    replace (Z.abs (0 - b)) with (Z.abs b) by lia.
    cbn [sub SFsub of_Z binary_normalize]. f_equal.
    destruct (Z.ltb_spec b 0), (Z.ltb_spec (0 - b) 0); try reflexivity; lia. }
  rewrite (of_Z_finite a Wa Na), (of_Z_finite b Wb Nb).
  unfold sub, SFsub. cbv zeta.
  set (k := Nat.max (slack (Z.to_pos (Z.abs a))) (slack (Z.to_pos (Z.abs b)))).
  replace (Z.min (- Z.of_nat (slack (Z.to_pos (Z.abs a))))
                 (- Z.of_nat (slack (Z.to_pos (Z.abs b)))))
    with (- Z.of_nat k)%Z by lia.
  rewrite (aligned_whole a k Wa Na), (aligned_whole b k Wb Nb) by lia.
  rewrite <- Z.mul_sub_distr_r, binary_normalize_shift.
  replace (- Z.of_nat k + Z.of_nat k)%Z with 0%Z by lia. reflexivity.
Qed.

(** Rounding a mantissa that is already at or below the exponent of the
    format does not align it first. *)
Lemma binary_round_aux_exact (s : bool) (m : positive) (e : Z) :
  (e <= fexp prec emax (Zpos (digits2_pos m) + e))%Z ->
  binary_round_aux prec emax s (Zpos m) e loc_Exact = binary_round prec emax s m e.
Proof.
  intros H. unfold binary_round, shl_align.
  destruct (fexp prec emax (Zpos (digits2_pos m) + e) - e)%Z eqn:D; try reflexivity. lia.
Qed.

Lemma div_by_one (s : bool) (m : positive) :
  (Zpos m < 2 ^ 53)%Z ->
  SFdiv prec emax (S754_finite s m 0) (S754_finite false 1 0)
  = binary_round prec emax s m 0.
Proof.
  intros H. pose proof (digits_bound m H) as D.
  unfold SFdiv, SFdiv_core_binary. cbv zeta. cbn [Zdigits2 digits2_pos].
  assert (E : Z.min (fexp prec emax (Zpos (digits2_pos m) + 0 - (1 + 0))) (0 - 0)
              = (Zpos (digits2_pos m) - 54)%Z).
  { unfold fexp, emin, prec, emax. lia. }
  rewrite E.
  destruct (0 - 0 - (Zpos (digits2_pos m) - 54))%Z as [|k|k] eqn:K; try lia.
  rewrite Z.shiftl_mul_pow2 by lia.
  replace (Zpos k) with (Z.of_nat (Pos.to_nat k)) by lia.
  rewrite <- shift_value.
  pose proof (Z.div_1_r (Zpos (shift m (Pos.to_nat k)))) as Q.
  pose proof (Z.mod_1_r (Zpos (shift m (Pos.to_nat k)))) as R.
  unfold Z.div, Z.modulo in Q, R.
  destruct (Z.div_eucl (Zpos (shift m (Pos.to_nat k))) 1) as [q r].
  cbn [fst snd] in Q, R. subst q r. cbn [xorb].
  rewrite Bool.xorb_false_r.
  change (new_location 1 0) with loc_Exact.
  rewrite binary_round_aux_exact.
  - rewrite binary_round_shift. f_equal. lia.
  - rewrite digits_shift. unfold fexp, emin, prec, emax. lia.
Qed.

(** A numeral without a fractional part below [2^53] denotes the double of
    its value. *)
Lemma dec_whole (n : Z) : whole_number n -> dec (inject_Z n) = of_Z n.
Proof.
  unfold whole_number, dec, of_Z, binary_normalize, inject_Z. cbn [Qnum Qden]. intros W.
  destruct n as [|m|m]; [reflexivity| |]; apply div_by_one; exact W.
Qed.

Lemma num_or_of_Z (n : Z) : whole_number n -> num_or (of_Z n) zero = of_Z n.
Proof.
  intros W. destruct (Z.eq_dec n 0) as [->|N]; [reflexivity|].
  rewrite (of_Z_finite n W N). reflexivity.
Qed.

(** *** Sums of whole numbers *)

Definition sum_Z (ns : list Z) : Z := fold_right Z.add 0%Z ns.

(** The sum of the absolute values. *)
Definition size_Z (ns : list Z) : Z := fold_right (fun n s => (Z.abs n + s)%Z) 0%Z ns.

Lemma size_Z_nonneg (ns : list Z) : (0 <= size_Z ns)%Z.
Proof. unfold sum_Z, size_Z. induction ns as [|n ns IH]; cbn [fold_right]; lia. Qed.

Lemma sum_Z_size (ns : list Z) : (Z.abs (sum_Z ns) <= size_Z ns)%Z.
Proof. unfold sum_Z, size_Z. induction ns as [|n ns IH]; cbn [fold_right]; lia. Qed.

Lemma sum_Z_app (ms ns : list Z) : sum_Z (ms ++ ns) = (sum_Z ms + sum_Z ns)%Z.
Proof. unfold sum_Z, size_Z. induction ms as [|m ms IH]; cbn [fold_right app]; lia. Qed.

Lemma size_Z_app (ms ns : list Z) : size_Z (ms ++ ns) = (size_Z ms + size_Z ns)%Z.
Proof. unfold sum_Z, size_Z. induction ms as [|m ms IH]; cbn [fold_right app]; lia. Qed.

Lemma sum_Z_permutation (ms ns : list Z) : Permutation ms ns -> sum_Z ms = sum_Z ns.
Proof. unfold sum_Z, size_Z. induction 1; cbn [fold_right]; lia. Qed.

Lemma size_Z_permutation (ms ns : list Z) : Permutation ms ns -> size_Z ms = size_Z ns.
Proof. unfold sum_Z, size_Z. induction 1; cbn [fold_right]; lia. Qed.

(** Adding whole numbers one after the other, as a reduction does, gives
    the double of their sum as long as the absolute values add up to less
    than [2^53]. *)
Lemma fold_add_of_Z (A : Type) (f : A -> double) (g : A -> Z) (xs : list A) (acc : Z) :
  (forall x, In x xs -> f x = of_Z (g x)) ->
  (Z.abs acc + size_Z (map g xs) < 2 ^ 53)%Z ->
  fold_left (fun sum x => add sum (f x)) xs (of_Z acc) = of_Z (acc + sum_Z (map g xs)).
Proof.
  revert acc. induction xs as [|x xs IH]; intros acc F B.
  - cbn. f_equal. lia.
  - change (size_Z (map g (x :: xs))) with (Z.abs (g x) + size_Z (map g xs))%Z in B.
    change (sum_Z (map g (x :: xs))) with (g x + sum_Z (map g xs))%Z.
    pose proof (size_Z_nonneg (map g xs)) as P.
    cbn [fold_left].
    rewrite (F x (or_introl eq_refl)), add_of_Z by (unfold whole_number; lia).
    rewrite IH.
    + f_equal. lia.
    + intros y Y. apply F. now right.
    + lia.
Qed.

Lemma size_Z_In (A : Type) (g : A -> Z) (xs : list A) (x : A) :
  In x xs -> (Z.abs (g x) <= size_Z (map g xs))%Z.
Proof.
  induction xs as [|y xs IH]; [contradiction|]. intros [->|I].
  - pose proof (size_Z_nonneg (map g xs)).
    change (size_Z (map g (x :: xs))) with (Z.abs (g x) + size_Z (map g xs))%Z. lia.
  - specialize (IH I).
    change (size_Z (map g (y :: xs))) with (Z.abs (g y) + size_Z (map g xs))%Z. lia.
Qed.

End Double.

(** ** Rows of the application's view model ([../types]) *)

Record Lead := mkLead {
  lead_id : string;
  lead_client_id : string;
  data : list (string * string);
  service : option string;
  status : string;
  value : option Q;
  created_at : Z
}.

Record AdSpend := mkAdSpend {
  spend_id : string;
  spend_client_id : string;
  amount : Q;
  date : Z
}.

(** ** The revenue calculator ([MwsRevenuePage.tsx]), in exact arithmetic *)

Module Revenue.

Import Js.

(** What [ClientRevenueCalculator] reads of its [client] prop. *)
Record Client := mkClient {
  leads : option (list Lead);
  adSpends : option (list AdSpend);
  mws_fixed_fee : option Q;
  mws_profit_percentage : option Q
}.

(** The [dateRange] prop: each bound [null] or a [Date]. *)
Record DateRange := mkRange {
  range_start : option Date;
  range_end : option Date
}.

Record RevenueData := mkRevenueData {
  clientRevenue : Q;
  totalAdSpend : Q;
  clientProfit : Q;
  mwsFixed : Q;
  mwsPercentage : Q;
  mwsProfitShare : Q;
  mwsRevenue : Q
}.

Section Calculator.

(** [new Date(text)] on free text (the lead's [_revenue_attribution_date]
    answer): a built-in, taken as a parameter. *)
Variable Date_parse : string -> Date.

(** [new Date(l.data._revenue_attribution_date || l.created_at)] *)
Definition leadDate (l : Lead) : Date :=
  match prop "_revenue_attribution_date" (data l) with
  | Some text => if truthy text then Date_parse text else Some (created_at l)
  | None => Some (created_at l)
  end.

(** [dateRange.start || dateRange.end] *)
Definition bounded (r : DateRange) : bool :=
  match range_start r, range_end r with
  | None, None => false
  | _, _ => true
  end.

(** The body shared by the two filter callbacks:
    [isAfter && isBefore]. *)
Definition inRange (r : DateRange) (d : Date) : bool :=
  let isAfter :=
    match range_start r with None => true | Some s => date_geb d s end in
  let isBefore :=
    match range_end r with None => true | Some e => date_leb d e end in
  isAfter && isBefore.

(** [revenueData], with its sums, its product and its quotient taken
    exactly. *)
Definition revenueData (client : Client) (dateRange : DateRange) : RevenueData :=
  let leads0 := match leads client with Some ls => ls | None => [] end in
  let leads1 :=
    if bounded dateRange
    then filter (fun l => inRange dateRange (leadDate l)) leads0
    else leads0 in
  let spends0 := match adSpends client with Some ss => ss | None => [] end in
  let spends :=
    if bounded dateRange
    then filter (fun s => inRange dateRange (Some (date s))) spends0
    else spends0 in
  let wonLeads := filter (fun l => String.eqb (status l) "Vinto") leads1 in
  let clientRevenue :=
    fold_left (fun sum l => sum + opt_num_or (value l) 0) wonLeads 0 in
  let totalAdSpend := fold_left (fun sum s => sum + amount s) spends 0 in
  let clientProfit := clientRevenue - totalAdSpend in
  let mwsFixed := opt_num_or (mws_fixed_fee client) 0 in
  let mwsPercentage := opt_num_or (mws_profit_percentage client) 0 in
  let mwsProfitShare :=
    if gtb clientProfit 0 then (clientProfit * mwsPercentage) / 100 else 0 in
  let mwsRevenue := mwsFixed + mwsProfitShare in
  mkRevenueData clientRevenue totalAdSpend clientProfit
                mwsFixed mwsPercentage mwsProfitShare mwsRevenue.

(** *** The calculation as the specification words it *)

(** An inclusive window [[s, e]] of instants. *)
Definition window (s e : Z) : DateRange := mkRange (Some (Some s)) (Some (Some e)).

(** The lead's attribution date: its explicit attribution answer when it has
    one (a non-empty text), else its creation date. *)
Definition attribution_date (l : Lead) : Date :=
  match prop "_revenue_attribution_date" (data l) with
  | Some (String c rest) => Date_parse (String c rest)
  | _ => Some (created_at l)
  end.

Definition lies_in (s e : Z) (d : Date) : bool :=
  match d with
  | Some t => ((s <=? t) && (t <=? e))%Z
  | None => false
  end.

Fixpoint total (xs : list Q) : Q :=
  match xs with
  | [] => 0
  | x :: rest => x + total rest
  end.

Definition lead_value (l : Lead) : Q :=
  match value l with Some v => v | None => 0 end.

Definition is_won (l : Lead) : bool := String.eqb (status l) "Vinto".

(** Sum of the values of the Won leads attributed to the window. *)
Definition won_revenue (s e : Z) (ls : list Lead) : Q :=
  total (map lead_value
           (filter (fun l => is_won l && lies_in s e (attribution_date l)) ls)).

(** Sum of the amounts of the ad spends dated in the window. *)
Definition ad_spend (s e : Z) (ss : list AdSpend) : Q :=
  total (map amount (filter (fun a => lies_in s e (Some (date a))) ss)).

(** [fixedFee + (profit > 0 ? profit * percentage / 100 : 0)] *)
Definition commission (fixedFee percentage profit : Q) : Q :=
  fixedFee + (if Qlt_le_dec 0 profit then profit * percentage / 100 else 0).

(** The client's leads and ad spends, none when the array is absent; its two
    commission parameters, zero when unset. *)
Definition leads_of (c : Client) : list Lead :=
  match leads c with Some ls => ls | None => [] end.

Definition spends_of (c : Client) : list AdSpend :=
  match adSpends c with Some ss => ss | None => [] end.

Definition fixedFee (c : Client) : Q :=
  match mws_fixed_fee c with Some f => f | None => 0 end.

Definition profitPercentage (c : Client) : Q :=
  match mws_profit_percentage c with Some p => p | None => 0 end.

(** Two results that show the same figures. *)
Definition same_figures (a b : RevenueData) : Prop :=
  clientRevenue a == clientRevenue b /\
  totalAdSpend a == totalAdSpend b /\
  clientProfit a == clientProfit b /\
  mwsFixed a == mwsFixed b /\
  mwsPercentage a == mwsPercentage b /\
  mwsProfitShare a == mwsProfitShare b /\
  mwsRevenue a == mwsRevenue b.

(** *** Sums *)

Lemma reduce_total (A : Type) (f : A -> Q) (xs : list A) (acc : Q) :
  fold_left (fun sum x => sum + f x) xs acc == acc + total (map f xs).
Proof.
  revert acc; induction xs as [|x xs IH]; intros acc; simpl.
  - ring.
  - rewrite IH. ring.
Qed.

Lemma opt_num_or_value (l : Lead) : opt_num_or (value l) 0 == lead_value l.
Proof.
  unfold opt_num_or, lead_value. destruct (value l); [apply num_or_zero | reflexivity].
Qed.

Lemma total_map_ext (A : Type) (f g : A -> Q) (xs : list A) :
  (forall x, f x == g x) -> total (map f xs) == total (map g xs).
Proof.
  intros H; induction xs as [|x xs IH]; simpl; [reflexivity|].
  now rewrite H, IH.
Qed.

Lemma filter_filter (A : Type) (p q : A -> bool) (xs : list A) :
  filter q (filter p xs) = filter (fun x => q x && p x) xs.
Proof.
  induction xs as [|x xs IH]; simpl; [reflexivity|].
  destruct (p x) eqn:P; simpl.
  - destruct (q x); simpl; now rewrite IH.
  - rewrite andb_false_r. exact IH.
Qed.

Lemma total_filter_perm (A : Type) (f : A -> Q) (p : A -> bool) (xs ys : list A) :
  Permutation xs ys -> total (map f (filter p xs)) == total (map f (filter p ys)).
Proof.
  induction 1 as [|x xs ys _ IH|x y xs|xs ys zs _ IH1 _ IH2]; simpl.
  - reflexivity.
  - destruct (p x); simpl; now rewrite IH.
  - destruct (p x), (p y); simpl; ring.
  - now rewrite IH1.
Qed.

(** *** Dates and windows *)

Lemma leadDate_attribution (l : Lead) : leadDate l = attribution_date l.
Proof.
  unfold leadDate, attribution_date.
  destruct (prop "_revenue_attribution_date" (data l)) as [[|c rest]|]; reflexivity.
Qed.

Lemma inRange_window (s e : Z) (d : Date) : inRange (window s e) d = lies_in s e d.
Proof.
  unfold inRange, window, lies_in; simpl. destruct d as [t|]; reflexivity.
Qed.

Lemma lies_in_split (s m e : Z) (d : Date) :
  (s - 1 <= m <= e)%Z ->
  lies_in s e d = lies_in s m d || lies_in (m + 1) e d /\
  lies_in s m d && lies_in (m + 1) e d = false.
Proof.
  intros H. destruct d as [t|]; simpl; [|split; reflexivity].
  destruct (Z.leb_spec s t), (Z.leb_spec t e), (Z.leb_spec t m), (Z.leb_spec (m + 1) t);
    simpl; split; try reflexivity; lia.
Qed.

(** *** The profit share *)

Lemma gtb_zero (p : Q) :
  (if gtb p 0 then true else false) = (if Qlt_le_dec 0 p then true else false).
Proof.
  destruct (Qlt_le_dec 0 p) as [H|H].
  - apply gtb_true in H. now rewrite H.
  - apply gtb_false in H. now rewrite H.
Qed.

Lemma commission_compat (f f' c c' p p' : Q) :
  f == f' -> c == c' -> p == p' -> commission f c p == commission f' c' p'.
Proof.
  intros Hf Hc Hp. unfold commission.
  destruct (Qlt_le_dec 0 p) as [H|H], (Qlt_le_dec 0 p') as [H'|H'].
  - now rewrite Hf, Hc, Hp.
  - rewrite Hp in H. exfalso. exact (Qlt_not_le _ _ H H').
  - rewrite Hp in H. exfalso. exact (Qlt_not_le _ _ H' H).
  - now rewrite Hf.
Qed.

Lemma share_commission (fee pct p : Q) :
  fee + (if gtb p 0 then p * pct / 100 else 0) == commission fee pct p.
Proof.
  unfold commission. pose proof (gtb_zero p) as G.
  destruct (gtb p 0), (Qlt_le_dec 0 p); try discriminate; reflexivity.
Qed.

(** *** The figures of [revenueData], as sums over the selected rows *)

Definition selected_revenue (r : DateRange) (ls : list Lead) : Q :=
  total (map lead_value (filter (fun l => is_won l && inRange r (leadDate l)) ls)).

Definition selected_spend (r : DateRange) (ss : list AdSpend) : Q :=
  total (map amount (filter (fun a => inRange r (Some (date a))) ss)).

Lemma unbounded_inRange (r : DateRange) (d : Date) :
  bounded r = false -> inRange r d = true.
Proof.
  unfold bounded, inRange.
  destruct (range_start r), (range_end r); intros H; try discriminate; reflexivity.
Qed.

Lemma filter_unbounded (A : Type) (r : DateRange) (f : A -> Date) (xs : list A) :
  (if bounded r then filter (fun x => inRange r (f x)) xs else xs)
  = filter (fun x => inRange r (f x)) xs.
Proof.
  destruct (bounded r) eqn:B; [reflexivity|].
  induction xs as [|x xs IH]; simpl; [reflexivity|].
  rewrite (unbounded_inRange r (f x) B). now rewrite <- IH.
Qed.

Lemma revenueData_figures (c : Client) (r : DateRange) :
  let rev := selected_revenue r (leads_of c) in
  let spend := selected_spend r (spends_of c) in
  let d := revenueData c r in
  clientRevenue d == rev /\
  totalAdSpend d == spend /\
  clientProfit d == rev - spend /\
  mwsFixed d == fixedFee c /\
  mwsPercentage d == profitPercentage c /\
  mwsProfitShare d == commission 0 (profitPercentage c) (rev - spend) /\
  mwsRevenue d == commission (fixedFee c) (profitPercentage c) (rev - spend).
Proof.
  intros rev spend d.
  assert (Hrev : clientRevenue d == rev).
  { subst d rev. unfold revenueData, selected_revenue, leads_of; simpl.
    rewrite filter_unbounded, filter_filter, reduce_total, Qplus_0_l.
    apply total_map_ext, opt_num_or_value. }
  assert (Hspend : totalAdSpend d == spend).
  { subst d spend. unfold revenueData, selected_spend, spends_of; simpl.
    rewrite filter_unbounded, reduce_total, Qplus_0_l. reflexivity. }
  assert (Hprofit : clientProfit d == rev - spend).
  { transitivity (clientRevenue d - totalAdSpend d); [reflexivity|].
    now rewrite Hrev, Hspend. }
  assert (Hfee : mwsFixed d == fixedFee c).
  { subst d. unfold revenueData, fixedFee, opt_num_or; simpl.
    destruct (mws_fixed_fee c); [apply num_or_zero | reflexivity]. }
  assert (Hpct : mwsPercentage d == profitPercentage c).
  { subst d. unfold revenueData, profitPercentage, opt_num_or; simpl.
    destruct (mws_profit_percentage c); [apply num_or_zero | reflexivity]. }
  assert (Hshare : mwsProfitShare d
                   == commission 0 (profitPercentage c) (rev - spend)).
  { transitivity (0 + (if gtb (clientProfit d) 0
                       then clientProfit d * mwsPercentage d / 100 else 0)).
    - rewrite Qplus_0_l. reflexivity.
    - rewrite share_commission.
      apply commission_compat; [reflexivity | exact Hpct | exact Hprofit]. }
  repeat split; try assumption.
  transitivity (mwsFixed d + mwsProfitShare d); [reflexivity|].
  rewrite Hfee, Hshare. unfold commission.
  destruct (Qlt_le_dec 0 (rev - spend)); ring.
Qed.

Lemma selected_revenue_window (s e : Z) (ls : list Lead) :
  selected_revenue (window s e) ls = won_revenue s e ls.
Proof.
  unfold selected_revenue, won_revenue. do 2 f_equal.
  apply filter_ext. intros l. now rewrite inRange_window, leadDate_attribution.
Qed.

Lemma selected_spend_window (s e : Z) (ss : list AdSpend) :
  selected_spend (window s e) ss = ad_spend s e ss.
Proof.
  unfold selected_spend, ad_spend.
  rewrite (filter_ext (fun a => inRange (window s e) (Some (date a)))
                      (fun a => lies_in s e (Some (date a)))); [reflexivity|].
  intros a. apply inRange_window.
Qed.

Lemma window_figures (c : Client) (s e : Z) :
  let profit := won_revenue s e (leads_of c) - ad_spend s e (spends_of c) in
  let d := revenueData c (window s e) in
  clientRevenue d == won_revenue s e (leads_of c) /\
  totalAdSpend d == ad_spend s e (spends_of c) /\
  clientProfit d == profit /\
  mwsFixed d == fixedFee c /\
  mwsRevenue d == commission (fixedFee c) (profitPercentage c) profit.
Proof.
  intros profit d.
  destruct (revenueData_figures c (window s e)) as (H1 & H2 & H3 & H4 & _ & _ & H7).
  subst profit. rewrite <- selected_revenue_window, <- selected_spend_window.
  repeat split; assumption.
Qed.

(** The example of the specification: one Won lead worth 1000 and one ad
    spend of 200, both inside March 2024 (a browser on UTC), fee 100 and 20 percent. *)
Definition march_2024 : DateRange := window 1709251200000 1711929599000.

Definition example_client : Client :=
  mkClient
    (Some [mkLead "lead-1" "client-1" [("nome", "Rossi")] None "Vinto"
                  (Some 1000) 1710498600000])
    (Some [mkAdSpend "spend-1" "client-1" 200 1710460800000])
    (Some 100) (Some 20).


(** *** Order of the rows, and windows split in two *)

Lemma selected_revenue_perm (r : DateRange) (xs ys : list Lead) :
  Permutation xs ys -> selected_revenue r xs == selected_revenue r ys.
Proof. apply total_filter_perm. Qed.

Lemma selected_spend_perm (r : DateRange) (xs ys : list AdSpend) :
  Permutation xs ys -> selected_spend r xs == selected_spend r ys.
Proof. apply total_filter_perm. Qed.

Lemma total_filter_split (A : Type) (f : A -> Q) (p p1 p2 : A -> bool) (xs : list A) :
  (forall x, p x = p1 x || p2 x) ->
  (forall x, p1 x && p2 x = false) ->
  total (map f (filter p xs))
  == total (map f (filter p1 xs)) + total (map f (filter p2 xs)).
Proof.
  intros Hu Hd. induction xs as [|x xs IH]; simpl; [ring|].
  rewrite (Hu x). specialize (Hd x).
  destruct (p1 x), (p2 x); simpl in *; try discriminate; rewrite IH; ring.
Qed.

Lemma won_revenue_split (s m e : Z) (ls : list Lead) :
  (s - 1 <= m <= e)%Z ->
  won_revenue s e ls == won_revenue s m ls + won_revenue (m + 1) e ls.
Proof.
  intros H. apply total_filter_split; intros l;
    destruct (lies_in_split s m e (attribution_date l) H) as [U D].
  - rewrite U. destruct (is_won l); reflexivity.
  - destruct (is_won l); simpl; [exact D | reflexivity].
Qed.

Lemma ad_spend_split (s m e : Z) (ss : list AdSpend) :
  (s - 1 <= m <= e)%Z ->
  ad_spend s e ss == ad_spend s m ss + ad_spend (m + 1) e ss.
Proof.
  intros H. apply total_filter_split; intros a;
    destruct (lies_in_split s m e (Some (date a)) H) as [U D]; assumption.
Qed.

Lemma commission_split (fee pct p1 p2 : Q) :
  0 <= p1 -> 0 <= p2 ->
  commission fee pct p1 + commission fee pct p2
  == commission fee pct (p1 + p2) + fee.
Proof.
  intros H1 H2. unfold commission.
  destruct (Qlt_le_dec 0 p1) as [A|A], (Qlt_le_dec 0 p2) as [B|B],
           (Qlt_le_dec 0 (p1 + p2)) as [C|C]; try field.
  - exfalso. apply (Qlt_not_le _ _ A).
    apply Qle_trans with (p1 + p2); [|exact C].
    rewrite <- (Qplus_0_r p1) at 1. apply Qplus_le_r. exact H2.
  - assert (E : p2 == 0) by (apply Qle_antisym; assumption).
    rewrite E. field.
  - exfalso. apply (Qlt_not_le _ _ A).
    apply Qle_trans with (p1 + p2); [|exact C].
    rewrite <- (Qplus_0_r p1) at 1. apply Qplus_le_r. exact H2.
  - assert (E : p1 == 0) by (apply Qle_antisym; assumption).
    rewrite E. field.
  - exfalso. apply (Qlt_not_le _ _ B).
    apply Qle_trans with (p1 + p2); [|exact C].
    rewrite <- (Qplus_0_l p2) at 1. apply Qplus_le_l. exact H1.
  - assert (E1 : p1 == 0) by (apply Qle_antisym; assumption).
    assert (E2 : p2 == 0) by (apply Qle_antisym; assumption).
    rewrite E1, E2. field.
Qed.

(** In exact arithmetic permuting the leads or the ad spends of a client
    leaves every figure unchanged, and over a window split in two adjacent
    sub-windows the won revenue, the ad spend and the profit add up. The
    code computes in JavaScript numbers, where the same sums are rounded:
    see [Revenue64]. *)
Lemma exact_sums_order_and_windows :
  (forall (c c' : Client) (r : DateRange),
     Permutation (leads_of c) (leads_of c') ->
     Permutation (spends_of c) (spends_of c') ->
     mws_fixed_fee c = mws_fixed_fee c' ->
     mws_profit_percentage c = mws_profit_percentage c' ->
     same_figures (revenueData c r) (revenueData c' r)) /\
  (forall (c : Client) (s m e : Z),
     (s - 1 <= m <= e)%Z ->
     let whole := revenueData c (window s e) in
     let first := revenueData c (window s m) in
     let second := revenueData c (window (m + 1) e) in
     clientRevenue whole == clientRevenue first + clientRevenue second /\
     totalAdSpend whole == totalAdSpend first + totalAdSpend second /\
     clientProfit whole == clientProfit first + clientProfit second /\
     (0 <= clientProfit first -> 0 <= clientProfit second ->
      mwsRevenue first + mwsRevenue second == mwsRevenue whole + mwsFixed whole)).
Proof.
  split.
  - intros c c' r Hl Hs Hf Hp.
    destruct (revenueData_figures c r) as (A1 & A2 & A3 & A4 & A5 & A6 & A7).
    destruct (revenueData_figures c' r) as (B1 & B2 & B3 & B4 & B5 & B6 & B7).
    assert (Er := selected_revenue_perm r _ _ Hl).
    assert (Es := selected_spend_perm r _ _ Hs).
    assert (Ef : fixedFee c == fixedFee c') by (unfold fixedFee; now rewrite Hf).
    assert (Ep : profitPercentage c == profitPercentage c')
      by (unfold profitPercentage; now rewrite Hp).
    assert (Ed : selected_revenue r (leads_of c) - selected_spend r (spends_of c)
                 == selected_revenue r (leads_of c') - selected_spend r (spends_of c'))
      by now rewrite Er, Es.
    unfold same_figures. repeat split.
    + now rewrite A1, B1.
    + now rewrite A2, B2.
    + now rewrite A3, B3.
    + now rewrite A4, B4.
    + now rewrite A5, B5.
    + rewrite A6, B6. apply commission_compat; [reflexivity | exact Ep | exact Ed].
    + rewrite A7, B7. apply commission_compat; assumption.
  - intros c s m e H whole first second.
    destruct (window_figures c s e) as (A1 & A2 & A3 & A4 & A7).
    destruct (window_figures c s m) as (B1 & B2 & B3 & _ & B7).
    destruct (window_figures c (m + 1) e) as (C1 & C2 & C3 & _ & C7).
    fold whole in A1, A2, A3, A4, A7. fold first in B1, B2, B3, B7.
    fold second in C1, C2, C3, C7.
    pose proof (won_revenue_split s m e (leads_of c) H) as Hrev.
    pose proof (ad_spend_split s m e (spends_of c) H) as Hspend.
    assert (P : clientProfit whole == clientProfit first + clientProfit second).
    { rewrite A3, B3, C3, Hrev, Hspend. ring. }
    repeat split.
    + now rewrite A1, B1, C1.
    + now rewrite A2, B2, C2.
    + exact P.
    + intros H1 H2. rewrite A7, B7, C7, A4.
      rewrite B3 in H1. rewrite C3 in H2.
      rewrite (commission_split _ _ _ _ H1 H2).
      apply Qplus_inj_r. apply commission_compat; try reflexivity.
      rewrite <- B3, <- C3, <- A3. symmetry. exact P.
Qed.

End Calculator.

(** [new Date] on the dates the worked examples use. *)
Definition Date_parse_examples (text : string) : Js.Date :=
  if String.eqb text "2024-03-15" then Some 1710460800000%Z
  else if String.eqb text "2024-04-02" then Some 1712016000000%Z
  else None.

(** A client with no fixed fee and a 20 percent share: a Won lead worth 1000
    created on 15 March 2024 and an ad spend of 500 dated 15 April 2024. *)
Definition spring_client : Client :=
  mkClient
    (Some [mkLead "lead-1" "client-1" [("nome", "Rossi")] None "Vinto"
                  (Some 1000) 1710498600000])
    (Some [mkAdSpend "spend-1" "client-1" 500 1713139200000])
    None (Some 20).

(** March, April, and March to April 2024, each an inclusive window. *)
Definition march : DateRange := window 1709251200000 1711929599999.
Definition april : DateRange := window 1711929600000 1714521599999.
Definition march_to_april : DateRange := window 1709251200000 1714521599999.




(** *** The commission against the fixed fee, leads and ad spend *)














End Revenue.

(** ** The revenue calculator in JavaScript numbers *)

Module Revenue64.

Import Double.

(** The figures [revenueData] returns, as the numbers the code computes. *)
Record RevenueData := mkRevenueData {
  clientRevenue : double;
  totalAdSpend : double;
  clientProfit : double;
  mwsFixed : double;
  mwsPercentage : double;
  mwsProfitShare : double;
  mwsRevenue : double
}.

Section Calculator.

Variable Date_parse : string -> Js.Date.

(** A number column of a row is the decimal numeral the backend delivered,
    and the number in the program is the double that numeral denotes.
    [x || 0] on such a column that may be missing. *)
Definition number_or_zero (x : option Q) : double :=
  match x with
  | Some v => num_or (dec v) zero
  | None => zero
  end.

(** [leads] after the date filter. *)
Definition leads (client : Revenue.Client) (dateRange : Revenue.DateRange) : list Lead :=
  let leads0 := match Revenue.leads client with Some ls => ls | None => [] end in
  if Revenue.bounded dateRange
  then filter (fun l => Revenue.inRange dateRange (Revenue.leadDate Date_parse l)) leads0
  else leads0.

(** [spends] after the date filter. *)
Definition spends (client : Revenue.Client) (dateRange : Revenue.DateRange)
  : list AdSpend :=
  let spends0 := match Revenue.adSpends client with Some ss => ss | None => [] end in
  if Revenue.bounded dateRange
  then filter (fun s => Revenue.inRange dateRange (Some (date s))) spends0
  else spends0.

(** [wonLeads] *)
Definition wonLeads (client : Revenue.Client) (dateRange : Revenue.DateRange)
  : list Lead :=
  filter (fun l => String.eqb (status l) "Vinto") (leads client dateRange).

Definition revenueData (client : Revenue.Client) (dateRange : Revenue.DateRange)
  : RevenueData :=
  let clientRevenue :=
    fold_left (fun sum l => add sum (number_or_zero (value l)))
              (wonLeads client dateRange) zero in
  let totalAdSpend :=
    fold_left (fun sum s => add sum (dec (amount s))) (spends client dateRange) zero in
  let clientProfit := sub clientRevenue totalAdSpend in
  let mwsFixed := number_or_zero (Revenue.mws_fixed_fee client) in
  let mwsPercentage := number_or_zero (Revenue.mws_profit_percentage client) in
  let mwsProfitShare :=
    if gtb clientProfit zero then div (mul clientProfit mwsPercentage) (dec 100)
    else zero in
  let mwsRevenue := add mwsFixed mwsProfitShare in
  mkRevenueData clientRevenue totalAdSpend clientProfit
                mwsFixed mwsPercentage mwsProfitShare mwsRevenue.

(** *** The rows that are counted *)

Lemma filter_permutation (A : Type) (p : A -> bool) (xs ys : list A) :
  Permutation xs ys -> Permutation (filter p xs) (filter p ys).
Proof.
  induction 1 as [|x xs ys _ IH|x y xs|xs ys zs _ IH1 _ IH2]; simpl.
  - constructor.
  - destruct (p x); [now constructor | exact IH].
  - destruct (p x), (p y); try apply Permutation_refl. apply perm_swap.
  - now apply perm_trans with (filter p ys).
Qed.

Lemma filter_partition (A : Type) (p p1 p2 : A -> bool) (xs : list A) :
  (forall x, p x = p1 x || p2 x) ->
  (forall x, p1 x && p2 x = false) ->
  Permutation (filter p xs) (filter p1 xs ++ filter p2 xs).
Proof.
  intros Union Disjoint. induction xs as [|x xs IH]; simpl; [constructor|].
  rewrite (Union x). specialize (Disjoint x).
  destruct (p1 x), (p2 x); simpl in *; try discriminate.
  - now constructor.
  - now apply Permutation_cons_app.
  - exact IH.
Qed.

Lemma leads_selected (c : Revenue.Client) (r : Revenue.DateRange) :
  leads c r
  = filter (fun l => Revenue.inRange r (Revenue.leadDate Date_parse l))
           (Revenue.leads_of c).
Proof.
  unfold leads, Revenue.leads_of.
  apply (Revenue.filter_unbounded Lead r (Revenue.leadDate Date_parse)).
Qed.

Lemma spends_selected (c : Revenue.Client) (r : Revenue.DateRange) :
  spends c r
  = filter (fun s => Revenue.inRange r (Some (date s))) (Revenue.spends_of c).
Proof.
  unfold spends, Revenue.spends_of.
  apply (Revenue.filter_unbounded AdSpend r (fun s => Some (date s))).
Qed.

Lemma window_partition (s m e : Z) (d : Js.Date) :
  (s - 1 <= m <= e)%Z ->
  Revenue.inRange (Revenue.window s e) d
  = Revenue.inRange (Revenue.window s m) d
    || Revenue.inRange (Revenue.window (m + 1) e) d /\
  Revenue.inRange (Revenue.window s m) d
  && Revenue.inRange (Revenue.window (m + 1) e) d = false.
Proof.
  intros H. rewrite !Revenue.inRange_window. now apply Revenue.lies_in_split.
Qed.

(** *** Whole amounts *)

(** The amount of a lead and of an ad spend as an integer, for a numeral
    without a fractional part. *)
Definition worth (l : Lead) : Z :=
  match value l with
  | Some v => Qnum v
  | None => 0%Z
  end.

Definition spent (a : AdSpend) : Z := Qnum (amount a).

Definition whole_lead (l : Lead) : Prop :=
  match value l with
  | Some v => Qden v = 1%positive
  | None => True
  end.

Definition whole_spend (a : AdSpend) : Prop := Qden (amount a) = 1%positive.

(** The amounts of the rows are whole numbers whose absolute values add up
    to less than [2^53]. *)
Definition whole_amounts (ls : list Lead) (ss : list AdSpend) : Prop :=
  Forall whole_lead ls /\ Forall whole_spend ss /\
  (size_Z (map worth ls) + size_Z (map spent ss) < 2 ^ 53)%Z.

Lemma dec_numeral (q : Q) :
  Qden q = 1%positive -> whole_number (Qnum q) -> dec q = of_Z (Qnum q).
Proof. destruct q as [n d]. cbn [Qnum Qden]. intros -> W. exact (dec_whole n W). Qed.

Lemma whole_amounts_permutation (ls ls' : list Lead) (ss ss' : list AdSpend) :
  Permutation ls ls' -> Permutation ss ss' ->
  whole_amounts ls ss -> whole_amounts ls' ss'.
Proof.
  intros Pl Ps (L & S & B). repeat split.
  - exact (Permutation_Forall Pl L).
  - exact (Permutation_Forall Ps S).
  - rewrite <- (size_Z_permutation _ _ (Permutation_map worth Pl)).
    rewrite <- (size_Z_permutation _ _ (Permutation_map spent Ps)). exact B.
Qed.

Lemma whole_amounts_app (ls ls' : list Lead) (ss ss' : list AdSpend) :
  whole_amounts (ls ++ ls') (ss ++ ss') -> whole_amounts ls ss /\ whole_amounts ls' ss'.
Proof.
  intros (L & S & B). apply Forall_app in L, S. destruct L as [L L'], S as [S S'].
  rewrite !map_app, !size_Z_app in B.
  pose proof (size_Z_nonneg (map worth ls)). pose proof (size_Z_nonneg (map worth ls')).
  pose proof (size_Z_nonneg (map spent ss)). pose proof (size_Z_nonneg (map spent ss')).
  split; (split; [|split]); try assumption; lia.
Qed.

Lemma revenue_of_whole (ls : list Lead) (ss : list AdSpend) :
  whole_amounts ls ss ->
  fold_left (fun sum l => add sum (number_or_zero (value l))) ls zero
  = of_Z (sum_Z (map worth ls)).
Proof.
  intros (L & _ & B). pose proof (size_Z_nonneg (map spent ss)) as P.
  change zero with (of_Z 0).
  rewrite (fold_add_of_Z Lead (fun l => number_or_zero (value l)) worth).
  - reflexivity.
  - intros l I. rewrite Forall_forall in L. specialize (L l I).
    pose proof (size_Z_In Lead worth ls l I) as M.
    unfold whole_lead, worth, number_or_zero in *.
    destruct (value l) as [v|]; [|reflexivity].
    assert (W : whole_number (Qnum v)) by (unfold whole_number; lia).
    rewrite (dec_numeral v L W). exact (num_or_of_Z _ W).
  - cbn [Z.abs]. lia.
Qed.

Lemma spend_of_whole (ls : list Lead) (ss : list AdSpend) :
  whole_amounts ls ss ->
  fold_left (fun sum a => add sum (dec (amount a))) ss zero
  = of_Z (sum_Z (map spent ss)).
Proof.
  intros (_ & S & B). pose proof (size_Z_nonneg (map worth ls)) as P.
  change zero with (of_Z 0).
  rewrite (fold_add_of_Z AdSpend (fun a => dec (amount a)) spent).
  - reflexivity.
  - intros a I. rewrite Forall_forall in S. specialize (S a I).
    pose proof (size_Z_In AdSpend spent ss a I) as M.
    unfold whole_spend, spent in *.
    apply dec_numeral; [exact S|]. unfold whole_number. lia.
  - cbn [Z.abs]. lia.
Qed.

Lemma whole_sums (ls : list Lead) (ss : list AdSpend) :
  whole_amounts ls ss ->
  whole_number (sum_Z (map worth ls)) /\ whole_number (sum_Z (map spent ss)) /\
  whole_number (sum_Z (map worth ls) - sum_Z (map spent ss)).
Proof.
  intros (_ & _ & B).
  pose proof (sum_Z_size (map worth ls)). pose proof (sum_Z_size (map spent ss)).
  pose proof (size_Z_nonneg (map worth ls)). pose proof (size_Z_nonneg (map spent ss)).
  unfold whole_number. repeat split; lia.
Qed.

(** The revenue, the ad spend and the profit of whole amounts. *)
Lemma whole_figures (c : Revenue.Client) (r : Revenue.DateRange) :
  whole_amounts (wonLeads c r) (spends c r) ->
  clientRevenue (revenueData c r) = of_Z (sum_Z (map worth (wonLeads c r))) /\
  totalAdSpend (revenueData c r) = of_Z (sum_Z (map spent (spends c r))) /\
  clientProfit (revenueData c r)
  = of_Z (sum_Z (map worth (wonLeads c r)) - sum_Z (map spent (spends c r))).
Proof.
  intros W. destruct (whole_sums _ _ W) as (Wl & Ws & _).
  unfold revenueData. cbv zeta. cbn [clientRevenue totalAdSpend clientProfit].
  rewrite (revenue_of_whole _ _ W), (spend_of_whole _ _ W).
  repeat split. now apply sub_of_Z.
Qed.

(** *** The exact calculation on whole amounts *)

Lemma whole_value (q : Q) : Qden q = 1%positive -> q == inject_Z (Qnum q).
Proof. destruct q as [n d]. cbn [Qnum Qden]. intros ->. reflexivity. Qed.

Lemma whole_total (ls : list Lead) :
  Forall whole_lead ls ->
  Revenue.total (map Revenue.lead_value ls) == inject_Z (sum_Z (map worth ls)).
Proof.
  induction 1 as [|l ls W _ IH]; [reflexivity|].
  change (sum_Z (map worth (l :: ls))) with (worth l + sum_Z (map worth ls))%Z.
  cbn [map Revenue.total]. rewrite inject_Z_plus, IH. apply Qplus_inj_r.
  unfold whole_lead, worth, Revenue.lead_value in *.
  destruct (value l) as [v|]; [now apply whole_value | reflexivity].
Qed.

Lemma whole_total_spend (ss : list AdSpend) :
  Forall whole_spend ss ->
  Revenue.total (map amount ss) == inject_Z (sum_Z (map spent ss)).
Proof.
  induction 1 as [|a ss W _ IH]; [reflexivity|].
  change (sum_Z (map spent (a :: ss))) with (spent a + sum_Z (map spent ss))%Z.
  cbn [map Revenue.total]. rewrite inject_Z_plus, IH. apply Qplus_inj_r.
  now apply whole_value.
Qed.

(** On whole amounts the revenue, the ad spend and the profit of the exact
    calculation are the numbers the code computes. *)
Lemma exact_on_whole_amounts (c : Revenue.Client) (r : Revenue.DateRange) :
  whole_amounts (wonLeads c r) (spends c r) ->
  exists R A : Z,
    clientRevenue (revenueData c r) = of_Z R /\
    totalAdSpend (revenueData c r) = of_Z A /\
    clientProfit (revenueData c r) = of_Z (R - A) /\
    Revenue.clientRevenue (Revenue.revenueData Date_parse c r) == inject_Z R /\
    Revenue.totalAdSpend (Revenue.revenueData Date_parse c r) == inject_Z A /\
    Revenue.clientProfit (Revenue.revenueData Date_parse c r) == inject_Z (R - A).
Proof.
  intros W. destruct (whole_figures c r W) as (R & A & P).
  exists (sum_Z (map worth (wonLeads c r))), (sum_Z (map spent (spends c r))).
  split; [exact R|]. split; [exact A|]. split; [exact P|].
  destruct W as (Wl & Ws & _).
  destruct (Revenue.revenueData_figures Date_parse c r) as (ER & EA & EP & _).
  assert (Sl : Revenue.selected_revenue Date_parse r (Revenue.leads_of c)
               == inject_Z (sum_Z (map worth (wonLeads c r)))).
  { rewrite <- (whole_total _ Wl). unfold Revenue.selected_revenue, wonLeads.
    rewrite leads_selected, Revenue.filter_filter. reflexivity. }
  assert (Ss : Revenue.selected_spend r (Revenue.spends_of c)
               == inject_Z (sum_Z (map spent (spends c r)))).
  { rewrite <- (whole_total_spend _ Ws). unfold Revenue.selected_spend.
    rewrite spends_selected. reflexivity. }
  split; [now rewrite ER|]. split; [now rewrite EA|].
  rewrite EP, Sl, Ss. unfold Zminus. rewrite inject_Z_plus, inject_Z_opp. reflexivity.
Qed.

(** *** The rows that are counted and their sums *)

Lemma counted_rows_permuted (c c' : Revenue.Client) (r : Revenue.DateRange) :
  Permutation (Revenue.leads_of c) (Revenue.leads_of c') ->
  Permutation (Revenue.spends_of c) (Revenue.spends_of c') ->
  Permutation (wonLeads c r) (wonLeads c' r) /\ Permutation (spends c r) (spends c' r).
Proof.
  intros Hl Hs. unfold wonLeads. rewrite !leads_selected, !spends_selected.
  split; repeat apply filter_permutation; assumption.
Qed.

Lemma counted_rows_split (c : Revenue.Client) (s m e : Z) :
  (s - 1 <= m <= e)%Z ->
  Permutation (wonLeads c (Revenue.window s e))
              (wonLeads c (Revenue.window s m) ++ wonLeads c (Revenue.window (m + 1) e)) /\
  Permutation (spends c (Revenue.window s e))
              (spends c (Revenue.window s m) ++ spends c (Revenue.window (m + 1) e)).
Proof.
  intros H. unfold wonLeads. rewrite !leads_selected, !spends_selected.
  rewrite !Revenue.filter_filter. split.
  - apply filter_partition; intros l;
      destruct (window_partition s m e (Revenue.leadDate Date_parse l) H) as [U D].
    + rewrite U. now destruct (status l =? "Vinto").
    + destruct (status l =? "Vinto"); [exact D | reflexivity].
  - apply filter_partition; intros a;
      destruct (window_partition s m e (Some (date a)) H) as [U D]; assumption.
Qed.

(** C8, as the code has it. Which rows are counted does not depend on the
    order of the arrays: permuting the leads or the ad spends of a client
    permutes the Won leads and the ad spends that enter the sums. Over a
    window split in two adjacent sub-windows the rows counted for the window
    are those counted for the two sub-windows together, and no row is
    counted for both. The revenue and the ad spend are the sums of the
    counted rows as JavaScript adds them, from the first row on. When the
    counted amounts are whole numbers whose absolute values add up to less
    than [2^53], no sum is rounded: the revenue, the ad spend and the profit
    are the whole sums, permuting the leads or the ad spends leaves every
    figure unchanged, and over the split window the revenue, the ad spend
    and the profit of the two sub-windows add up to those of the window. *)
Theorem revenue_order_and_windows :
  (forall (c c' : Revenue.Client) (r : Revenue.DateRange),
     Permutation (Revenue.leads_of c) (Revenue.leads_of c') ->
     Permutation (Revenue.spends_of c) (Revenue.spends_of c') ->
     Permutation (wonLeads c r) (wonLeads c' r) /\
     Permutation (spends c r) (spends c' r)) /\
  (forall (c : Revenue.Client) (s m e : Z),
     (s - 1 <= m <= e)%Z ->
     let whole := Revenue.window s e in
     let first := Revenue.window s m in
     let second := Revenue.window (m + 1) e in
     Permutation (wonLeads c whole) (wonLeads c first ++ wonLeads c second) /\
     Permutation (spends c whole) (spends c first ++ spends c second) /\
     (forall l, In l (wonLeads c first) -> ~ In l (wonLeads c second)) /\
     (forall a, In a (spends c first) -> ~ In a (spends c second))) /\
  (forall (c : Revenue.Client) (r : Revenue.DateRange),
     clientRevenue (revenueData c r)
     = fold_left (fun sum l => add sum (number_or_zero (value l))) (wonLeads c r) zero /\
     totalAdSpend (revenueData c r)
     = fold_left (fun sum a => add sum (dec (amount a))) (spends c r) zero) /\
  (forall (c : Revenue.Client) (r : Revenue.DateRange),
     whole_amounts (wonLeads c r) (spends c r) ->
     clientRevenue (revenueData c r) = of_Z (sum_Z (map worth (wonLeads c r))) /\
     totalAdSpend (revenueData c r) = of_Z (sum_Z (map spent (spends c r))) /\
     clientProfit (revenueData c r)
     = of_Z (sum_Z (map worth (wonLeads c r)) - sum_Z (map spent (spends c r)))) /\
  (forall (c c' : Revenue.Client) (r : Revenue.DateRange),
     Permutation (Revenue.leads_of c) (Revenue.leads_of c') ->
     Permutation (Revenue.spends_of c) (Revenue.spends_of c') ->
     Revenue.mws_fixed_fee c = Revenue.mws_fixed_fee c' ->
     Revenue.mws_profit_percentage c = Revenue.mws_profit_percentage c' ->
     whole_amounts (wonLeads c r) (spends c r) ->
     revenueData c r = revenueData c' r) /\
  (forall (c : Revenue.Client) (s m e : Z),
     (s - 1 <= m <= e)%Z ->
     whole_amounts (wonLeads c (Revenue.window s e)) (spends c (Revenue.window s e)) ->
     let whole := revenueData c (Revenue.window s e) in
     let first := revenueData c (Revenue.window s m) in
     let second := revenueData c (Revenue.window (m + 1) e) in
     clientRevenue whole = add (clientRevenue first) (clientRevenue second) /\
     totalAdSpend whole = add (totalAdSpend first) (totalAdSpend second) /\
     clientProfit whole = add (clientProfit first) (clientProfit second)).
Proof.
  split; [|split; [|split; [|split; [|split]]]].
  - exact counted_rows_permuted.
  - intros c s m e H whole first second.
    destruct (counted_rows_split c s m e H) as [Pl Ps].
    split; [exact Pl|]. split; [exact Ps|].
    subst whole first second. unfold wonLeads.
    rewrite !leads_selected, !spends_selected. split.
    + intros l In1 In2. apply filter_In in In1, In2.
      destruct In1 as [In1 _], In2 as [In2 _]. apply filter_In in In1, In2.
      destruct In1 as [_ In1], In2 as [_ In2].
      destruct (window_partition s m e (Revenue.leadDate Date_parse l) H) as [_ D].
      rewrite In1, In2 in D. discriminate D.
    + intros a In1 In2. apply filter_In in In1, In2.
      destruct In1 as [_ In1], In2 as [_ In2].
      destruct (window_partition s m e (Some (date a)) H) as [_ D].
      rewrite In1, In2 in D. discriminate D.
  - intros c r. split; reflexivity.
  - exact whole_figures.
  - intros c c' r Hl Hs Hf Hp W.
    destruct (counted_rows_permuted c c' r Hl Hs) as [Pl Ps].
    pose proof (whole_amounts_permutation _ _ _ _ Pl Ps W) as W'.
    unfold revenueData. cbv zeta.
    rewrite (revenue_of_whole _ _ W), (spend_of_whole _ _ W).
    rewrite (revenue_of_whole _ _ W'), (spend_of_whole _ _ W').
    rewrite (sum_Z_permutation _ _ (Permutation_map worth Pl)).
    rewrite (sum_Z_permutation _ _ (Permutation_map spent Ps)).
    rewrite Hf, Hp. reflexivity.
  - intros c s m e H W whole first second. subst whole first second.
    destruct (counted_rows_split c s m e H) as [Pl Ps].
    pose proof (whole_amounts_permutation _ _ _ _ Pl Ps W) as W'.
    apply whole_amounts_app in W'. destruct W' as [W1 W2].
    destruct (whole_figures _ _ W) as (R & A & P).
    destruct (whole_figures _ _ W1) as (R1 & A1 & P1).
    destruct (whole_figures _ _ W2) as (R2 & A2 & P2).
    destruct (whole_sums _ _ W1) as (Wl1 & Ws1 & Wp1).
    destruct (whole_sums _ _ W2) as (Wl2 & Ws2 & Wp2).
    rewrite R, A, P, R1, A1, P1, R2, A2, P2.
    rewrite !add_of_Z by assumption.
    rewrite (sum_Z_permutation _ _ (Permutation_map worth Pl)).
    rewrite (sum_Z_permutation _ _ (Permutation_map spent Ps)).
    rewrite !map_app, !sum_Z_app.
    repeat split; f_equal; lia.
Qed.

End Calculator.

(** On the example of the specification the code computes a profit of 800
    and a commission of 260. *)
Lemma example_figures :
  clientProfit (revenueData Revenue.Date_parse_examples Revenue.example_client
                            Revenue.march_2024)
  = dec 800 /\
  mwsRevenue (revenueData Revenue.Date_parse_examples Revenue.example_client
                          Revenue.march_2024)
  = dec 260.
Proof. split; vm_compute; reflexivity. Qed.

(** Three Won leads created on 15 March 2024, worth 100.10, 200.20 and
    300.30. *)
Definition lead_of (leadId : string) (worth : Q) : Lead :=
  mkLead leadId "client-1" [("nome", "Rossi")] None "Vinto" (Some worth) 1710498600000.

Definition small_leads : list Lead :=
  [lead_of "lead-1" 100.10; lead_of "lead-2" 200.20; lead_of "lead-3" 300.30].

Definition client_of (ls : list Lead) : Revenue.Client :=
  Revenue.mkClient (Some ls) (Some []) None None.

(** Three Won leads of the same day worth 1000, 250 and 4000. *)
Definition whole_leads : list Lead :=
  [lead_of "lead-1" 1000; lead_of "lead-2" 250; lead_of "lead-3" 4000].

Lemma revenue_order_and_windows_witness :
  Permutation
    (wonLeads Revenue.Date_parse_examples (client_of small_leads) Revenue.march)
    (wonLeads Revenue.Date_parse_examples (client_of (rev small_leads)) Revenue.march) /\
  Permutation
    (wonLeads Revenue.Date_parse_examples Revenue.spring_client Revenue.march_to_april)
    (wonLeads Revenue.Date_parse_examples Revenue.spring_client Revenue.march
     ++ wonLeads Revenue.Date_parse_examples Revenue.spring_client Revenue.april) /\
  clientRevenue (revenueData Revenue.Date_parse_examples (client_of whole_leads)
                             Revenue.march)
  = of_Z 5250 /\
  revenueData Revenue.Date_parse_examples (client_of whole_leads) Revenue.march
  = revenueData Revenue.Date_parse_examples (client_of (rev whole_leads)) Revenue.march /\
  clientProfit (revenueData Revenue.Date_parse_examples Revenue.spring_client
                            Revenue.march_to_april)
  = add (clientProfit (revenueData Revenue.Date_parse_examples Revenue.spring_client
                                   Revenue.march))
        (clientProfit (revenueData Revenue.Date_parse_examples Revenue.spring_client
                                   Revenue.april)).
Proof.
  pose proof (revenue_order_and_windows Revenue.Date_parse_examples)
    as (Order & Windows & _ & Whole & Same & Additive).
  assert (W : whole_amounts
                (wonLeads Revenue.Date_parse_examples (client_of whole_leads)
                          Revenue.march)
                (spends (client_of whole_leads) Revenue.march)).
  { vm_compute. repeat split; repeat constructor. }
  split; [|split; [|split; [|split]]].
  - apply (Order (client_of small_leads) (client_of (rev small_leads))).
    + apply Permutation_rev.
    + apply Permutation_refl.
  - apply (Windows Revenue.spring_client 1709251200000 1711929599999 1714521599999)%Z.
    lia.
  - exact (proj1 (Whole (client_of whole_leads) Revenue.march W)).
  - apply (Same (client_of whole_leads) (client_of (rev whole_leads)) Revenue.march).
    + apply Permutation_rev.
    + apply Permutation_refl.
    + reflexivity.
    + reflexivity.
    + exact W.
  - apply (Additive Revenue.spring_client 1709251200000 1711929599999 1714521599999)%Z.
    + lia.
    + vm_compute. repeat split; repeat constructor.
Defined.

(** C8 as stated fails on the code. The revenue of the three leads is
    600.5999999999999 and, with the same leads in the opposite order, 600.6.
    And March and April split the window March to April, the commissions of
    the two months are 200 and 0, and the commission of the whole window is
    100. *)
Lemma figures_depend_on_order_and_window :
  clientRevenue (revenueData Revenue.Date_parse_examples (client_of small_leads)
                             Revenue.march)
  = dec 600.5999999999999 /\
  clientRevenue (revenueData Revenue.Date_parse_examples (client_of (rev small_leads))
                             Revenue.march)
  = dec 600.6 /\
  eqb (dec 600.5999999999999) (dec 600.6) = false /\
  mwsRevenue (revenueData Revenue.Date_parse_examples Revenue.spring_client Revenue.march)
  = dec 200 /\
  mwsRevenue (revenueData Revenue.Date_parse_examples Revenue.spring_client Revenue.april)
  = zero /\
  mwsRevenue (revenueData Revenue.Date_parse_examples Revenue.spring_client
                          Revenue.march_to_april)
  = dec 100 /\
  eqb (add (dec 200) zero) (dec 100) = false.
Proof. repeat split; vm_compute; reflexivity. Qed.

End Revenue64.

(** ** The payment modal and [handleSavePayment] *)

Module Payment.

Import Double.

Inductive Status := unpaid | partially_paid | paid.

(** What [handleSave] shows instead of saving. *)
Inductive FormError := error_invalid_amount | error_overpayment.

(** The argument of [onSave]. *)
Record PaymentDetails := mkDetails {
  details_amount : double;
  isTotal : bool
}.

(** The fields of the upserted [MwsMonthlyRevenue] payload that the
    reconciliation decides. *)
Record Payload := mkPayload {
  revenue_amount : double;
  paid_amount : double;
  payload_status : Status
}.

(** [Math.max(0, totalDue - existingPaidAmount)] *)
Definition remainingDue (totalDue existingPaidAmount : double) : double :=
  max zero (sub totalDue existingPaidAmount).

(** [PaymentModal.handleSave]. [paymentAmount] is what [parseFloat] reads in
    the amount field, [NaN] when it reads no number. *)
Definition handleSave (totalDue existingPaidAmount : double) (isPaidInFull : bool)
    (paymentAmount : double) : FormError + PaymentDetails :=
  if isNaN paymentAmount || ltb paymentAmount zero then inl error_invalid_amount
  else if negb isPaidInFull && gtb paymentAmount (remainingDue totalDue existingPaidAmount)
  then inl error_overpayment
  else
    let totalPaidAmount :=
      add (num_or existingPaidAmount zero)
          (if isPaidInFull then remainingDue totalDue existingPaidAmount
           else paymentAmount) in
    inr (mkDetails totalPaidAmount
           (isPaidInFull || geb totalPaidAmount totalDue)).

(** The payload [handleSavePayment] upserts for the modal's [totalDue]. *)
Definition handleSavePayment (totalDue : double) (details : PaymentDetails) : Payload :=
  mkPayload totalDue (details_amount details)
    (if isTotal details then paid
     else if gtb (details_amount details) zero then partially_paid else unpaid).

(** Confirming the modal: [handleSave], then [handleSavePayment] through
    [onSave]. *)
Definition confirm (totalDue existingPaidAmount : double) (isPaidInFull : bool)
    (paymentAmount : double) : FormError + Payload :=
  match handleSave totalDue existingPaidAmount isPaidInFull paymentAmount with
  | inl err => inl err
  | inr details => inr (handleSavePayment totalDue details)
  end.

(** *** The reconciliation as the specification words it *)

(** [Math.min(a, b)] on two numbers neither of which is [NaN]. *)
Definition min (a b : double) : double := if ltb b a then b else a.

(** The new paid amount: the existing one plus the remaining due when marked
    paid in full, otherwise plus the entered amount clamped to the remaining
    due. *)
Definition clamped_paid_amount (totalDue existing : double) (inFull : bool)
    (entered : double) : double :=
  add existing (if inFull then remainingDue totalDue existing
                else min entered (remainingDue totalDue existing)).

(** [paid] iff the new paid amount reaches the total due, else
    [partially_paid] iff it is positive, else [unpaid]. *)
Definition status_of (totalDue newPaid : double) : Status :=
  if geb newPaid totalDue then paid
  else if gtb newPaid zero then partially_paid else unpaid.

(** *** The form of the modal *)

(** The state of the form: the paid-in-full mark, and the amount field as
    [parseFloat] reads it ([NaN] for the empty field). *)
Record Form := mkForm {
  isPaidInFull : bool;
  amount : double
}.

(** The form as the modal's effect sets it when the modal opens. *)
Definition opened (totalDue existingPaidAmount : double) : Form :=
  let newRemainingDue := remainingDue totalDue existingPaidAmount in
  mkForm (eqb newRemainingDue zero)
         (if gtb newRemainingDue zero then toFixed2 newRemainingDue else NaN).

(** Confirming the modal with the form in a given state. *)
Definition confirm_form (totalDue existingPaidAmount : double) (f : Form)
  : FormError + Payload :=
  confirm totalDue existingPaidAmount (isPaidInFull f) (amount f).

(** *** Reconciliation *)

Lemma remainingDue_cases (totalDue existing : double) :
  remainingDue totalDue existing = zero \/
  gtb (remainingDue totalDue existing) zero = true \/
  remainingDue totalDue existing = NaN.
Proof. apply max_zero. Qed.

(** An amount above the remaining due is a positive number. *)
Lemma above_remainingDue (totalDue existing entered : double) :
  gtb entered (remainingDue totalDue existing) = true ->
  isNaN entered = false /\ ltb entered zero = false.
Proof.
  intros H. destruct (remainingDue_cases totalDue existing) as [Z|[P|N]].
  - apply nonneg_number, positive_nonneg.
    apply (gtb_positive _ _ H). now right.
  - apply nonneg_number, positive_nonneg.
    apply (gtb_positive _ _ H). now left.
  - rewrite N in H. unfold gtb, SFltb in H. cbn in H. discriminate H.
Qed.

(** C2, as the code has it. An entered amount that reads as a number that is
    not negative is saved when the modal is marked paid in full or the
    amount does not exceed the remaining due: the new paid amount is the
    existing one (zero when that is [NaN]) plus the remaining due (paid in
    full) or plus the entered amount, each sum and difference rounded as
    JavaScript rounds it. The status is [paid] when the modal is marked
    paid in full, and otherwise [paid] iff the new paid amount reaches the
    total due, else [partially_paid] iff it is positive, else [unpaid]. An
    entered amount above the remaining due is refused with the overpayment
    error, not clamped. With [totalDue = 260] and nothing paid, entering
    100 gives 100 and [partially_paid]; paid in full gives 260 and
    [paid]. *)
Theorem payment_reconciliation :
  (forall (totalDue existing : double) (inFull : bool) (entered : double),
     isNaN entered = false ->
     ltb entered zero = false ->
     (inFull = false -> gtb entered (remainingDue totalDue existing) = false) ->
     exists p : Payload,
       confirm totalDue existing inFull entered = inr p /\
       revenue_amount p = totalDue /\
       paid_amount p
       = add (num_or existing zero)
             (if inFull then remainingDue totalDue existing else entered) /\
       payload_status p
       = if inFull then paid else status_of totalDue (paid_amount p)) /\
  (forall (totalDue existing entered : double),
     gtb entered (remainingDue totalDue existing) = true ->
     confirm totalDue existing false entered = inl error_overpayment) /\
  confirm (dec 260) zero false (dec 100)
  = inr (mkPayload (dec 260) (dec 100) partially_paid) /\
  confirm (dec 260) zero true (dec 260) = inr (mkPayload (dec 260) (dec 260) paid).
Proof.
  split; [|split; [|split; vm_compute; reflexivity]].
  - intros totalDue existing inFull entered Number NotNegative Within.
    unfold confirm, handleSave. rewrite Number, NotNegative. cbn [orb].
    assert (G : negb inFull && gtb entered (remainingDue totalDue existing) = false).
    { destruct inFull; [reflexivity|]. cbn [negb andb]. now apply Within. }
    rewrite G. eexists. split; [reflexivity|].
    unfold handleSavePayment. cbn [revenue_amount paid_amount payload_status
                                   details_amount isTotal].
    split; [reflexivity|]. split; [reflexivity|].
    destruct inFull; [reflexivity|]. cbn [orb]. unfold status_of.
    now destruct (geb _ totalDue).
  - intros totalDue existing entered Above.
    destruct (above_remainingDue _ _ _ Above) as [Number NotNegative].
    unfold confirm, handleSave. rewrite Number, NotNegative, Above. reflexivity.
Qed.

Lemma payment_reconciliation_witness :
  exists p : Payload,
    confirm (dec 260) zero false (dec 100) = inr p /\
    revenue_amount p = dec 260 /\
    paid_amount p = add (num_or zero zero) (dec 100) /\
    payload_status p = status_of (dec 260) (paid_amount p).
Proof.
  apply (proj1 payment_reconciliation (dec 260) zero false (dec 100)).
  - reflexivity.
  - reflexivity.
  - intros _. vm_compute. reflexivity.
Defined.

(** C2 as stated fails on the code: with 260 due and nothing paid, an entered
    amount of 300 clamps to a payment of 260, but the modal refuses it and
    saves nothing. *)
Lemma overpayment_is_not_clamped :
  clamped_paid_amount (dec 260) zero false (dec 300) = dec 260 /\
  confirm (dec 260) zero false (dec 300) = inl error_overpayment /\
  ~ (exists p : Payload,
       confirm (dec 260) zero false (dec 300) = inr p /\
       paid_amount p = clamped_paid_amount (dec 260) zero false (dec 300)).
Proof.
  split; [vm_compute; reflexivity|]. split; [vm_compute; reflexivity|].
  intros [p [H _]]. vm_compute in H. discriminate H.
Qed.

(** The sums are those of JavaScript numbers. With 400.07 due and 130.03
    paid, a payment in full saves 400.06999999999994, which is below the
    total due, with the status [paid]; and of the two amounts exactly at the
    remaining due, 0.2 on 0.3 due with 0.1 paid is refused as an overpayment
    while 0.5 on 0.6 due with 0.1 paid is saved. *)
Lemma sums_are_rounded :
  confirm (dec 400.07) (dec 130.03) true (dec 270.04)
  = inr (mkPayload (dec 400.07) (dec 400.06999999999994) paid) /\
  ltb (dec 400.06999999999994) (dec 400.07) = true /\
  confirm (dec 0.3) (dec 0.1) false (dec 0.2) = inl error_overpayment /\
  confirm (dec 0.6) (dec 0.1) false (dec 0.5)
  = inr (mkPayload (dec 0.6) (dec 0.6) paid).
Proof. repeat split; vm_compute; reflexivity. Qed.

(** The amount field is read before the paid-in-full mark: a field that does
    not parse, or holds a negative number, is refused with the invalid-amount
    error whether or not the payment is marked paid in full, although a
    payment in full does not use the amount. *)
Lemma unreadable_amount_is_refused :
  forall (totalDue existing : double) (inFull : bool),
    confirm totalDue existing inFull NaN = inl error_invalid_amount /\
    (forall entered : double,
       ltb entered zero = true ->
       confirm totalDue existing inFull entered = inl error_invalid_amount).
Proof.
  intros totalDue existing inFull. split; [reflexivity|].
  intros entered H. unfold confirm, handleSave.
  rewrite H, orb_true_r. reflexivity.
Qed.

Lemma unreadable_amount_is_refused_witness :
  confirm (dec 260) zero true (dec (-5)) = inl error_invalid_amount.
Proof.
  apply (proj2 (unreadable_amount_is_refused (dec 260) zero true)). reflexivity.
Defined.

(** *** The modal as it opens *)

(** The modal confirmed as it opens, with no edit. When the remaining due
    is not positive the amount field is empty and the confirmation is
    refused as an invalid amount, also when nothing remains due and the
    paid-in-full mark is set. When something remains due the mark is not
    set and the field holds the remaining due written with two decimals and
    read back: when that number is above the remaining due the confirmation
    is refused as an overpayment, and otherwise it is saved on top of what
    was paid, with the status [paid] iff the new paid amount reaches the
    total due. *)
Theorem modal_confirmed_as_opened :
  forall totalDue existing : double,
    let due := remainingDue totalDue existing in
    let run := confirm_form totalDue existing (opened totalDue existing) in
    (gtb due zero = false -> run = inl error_invalid_amount) /\
    (due = zero -> isPaidInFull (opened totalDue existing) = true) /\
    (gtb due zero = true ->
     isPaidInFull (opened totalDue existing) = false /\
     if gtb (toFixed2 due) due then run = inl error_overpayment
     else exists p : Payload,
         run = inr p /\
         paid_amount p = add (num_or existing zero) (toFixed2 due) /\
         payload_status p = status_of totalDue (paid_amount p)).
Proof.
  intros totalDue existing due run.
  unfold run, confirm_form, opened. fold due. cbn [isPaidInFull amount].
  split; [|split].
  - intros ->. reflexivity.
  - intros ->. reflexivity.
  - intros P. destruct (positive_number due P) as (_ & _ & NotZero & _).
    split; [exact NotZero|]. rewrite P, NotZero.
    destruct (nonneg_number _ (toFixed2_positive due P)) as [Number NotNegative].
    unfold confirm, handleSave. fold due. rewrite Number, NotNegative.
    cbn [orb negb andb].
    destruct (gtb (toFixed2 due) due); [reflexivity|].
    eexists. split; [reflexivity|].
    unfold handleSavePayment. cbn [paid_amount payload_status details_amount isTotal].
    split; [reflexivity|]. cbn [orb]. unfold status_of.
    now destruct (geb _ totalDue).
Qed.

(** Nothing remains due of 260. Of 400.00 with 130.08 paid the field holds
    269.92, which is above the remaining due, 269.91999999999996; of 400.04
    with 130.02 paid the payment is saved as partial; of 260 with 100 paid
    it is saved as paid. *)
Lemma modal_confirmed_as_opened_witness :
  confirm_form (dec 260) (dec 260) (opened (dec 260) (dec 260))
  = inl error_invalid_amount /\
  confirm_form (dec 400) (dec 130.08) (opened (dec 400) (dec 130.08))
  = inl error_overpayment /\
  confirm_form (dec 400.04) (dec 130.02) (opened (dec 400.04) (dec 130.02))
  = inr (mkPayload (dec 400.04) (dec 400.03999999999996) partially_paid) /\
  confirm_form (dec 260) (dec 100) (opened (dec 260) (dec 100))
  = inr (mkPayload (dec 260) (dec 260) paid).
Proof.
  split; [|split; [|split]].
  - apply (proj1 (modal_confirmed_as_opened (dec 260) (dec 260))). reflexivity.
  - pose proof (proj2 (proj2 (modal_confirmed_as_opened (dec 400) (dec 130.08)))
                      eq_refl) as [_ H].
    exact H.
  - vm_compute. reflexivity.
  - vm_compute. reflexivity.
Defined.

End Payment.

(** ** The data-access facade ([ApiService]) *)

Module Api.

Import Js.

(** *** The [services] column and the commission pseudo-service *)

Record Field := mkField {
  field_id : option string;
  field_name : string
}.

(** An entry of a services array. The commission settings travel in it as
    one more entry, the one whose id is ['mws_settings']. *)
Record Service := mkService {
  service_id : option string;
  service_name : option string;
  fields : option (list Field);
  mws_fixed_fee : option Q;
  mws_profit_percentage : option Q
}.

(** An element of the array as the backend holds it: an object, or [None]
    for [null] and every other falsy element. *)
Definition Entry := option Service.

(** A JSON value, as far as the facade looks into it: an array of entries or
    anything else. *)
Inductive Json :=
| JArray (items : list Entry)
| JOther.

(** What the [services] column may hold: nothing ([null], [undefined]), a
    string (kept with what [JSON.parse] makes of it, [None] when it throws) or
    a JSON value. *)
Inductive Column :=
| Absent
| Text (text : string) (JSON_parse : option Json)
| Value (v : Json).

(** A row of the [clients] table. *)
Record ClientRow := mkClientRow {
  id : string;
  user_id : string;
  name : string;
  services : Column;
  quote_webhook_url : option string
}.

(** The argument and result type [T] of [unpackMwsSettings]: client columns
    with the two optional commission fields. *)
Record ClientData := mkClientData {
  columns : ClientRow;
  client_fixed_fee : option Q;
  client_profit_percentage : option Q
}.

(** A row as it comes from the table, no commission field set. *)
Definition of_row (r : ClientRow) : ClientData := mkClientData r None None.

(** The [Client] the facade hands to the pages. *)
Record Client := mkClient {
  settings : ClientData;
  leads : list Lead;
  adSpends : list AdSpend
}.

Definition sentinel : string := "mws_settings".

(** [s => s && s.id === 'mws_settings'] *)
Definition is_settings (s : Entry) : bool :=
  match s with
  | Some s =>
    match service_id s with Some i => String.eqb i sentinel | None => false end
  | None => false
  end.

(** [s => s && s.id !== 'mws_settings'] *)
Definition is_user_service (s : Entry) : bool :=
  match s with
  | Some s =>
    match service_id s with Some i => negb (String.eqb i sentinel) | None => true end
  | None => false
  end.

Definition set_services (c : Column) (r : ClientRow) : ClientRow :=
  mkClientRow (id r) (user_id r) (name r) c (quote_webhook_url r).

(** [Array.isArray(v) ? v : []] *)
Definition as_array (c : Column) : list Entry :=
  match c with
  | Value (JArray items) => items
  | _ => []
  end.

(** [JSON.parse] on a string of the column: what the column carries for it,
    and a [SyntaxError] ([None]) on the empty string, which is no JSON text. *)
Definition JSON_parse_text (text : string) (parsed : option Json) : option Json :=
  if truthy text then parsed else None.

(** [ApiService.unpackMwsSettings] on a row. Its first branch hands a missing
    row ([null], [undefined]) back as it is; the callers modelled here only
    pass rows, so [clientData] is a row. *)
Definition unpackMwsSettings (clientData : ClientData) : ClientData :=
  let rawServices := services (columns clientData) in
  let rawServices :=
    match rawServices with
    | Text text parsed =>
      match JSON_parse_text text parsed with
      | Some parsed => Value parsed
      | None => Value (JArray [])
      end
    | other => other
    end in
  let servicesArray := as_array rawServices in
  let mwsSettings := find is_settings servicesArray in
  let clientWithSettings :=
    match mwsSettings with
    | Some (Some m) =>
      mkClientData (columns clientData) (mws_fixed_fee m) (mws_profit_percentage m)
    | _ => clientData
    end in
  mkClientData
    (set_services (Value (JArray (filter is_user_service servicesArray)))
                  (columns clientWithSettings))
    (client_fixed_fee clientWithSettings)
    (client_profit_percentage clientWithSettings).

(** The services list a page sees on a client. *)
Definition visible_services (c : ClientData) : list Entry :=
  as_array (services (columns c)).

(** *** Other rows *)

Record Profile := mkProfile {
  profile_id : string;
  role : string
}.

Record Notification := mkNotification {
  notification_id : string;
  recipient : string;
  title : option string;
  message : string;
  read : bool;
  about_lead : option string;
  about_client : option string;
  sent_at : Z
}.

(** The [items] of a quote: a list, or an object keyed by position. *)
Inductive Items :=
| ItemsArray (items : list string)
| ItemsObject (entries : list (string * string))
| NoItems.

Record Quote := mkQuote {
  quote_id : string;
  quote_lead : string;
  quote_client : string;
  quote_status : string;
  quote_items : Items
}.

(** *** The backend *)

Record Tables := mkTables {
  clients : list ClientRow;
  leads_table : list Lead;
  ad_spends : list AdSpend;
  profiles : list Profile;
  notifications : list Notification;
  quotes : list Quote
}.

(** What the backend does to one request: it serves it, it reports an error
    in [{ data, error }], or the promise itself rejects. *)
Inductive Fault :=
| Healthy
| Reports (message : string)
| Rejects (reason : string).

(** What the webhook endpoint does to one POST. *)
Inductive HttpOutcome :=
| Response (status : Z) (body : string)
| NetworkError (reason : string).

(** The body of the webhook POST. *)
Record WebhookPayload := mkWebhookPayload {
  event : string;
  payload_quote : Quote;
  payload_items : Items;
  lead_data : list (string * string)
}.

(** The requests the facade issues, as the journal records them. *)
Inductive Request :=
| SelectClients
| SelectClientsOfUser (userId : string)
| SelectServices (clientId : string)
| UpdateClient (clientId : string)
| SelectContact (clientId : string)
| SelectWebhookUrl (clientId : string)
| SelectLeads (clientId : string)
| SelectLead (leadId : string)
| InsertLead
| SelectAdSpends (clientId : string)
| SelectAdmins
| InsertNotifications (rows : nat)
| SelectSent
| SelectBatch
| DeleteBatch
| SelectQuote (quoteId : string)
| UpdateQuoteStatus (quoteId : string) (newStatus : string)
| Post (url : string) (payload : WebhookPayload).

(** The world a call runs in: the tables, the faults and the webhook
    outcomes still to come (each request consumes the next one; none left
    means a healthy backend and a [200]), the backend's clock, the source of
    fresh identifiers, and what has been issued and logged so far. *)
Record World := mkWorld {
  tables : Tables;
  faults : list Fault;
  endpoint : list HttpOutcome;
  clock : Z;
  fresh : nat -> string;
  drawn : nat;
  journal : list Request;
  console : list string
}.

Definition set_tables (t : Tables) (w : World) : World :=
  mkWorld t (faults w) (endpoint w) (clock w) (fresh w) (drawn w) (journal w) (console w).

Definition set_faults (f : list Fault) (w : World) : World :=
  mkWorld (tables w) f (endpoint w) (clock w) (fresh w) (drawn w) (journal w) (console w).

Definition set_endpoint (e : list HttpOutcome) (w : World) : World :=
  mkWorld (tables w) (faults w) e (clock w) (fresh w) (drawn w) (journal w) (console w).

Definition set_drawn (n : nat) (w : World) : World :=
  mkWorld (tables w) (faults w) (endpoint w) (clock w) (fresh w) n (journal w) (console w).

Definition record (r : Request) (w : World) : World :=
  mkWorld (tables w) (faults w) (endpoint w) (clock w) (fresh w) (drawn w)
          (journal w ++ [r]) (console w).

Definition print (line : string) (w : World) : World :=
  mkWorld (tables w) (faults w) (endpoint w) (clock w) (fresh w) (drawn w)
          (journal w) (console w ++ [line]).

(** *** Asynchronous code: state and exceptions *)

Inductive Outcome (A : Type) :=
| Returned (a : A)
| Thrown (message : string).

Arguments Returned {A} a.
Arguments Thrown {A} message.

Definition M (A : Type) : Type := World -> Outcome A * World.

Definition ret {A : Type} (a : A) : M A := fun w => (Returned a, w).

Definition throw {A : Type} (message : string) : M A := fun w => (Thrown message, w).

Definition bind {A B : Type} (m : M A) (k : A -> M B) : M B :=
  fun w =>
    match m w with
    | (Returned a, w') => k a w'
    | (Thrown e, w') => (Thrown e, w')
    end.

(** [try { body } catch (e) { handler(e) }] *)
Definition try_catch {A : Type} (body : M A) (handler : string -> M A) : M A :=
  fun w =>
    match body w with
    | (Returned a, w') => (Returned a, w')
    | (Thrown e, w') => handler e w'
    end.

Notation "x <- m ;; k" := (bind m (fun x => k))
  (at level 61, m at next level, right associativity).
Notation "m ;;; k" := (bind m (fun _ => k))
  (at level 61, right associativity).

(** [console.error], [console.warn] *)
Definition log (line : string) : M unit := fun w => (Returned tt, print line w).

(** [Promise.all(xs.map(f))], the requests taken in the order of the array. *)
Fixpoint for_each {A B : Type} (f : A -> M B) (xs : list A) : M (list B) :=
  match xs with
  | [] => ret []
  | x :: rest =>
    y <- f x ;;
    ys <- for_each f rest ;;
    ret (y :: ys)
  end.

(** The next fresh identifier (a row id the backend generates, or the
    [Date.now()]/[Math.random()] part of an id the facade generates). *)
Definition draw : M string :=
  fun w => (Returned (fresh w (drawn w)), set_drawn (S (drawn w)) w).

(** The [{ data, error }] a request resolves to. *)
Inductive Resp (A : Type) :=
| Data (data : A)
| Error (message : string).

Arguments Data {A} data.
Arguments Error {A} message.

(** One request to the backend: journalled, then served on the tables unless
    the backend is at fault. *)
Definition call {A : Type} (r : Request) (serve : Tables -> Resp A * Tables)
  : M (Resp A) :=
  fun w =>
    let w := record r w in
    let served (w : World) :=
      let (resp, t) := serve (tables w) in (Returned resp, set_tables t w) in
    match faults w with
    | [] => served w
    | Healthy :: rest => served (set_faults rest w)
    | Reports message :: rest => (Returned (Error message), set_faults rest w)
    | Rejects reason :: rest => (Thrown reason, set_faults rest w)
    end.

(** [.single()]: the one row, an error when there is none or more than one. *)
Definition single {A : Type} (rows : list A) : Resp A :=
  match rows with
  | [row] => Data row
  | _ => Error "JSON object requested, multiple (or no) rows returned"
  end.

(** [data || []] *)
Definition rows_or_none {A : Type} (r : Resp (list A)) : list A :=
  match r with
  | Data rows => rows
  | Error _ => []
  end.

(** *** Queries on the tables *)

Definition set_clients (rows : list ClientRow) (t : Tables) : Tables :=
  mkTables rows (leads_table t) (ad_spends t) (profiles t) (notifications t) (quotes t).

Definition set_leads (rows : list Lead) (t : Tables) : Tables :=
  mkTables (clients t) rows (ad_spends t) (profiles t) (notifications t) (quotes t).

Definition set_notifications (rows : list Notification) (t : Tables) : Tables :=
  mkTables (clients t) (leads_table t) (ad_spends t) (profiles t) rows (quotes t).

Definition set_quotes (rows : list Quote) (t : Tables) : Tables :=
  mkTables (clients t) (leads_table t) (ad_spends t) (profiles t) (notifications t) rows.

(** A read: it answers from the tables and leaves them as they are. *)
Definition reading {A : Type} (answer : Tables -> Resp A) (t : Tables)
  : Resp A * Tables := (answer t, t).

(** [.order('created_at', { ascending: false })], ties in table order. *)
Fixpoint newest_first_insert {A : Type} (at_ : A -> Z) (x : A) (sorted : list A)
  : list A :=
  match sorted with
  | [] => [x]
  | y :: rest =>
    if (at_ y <=? at_ x)%Z then x :: y :: rest
    else y :: newest_first_insert at_ x rest
  end.

Definition newest_first {A : Type} (at_ : A -> Z) (rows : list A) : list A :=
  fold_right (newest_first_insert at_) [] rows.

(** [from('leads').select(...).eq('client_id', id).order('created_at', ...)] *)
Definition select_leads (clientId : string) : M (Resp (list Lead)) :=
  call (SelectLeads clientId)
    (reading (fun t =>
       Data (newest_first created_at
               (filter (fun l => String.eqb (lead_client_id l) clientId) (leads_table t))))).

(** [from('ad_spends').select('*').eq('client_id', id)] *)
Definition select_ad_spends (clientId : string) : M (Resp (list AdSpend)) :=
  call (SelectAdSpends clientId)
    (reading (fun t =>
       Data (filter (fun a => String.eqb (spend_client_id a) clientId) (ad_spends t)))).

Definition has_id (clientId : string) (r : ClientRow) : bool := String.eqb (id r) clientId.

(** *** Reading clients *)

(** The leads of a client as [getClients] and [getClientByUserId] ask for
    them, its ad spends, and the client made of a row and both. *)
Definition own_leads (t : Tables) (row : ClientRow) : list Lead :=
  newest_first created_at
    (filter (fun l => String.eqb (lead_client_id l) (id row)) (leads_table t)).

Definition own_spends (t : Tables) (row : ClientRow) : list AdSpend :=
  filter (fun a => String.eqb (spend_client_id a) (id row)) (ad_spends t).

Definition gathered (t : Tables) (row : ClientRow) : Client :=
  mkClient (unpackMwsSettings (of_row row)) (own_leads t row) (own_spends t row).

Definition getClients : M (list Client) :=
  r <- call SelectClients (reading (fun t => Data (clients t))) ;;
  match r with
  | Error message => throw message
  | Data clientsData =>
    for_each
      (fun client =>
         leads <- select_leads (id client) ;;
         adSpends <- select_ad_spends (id client) ;;
         let unpackedClient := unpackMwsSettings (of_row client) in
         ret (mkClient unpackedClient (rows_or_none leads) (rows_or_none adSpends)))
      clientsData
  end.

Definition getClientByUserId (userId : string) : M (option Client) :=
  r <- call (SelectClientsOfUser userId)
         (reading (fun t =>
            Data (filter (fun c => String.eqb (user_id c) userId) (clients t)))) ;;
  match r with
  | Error message =>
    log ("Error fetching client by user ID " ++ message) ;;;
    ret None
  | Data [] => ret None
  | Data (client :: others) =>
    match others with
    | [] => ret tt
    | _ :: _ =>
      log ("Warning: Found multiple client profiles for user ID " ++ userId
           ++ ". Using the first one found.")
    end ;;;
    leads <- select_leads (id client) ;;
    spends <- select_ad_spends (id client) ;;
    let unpackedClient := unpackMwsSettings (of_row client) in
    ret (Some (mkClient unpackedClient (rows_or_none leads) (rows_or_none spends)))
  end.

(** *** Updating a client *)

(** The [updates] argument of [updateClient]: each field given or not. *)
Record Updates := mkUpdates {
  upd_name : option string;
  upd_services : option (list Service);
  upd_mws_fixed_fee : option Q;
  upd_mws_profit_percentage : option Q;
  upd_quote_webhook_url : option string
}.

(** [updatesForSupabase]: the columns sent to the backend. *)
Record Patch := mkPatch {
  patch_name : option string;
  patch_services : option (list Service);
  patch_quote_webhook_url : option string
}.

Definition given {A : Type} (x : option A) : bool :=
  match x with Some _ => true | None => false end.

(** The entries that pass [s => s && s.id !== 'mws_settings'], as objects. *)
Fixpoint userServices (entries : list Entry) : list Service :=
  match entries with
  | [] => []
  | e :: rest =>
    match e with
    | Some s => if is_user_service e then s :: userServices rest else userServices rest
    | None => userServices rest
    end
  end.

(** [{ id: 'mws_settings', name: '_mws_settings' }] *)
Definition default_settings : Service :=
  mkService (Some sentinel) (Some "_mws_settings") None None None.

(** [currentClientData.services || []], parsed when it is a string, and
    taken as an array ([[]] when it is not one). *)
Definition current_array (c : Column) : list Entry :=
  match c with
  | Absent => []
  | Text text parsed =>
    if truthy text
    then match JSON_parse_text text parsed with
         | Some v => as_array (Value v)
         | None => []
         end
    else []
  | Value v => as_array (Value v)
  end.

Definition with_fixed_fee (fee : option Q) (s : Service) : Service :=
  match fee with
  | Some _ =>
    mkService (service_id s) (service_name s) (fields s) fee (mws_profit_percentage s)
  | None => s
  end.

Definition with_profit_percentage (pct : option Q) (s : Service) : Service :=
  match pct with
  | Some _ =>
    mkService (service_id s) (service_name s) (fields s) (mws_fixed_fee s) pct
  | None => s
  end.

(** [i && !i.startsWith('new_')] *)
Definition stable_id (i : option string) : bool :=
  match i with
  | Some i => truthy i && negb (String.prefix "new_" i)
  | None => false
  end.

Definition assign_field_id (f : Field) : M Field :=
  if stable_id (field_id f) then ret f
  else
    token <- draw ;;
    ret (mkField (Some ("field_" ++ token)) (field_name f)).

Definition assign_ids (s : Service) : M Service :=
  i <- (if stable_id (service_id s) then ret (service_id s)
        else
          match service_id s with
          | Some i => if String.eqb i sentinel then ret (Some sentinel)
                      else token <- draw ;; ret (Some ("service_" ++ token))
          | None => token <- draw ;; ret (Some ("service_" ++ token))
          end) ;;
  fs <- match fields s with
        | Some fs => fs' <- for_each assign_field_id fs ;; ret (Some fs')
        | None => ret None
        end ;;
  ret (mkService i (service_name s) fs (mws_fixed_fee s) (mws_profit_percentage s)).

Definition apply_patch (p : Patch) (r : ClientRow) : ClientRow :=
  mkClientRow (id r) (user_id r)
    (match patch_name p with Some n => n | None => name r end)
    (match patch_services p with
     | Some ss => Value (JArray (map Some ss))
     | None => services r
     end)
    (match patch_quote_webhook_url p with
     | Some u => Some u
     | None => quote_webhook_url r
     end).

(** [from('clients').update(patch).eq('id', clientId).select().single()]:
    the one row with that id is rewritten and returned; with no such row, or
    several, the request reports an error and changes nothing. *)
Definition update_client (clientId : string) (p : Patch) (t : Tables)
  : Resp ClientRow * Tables :=
  match filter (has_id clientId) (clients t) with
  | [row] =>
    (Data (apply_patch p row),
     set_clients
       (map (fun r => if has_id clientId r then apply_patch p r else r) (clients t)) t)
  | _ => (Error "JSON object requested, multiple (or no) rows returned", t)
  end.

Definition updateClient (clientId : string) (updates : Updates) : M Client :=
  let mwsSettingsProvided :=
    given (upd_mws_fixed_fee updates) || given (upd_mws_profit_percentage updates) in
  packed <-
    (if mwsSettingsProvided || given (upd_services updates) then
       r <- call (SelectServices clientId)
              (reading (fun t =>
                 single (map services (filter (has_id clientId) (clients t))))) ;;
       match r with
       | Error message => throw message
       | Data column =>
         let currentServices := current_array column in
         let userServices0 := userServices currentServices in
         let mwsSettings :=
           match find is_settings currentServices with
           | Some (Some m) => m
           | _ => default_settings
           end in
         let userServices1 :=
           match upd_services updates with
           | Some ss => ss
           | None => userServices0
           end in
         let mwsSettings :=
           if mwsSettingsProvided
           then with_profit_percentage (upd_mws_profit_percentage updates)
                  (with_fixed_fee (upd_mws_fixed_fee updates) mwsSettings)
           else mwsSettings in
         ret (Some (userServices1 ++ [mwsSettings])%list)
       end
     else ret (upd_services updates)) ;;
  withIds <-
    match packed with
    | Some ss => ss' <- for_each assign_ids ss ;; ret (Some ss')
    | None => ret None
    end ;;
  let updatesForSupabase :=
    mkPatch (upd_name updates) withIds (upd_quote_webhook_url updates) in
  r <- call (UpdateClient clientId) (update_client clientId updatesForSupabase) ;;
  match r with
  | Error message => throw message
  | Data data =>
    let unpackedClient := unpackMwsSettings (of_row data) in
    ret (mkClient unpackedClient [] [])
  end.

(** *** Creating a lead *)

Record AddLeadOptions := mkAddLeadOptions {
  clientId : string;
  leadData : list (string * string);
  lead_service : option string;
  lead_status : option string;
  lead_value : option Q;
  (** [createdAt]: not given (or empty), or given, as the [Date] that
      [new Date(createdAt)] makes of it. *)
  createdAt : option Date
}.

(** The backend's clock, for the [created_at] it fills in. *)
Definition now : M Z := fun w => (Returned (clock w), w).

(** [from('leads').insert(row).select().single()]: the backend gives the row
    its id, and its creation time unless the row brings one. *)
Definition insert_lead (client : string) (answers : list (string * string))
    (svc : option string) (st : string) (v : option Q) (created : option Z)
  : M (Resp Lead) :=
  rowId <- draw ;;
  t <- now ;;
  let row :=
    mkLead rowId client answers svc st v
           (match created with Some c => c | None => t end) in
  call InsertLead (fun tb => (Data row, set_leads (leads_table tb ++ [row]) tb)).

(** A notification row before the backend has given it its id and its
    creation time. *)
Record NewNotification := mkNewNotification {
  new_recipient : string;
  new_title : string;
  new_message : string;
  new_lead : option string;
  new_client : option string
}.

Definition stored_notification (t : Z) (rowId : string) (n : NewNotification)
  : Notification :=
  mkNotification rowId (new_recipient n) (Some (new_title n)) (new_message n)
                 false (new_lead n) (new_client n) t.

Fixpoint with_ids (t : Z) (ids : list string) (rows : list NewNotification)
  : list Notification :=
  match ids, rows with
  | i :: ids', n :: rows' => stored_notification t i n :: with_ids t ids' rows'
  | _, _ => []
  end.

(** [from('notifications').insert(rows)] *)
Definition insert_notifications (rows : list NewNotification) : M (Resp unit) :=
  ids <- for_each (fun _ => draw) rows ;;
  t <- now ;;
  call (InsertNotifications (List.length rows))
    (fun tb =>
       (Data tt, set_notifications (notifications tb ++ with_ids t ids rows) tb)).

(** [leadData.nome || 'N/D'] *)
Definition nome (answers : list (string * string)) : string :=
  match prop "nome" answers with
  | Some n => if truthy n then n else "N/D"
  | None => "N/D"
  end.

(** The first part of [addLead]: the row is built and inserted, and an error
    the backend reports is thrown. *)
Definition insertNewLead (options : AddLeadOptions) : M Lead :=
  created <-
    match createdAt options with
    | Some (Some t) => ret (Some t)
    | Some None => throw "Invalid time value"
    | None => ret None
    end ;;
  r <- insert_lead (clientId options) (leadData options) (lead_service options)
         (match lead_status options with
          | Some st => if truthy st then st else "Nuovo"
          | None => "Nuovo"
          end)
         (lead_value options) created ;;
  match r with
  | Error message => throw message
  | Data newLead => ret newLead
  end.

(** [notificationsToInsert]: one notification for the user of the client,
    one for each admin. *)
Definition notificationsToInsert (options : AddLeadOptions) (newLead : Lead)
    (clientUser clientName : string) (adminUsers : list string)
  : list NewNotification :=
  mkNewNotification clientUser "Nuovo Lead Ricevuto!"
    ("Hai ricevuto un nuovo lead: '" ++ nome (leadData options)
     ++ "'. Clicca per vedere i dettagli.")
    (Some (lead_id newLead)) (Some (clientId options))
  :: map (fun admin =>
            mkNewNotification admin ("Nuovo Lead per " ++ clientName)
              ("È stato registrato un nuovo lead '" ++ nome (leadData options)
               ++ "' per il cliente '" ++ clientName ++ "'.")
              (Some (lead_id newLead)) (Some (clientId options)))
         adminUsers.

(** The body of the [try] block of [addLead]. *)
Definition createNotifications (options : AddLeadOptions) (newLead : Lead) : M unit :=
  clientData <-
    call (SelectContact (clientId options))
      (reading (fun t =>
         single (map (fun c => (user_id c, name c))
                     (filter (has_id (clientId options)) (clients t))))) ;;
  adminUsers <-
    call SelectAdmins
      (reading (fun t =>
         Data (map profile_id
                   (filter (fun p => String.eqb (role p) "admin") (profiles t))))) ;;
  match clientData, adminUsers with
  | Data (clientUser, clientName), Data (admin :: admins) =>
    insert_notifications
      (notificationsToInsert options newLead clientUser clientName (admin :: admins)) ;;;
    ret tt
  | _, _ => ret tt
  end.

Definition addLead (options : AddLeadOptions) : M Lead :=
  newLead <- insertNewLead options ;;
  try_catch (createNotifications options newLead)
    (fun notificationError =>
       log ("Failed to create notifications: " ++ notificationError)) ;;;
  ret newLead.

(** *** Sending a quote to the client's webhook *)

(** How a number prints in a template string. *)
Definition decimal (z : Z) : string := NilEmpty.string_of_int (Z.to_int z).

Definition getLeadById (leadId : string) : M (option Lead) :=
  r <- call (SelectLead leadId)
         (reading (fun t =>
            single (filter (fun l => String.eqb (lead_id l) leadId) (leads_table t)))) ;;
  match r with
  | Error message =>
    log ("Error fetching lead with id " ++ leadId ++ ": " ++ message) ;;;
    ret None
  | Data l => ret (Some l)
  end.

Definition with_status (st : string) (q : Quote) : Quote :=
  mkQuote (quote_id q) (quote_lead q) (quote_client q) st (quote_items q).

Definition updateQuoteStatus (quoteId st : string) : M unit :=
  r <- call (UpdateQuoteStatus quoteId st)
         (fun t =>
            (Data tt,
             set_quotes
               (map (fun q => if String.eqb (quote_id q) quoteId
                              then with_status st q else q)
                    (quotes t)) t)) ;;
  match r with
  | Error message =>
    log ("Update quote status error: " ++ message) ;;;
    throw ("Failed to update quote status: " ++ message)
  | Data _ => ret tt
  end.

(** [fetch(url, { method: 'POST', ... })]: the response's status and body,
    or the exception of a request that did not get through. *)
Definition fetch (url : string) (payload : WebhookPayload) : M (Z * string) :=
  fun w =>
    let w := record (Post url payload) w in
    match endpoint w with
    | [] => (Returned (200%Z, ""), w)
    | Response st body :: rest => (Returned (st, body), set_endpoint rest w)
    | NetworkError reason :: rest => (Thrown reason, set_endpoint rest w)
    end.

(** [response.ok] *)
Definition ok (st : Z) : bool := ((200 <=? st) && (st <=? 299))%Z.

Definition sendQuoteByWebhook (quoteId : string) : M unit :=
  r <- call (SelectQuote quoteId)
         (reading (fun t =>
            single (filter (fun q => String.eqb (quote_id q) quoteId) (quotes t)))) ;;
  match r with
  | Error message => throw message
  | Data rawQuote =>
    lead <- getLeadById (quote_lead rawQuote) ;;
    match lead with
    | None => throw "Impossibile trovare il lead associato al preventivo."
    | Some lead =>
      client <-
        call (SelectWebhookUrl (quote_client rawQuote))
          (reading (fun t =>
             single (map quote_webhook_url
                         (filter (has_id (quote_client rawQuote)) (clients t))))) ;;
      match client with
      | Data (Some url) =>
        if truthy url then
          let itemsForPayload :=
            match quote_items rawQuote with
            | ItemsObject entries => ItemsArray (map snd entries)
            | other => other
            end in
          let payload :=
            mkWebhookPayload "quote_sent_by_email" rawQuote itemsForPayload
                             (data lead) in
          response <- fetch url payload ;;
          if negb (ok (fst response)) then
            throw ("Il server webhook ha risposto con un errore: "
                   ++ decimal (fst response) ++ " - " ++ snd response)
          else if negb (String.eqb (quote_status rawQuote) "accepted") then
            updateQuoteStatus quoteId "sent"
          else ret tt
        else throw "URL webhook non configurato per questo cliente."
      | _ => throw "URL webhook non configurato per questo cliente."
      end
    end
  end.

(** *** Batches of sent notifications *)

(** The proleptic Gregorian date of a day number (days since 1 January
    1970): year, month (1 to 12) and day of the month, as [Date] computes
    them for its UTC getters. *)
Definition civil_from_days (days : Z) : Z * Z * Z :=
  let z := (days + 719468)%Z in
  let era := (z / 146097)%Z in
  let doe := (z mod 146097)%Z in
  let yoe := ((doe - doe / 1460 + doe / 36524 - doe / 146096) / 365)%Z in
  let doy := (doe - (365 * yoe + yoe / 4 - yoe / 100))%Z in
  let mp := ((5 * doy + 2) / 153)%Z in
  let d := (doy - (153 * mp + 2) / 5 + 1)%Z in
  let m := (if mp <? 10 then mp + 3 else mp - 9)%Z in
  let y := (yoe + era * 400)%Z in
  ((if m <=? 2 then y + 1 else y)%Z, m, d).

Definition getUTCFullYear (t : Z) : Z := fst (fst (civil_from_days (t / 86400000))).

(** Months count from 0. *)
Definition getUTCMonth (t : Z) : Z := (snd (fst (civil_from_days (t / 86400000))) - 1)%Z.

Definition getUTCDate (t : Z) : Z := snd (civil_from_days (t / 86400000)).

Definition getUTCHours (t : Z) : Z := ((t / 3600000) mod 24)%Z.

Definition getUTCMinutes (t : Z) : Z := ((t / 60000) mod 60)%Z.

Definition timeKey (t : Z) : string :=
  decimal (getUTCFullYear t) ++ "-" ++ decimal (getUTCMonth t) ++ "-"
  ++ decimal (getUTCDate t) ++ "-" ++ decimal (getUTCHours t) ++ "-"
  ++ decimal (getUTCMinutes t).

(** How a nullable text prints in a template string. *)
Definition printed (text : option string) : string :=
  match text with
  | Some s => s
  | None => "null"
  end.

Definition groupKey (n : Notification) : string :=
  printed (title n) ++ "|" ++ message n ++ "|" ++ timeKey (sent_at n).

(** The [Map] of [getSentNotifications], in insertion order. *)
Fixpoint has (key : string) (grouped : list (string * Notification)) : bool :=
  match grouped with
  | [] => false
  | (k, _) :: rest => String.eqb k key || has key rest
  end.

(** One turn of the loop: the notification is kept when its key is new. *)
Definition group (grouped : list (string * Notification)) (n : Notification)
  : list (string * Notification) :=
  if has (groupKey n) grouped then grouped
  else (grouped ++ [(groupKey n, n)])%list.

(** [.is('lead_id', null).not('title', 'is', null)] *)
Definition sent_by_hand (n : Notification) : bool :=
  negb (given (about_lead n)) && given (title n).

Definition getSentNotifications : M (list Notification) :=
  r <- call SelectSent
         (reading (fun t =>
            Data (newest_first sent_at (filter sent_by_hand (notifications t))))) ;;
  match r with
  | Error message => throw message
  | Data notifications =>
    ret (map snd (fold_left group notifications []))
  end.

(** [setUTCSeconds(0, 0)] and [setUTCSeconds(59, 999)] on a copy of the
    date. *)
Definition startTime (t : Z) : Z := (t - t mod 60000)%Z.

Definition endTime (t : Z) : Z := (startTime t + 59 * 1000 + 999)%Z.

(** The filter both batch operations send:
    [.is('lead_id', null).eq('title', title).eq('message', message)
     .gte('created_at', startTime).lte('created_at', endTime)].
    A [null] never equals anything. *)
Definition in_batch (original n : Notification) : bool :=
  negb (given (about_lead n))
  && match title original, title n with
     | Some wanted, Some found => String.eqb found wanted
     | _, _ => false
     end
  && String.eqb (message n) (message original)
  && (startTime (sent_at original) <=? sent_at n)%Z
  && (sent_at n <=? endTime (sent_at original))%Z.

(** [String.prototype.trim] removes the white space and the line
    terminators of ECMAScript at both ends. A string is the sequence of the
    bytes of its UTF-8 encoding; of those characters U+0009 to U+000D and
    U+0020 take one byte, *)
Definition is_space (c : ascii) : bool :=
  match nat_of_ascii c with
  | 9%nat | 10%nat | 11%nat | 12%nat | 13%nat | 32%nat => true
  | _ => false
  end.

(** U+00A0 takes two, *)
Definition is_space2 (c1 c2 : ascii) : bool :=
  (N_of_ascii c1 =? 194)%N && (N_of_ascii c2 =? 160)%N.

(** and U+1680, U+2000 to U+200A, U+2028, U+2029, U+202F, U+205F, U+3000 and
    U+FEFF take three. *)
Definition is_space3 (c1 c2 c3 : ascii) : bool :=
  let b1 := N_of_ascii c1 in
  let b2 := N_of_ascii c2 in
  let b3 := N_of_ascii c3 in
  ((b1 =? 225) && (b2 =? 154) && (b3 =? 128)
   || (b1 =? 226) && (b2 =? 128)
      && ((128 <=? b3) && (b3 <=? 138) || (b3 =? 168) || (b3 =? 169) || (b3 =? 175))
   || (b1 =? 226) && (b2 =? 129) && (b3 =? 159)
   || (b1 =? 227) && (b2 =? 128) && (b3 =? 128)
   || (b1 =? 239) && (b2 =? 187) && (b3 =? 191))%N.

Fixpoint trim_start (s : string) : string :=
  match s with
  | EmptyString => EmptyString
  | String c1 rest1 =>
    if is_space c1 then trim_start rest1
    else
      match rest1 with
      | EmptyString => s
      | String c2 rest2 =>
        if is_space2 c1 c2 then trim_start rest2
        else
          match rest2 with
          | EmptyString => s
          | String c3 rest3 => if is_space3 c1 c2 c3 then trim_start rest3 else s
          end
      end
  end.

(** The text without the white space at its end: what is left of it from the
    point on where nothing but white space follows is dropped. *)
Fixpoint trim_end (s : string) : string :=
  match s with
  | EmptyString => EmptyString
  | String c rest =>
    match trim_start s with
    | EmptyString => EmptyString
    | String _ _ => String c (trim_end rest)
    end
  end.

Definition trim (s : string) : string := trim_end (trim_start s).

(** [[...new Set(ids)]]: each id once, in the order of first occurrence. *)
Fixpoint distinct (ids : list string) : list string :=
  match ids with
  | [] => []
  | i :: rest => i :: filter (fun j => negb (String.eqb j i)) (distinct rest)
  end.

(** [from('notifications').delete()] with the batch filter. *)
Definition delete_batch (original : Notification) : M (Resp unit) :=
  call DeleteBatch
    (fun t =>
       (Data tt,
        set_notifications
          (filter (fun n => negb (in_batch original n)) (notifications t)) t)).

Definition updateSentNotification (originalNotification : Notification)
    (newTitle newMessage : string) : M unit :=
  r <- call SelectBatch
         (reading (fun t =>
            Data (map recipient
                      (filter (in_batch originalNotification) (notifications t))))) ;;
  match r with
  | Error message =>
    throw ("Could not retrieve original notifications: " ++ message)
  | Data [] =>
    log "No notifications found for the group to update." ;;;
    ret tt
  | Data originalBatch =>
    let recipientUserIds := distinct originalBatch in
    d <- delete_batch originalNotification ;;
    match d with
    | Error message =>
      throw ("Could not delete original notifications: " ++ message)
    | Data _ =>
      match recipientUserIds with
      | [] => ret tt
      | _ :: _ =>
        let notificationsToInsert :=
          map (fun userId =>
                 mkNewNotification userId (trim newTitle) (trim newMessage) None None)
              recipientUserIds in
        i <- insert_notifications notificationsToInsert ;;
        match i with
        | Error message =>
          throw ("Could not resend new notifications: " ++ message)
        | Data _ => ret tt
        end
      end
    end
  end.

Definition deleteSentNotification (notificationToDelete : Notification) : M unit :=
  d <- delete_batch notificationToDelete ;;
  match d with
  | Error message => throw message
  | Data _ => ret tt
  end.

(** *** Sending a notification by hand *)

(** [sendCustomNotification] *)
Definition sendCustomNotification (userIds : list string) (title_ message_ : string)
  : M unit :=
  if match userIds with [] => true | _ :: _ => false end
     || negb (truthy (trim message_)) || negb (truthy (trim title_))
  then throw "User IDs, title, and message are required."
  else
    let notificationsToInsert :=
      map (fun userId =>
             mkNewNotification userId (trim title_) (trim message_) None None)
          userIds in
    r <- insert_notifications notificationsToInsert ;;
    match r with
    | Error message => throw message
    | Data _ => ret tt
    end.

(** *** Adding a client, and the users free to become one *)

(** A request the journal has no name for: served, or failed, like any
    other. *)
Definition request {A : Type} (serve : Tables -> Resp A * Tables) : M (Resp A) :=
  fun w =>
    let served (w : World) :=
      let (resp, t) := serve (tables w) in (Returned resp, set_tables t w) in
    match faults w with
    | [] => served w
    | Healthy :: rest => served (set_faults rest w)
    | Reports message :: rest => (Returned (Error message), set_faults rest w)
    | Rejects reason :: rest => (Thrown reason, set_faults rest w)
    end.

(** [services.map(s => ({ ...s, id: ..., fields: s.fields.map(...) }))] of
    [addClient]: every service and every field gets a generated id. *)
Definition new_field_id (f : Field) : M Field :=
  token <- draw ;;
  ret (mkField (Some ("field_" ++ token)) (field_name f)).

Definition new_ids (s : Service) : M Service :=
  token <- draw ;;
  match fields s with
  | Some fs =>
    fs' <- for_each new_field_id fs ;;
    ret (mkService (Some ("service_" ++ token)) (service_name s) (Some fs')
                   (mws_fixed_fee s) (mws_profit_percentage s))
  | None => throw "Cannot read properties of undefined (reading 'map')"
  end.

(** [from('clients').insert(row).select().single()]: the backend gives the
    row its id. *)
Definition insert_client (name_ userId : string) (servicesWithIds : list Service)
    (url : option string) : M (Resp ClientRow) :=
  rowId <- draw ;;
  let row := mkClientRow rowId userId name_ (Value (JArray (map Some servicesWithIds))) url in
  request (fun t => (Data row, set_clients (clients t ++ [row]) t)).

Definition addClient (name_ userId : string) (services_ : list Service)
    (quote_webhook_url_ : option string) : M Client :=
  existingClients <-
    request (reading (fun t =>
      Data (map id (filter (fun c => String.eqb (user_id c) userId) (clients t))))) ;;
  match existingClients with
  | Error message =>
    throw ("Errore durante la verifica del cliente esistente: " ++ message)
  | Data (_ :: _) => throw "Questo utente è già associato a un cliente."
  | Data [] =>
    servicesWithIds <- for_each new_ids services_ ;;
    newClient <- insert_client name_ userId servicesWithIds quote_webhook_url_ ;;
    match newClient with
    | Error message => throw message
    | Data newClient => ret (mkClient (of_row newClient) [] [])
    end
  end.

(** [getAvailableUsers]: the profiles with the role [client], those of the
    users of a client left out when there is any client. *)
Definition getAvailableUsers : M (list Profile) :=
  clientUserIds <- request (reading (fun t => Data (map user_id (clients t)))) ;;
  match clientUserIds with
  | Error message =>
    log ("Error fetching client user IDs: " ++ message) ;;;
    throw message
  | Data associatedUserIds =>
    availableProfiles <-
      request (reading (fun t =>
        Data (filter (fun p =>
                        String.eqb (role p) "client"
                        && match associatedUserIds with
                           | [] => true
                           | _ :: _ =>
                             negb (existsb (String.eqb (profile_id p)) associatedUserIds)
                           end)
                     (profiles t)))) ;;
    match availableProfiles with
    | Error message =>
      log ("Error fetching available profiles: " ++ message) ;;;
      throw message
    | Data rows => ret rows
    end
  end.

(** ** Properties of the facade *)

(** *** Running asynchronous code *)

Lemma bind_returned (A B : Type) (m : M A) (k : A -> M B) (w w' : World) (b : B) :
  bind m k w = (Returned b, w') ->
  exists a w1, m w = (Returned a, w1) /\ k a w1 = (Returned b, w').
Proof.
  unfold bind. destruct (m w) as [[a|e] w1]; intros H.
  - now exists a, w1.
  - discriminate.
Qed.

Lemma for_each_returned (A B : Type) (f : A -> M B) (P : B -> Prop) (xs : list A) :
  (forall x w y w', f x w = (Returned y, w') -> P y) ->
  forall w ys w', for_each f xs w = (Returned ys, w') -> Forall P ys.
Proof.
  intros Hf. induction xs as [|x xs IH]; intros w ys w' H; simpl in H.
  - inversion H; subst. constructor.
  - apply bind_returned in H. destruct H as (y & w1 & Hy & H).
    apply bind_returned in H. destruct H as (ys' & w2 & Hys & H).
    inversion H; subst. constructor; eauto.
Qed.

(** *** Unpacking the commission settings *)

(** No entry of the list is the commission pseudo-service. *)
Definition no_settings_entry (entries : list Entry) : Prop :=
  forall s : Service, In (Some s) entries -> service_id s <> Some sentinel.

(** The column as [unpackMwsSettings] reads it. *)
Definition stored_array (c : Column) : list Entry :=
  match c with
  | Absent => []
  | Text text parsed =>
    match JSON_parse_text text parsed with
    | Some v => as_array (Value v)
    | None => []
    end
  | Value v => as_array (Value v)
  end.

Lemma unpack_stored (c : ClientData) :
  unpackMwsSettings c
  = let servicesArray := stored_array (services (columns c)) in
    let clientWithSettings :=
      match find is_settings servicesArray with
      | Some (Some m) =>
        mkClientData (columns c) (mws_fixed_fee m) (mws_profit_percentage m)
      | _ => c
      end in
    mkClientData
      (set_services (Value (JArray (filter is_user_service servicesArray)))
                    (columns clientWithSettings))
      (client_fixed_fee clientWithSettings)
      (client_profit_percentage clientWithSettings).
Proof.
  unfold unpackMwsSettings, stored_array.
  destruct (services (columns c)) as [|text parsed|v]; try reflexivity.
  destruct (JSON_parse_text text parsed) as [v|]; reflexivity.
Qed.

Lemma unpack_services (c : ClientData) :
  services (columns (unpackMwsSettings c))
  = Value (JArray (filter is_user_service (stored_array (services (columns c))))).
Proof.
  rewrite unpack_stored. cbv zeta.
  destruct (find is_settings _) as [[m|]|]; reflexivity.
Qed.

Lemma unpack_visible (c : ClientData) :
  visible_services (unpackMwsSettings c)
  = filter is_user_service (stored_array (services (columns c))).
Proof. unfold visible_services. now rewrite unpack_services. Qed.

Lemma unpack_fixed_fee (c : ClientData) :
  client_fixed_fee (unpackMwsSettings c)
  = match find is_settings (stored_array (services (columns c))) with
    | Some (Some m) => mws_fixed_fee m
    | _ => client_fixed_fee c
    end.
Proof.
  rewrite unpack_stored. cbv zeta.
  destruct (find is_settings _) as [[m|]|]; reflexivity.
Qed.

Lemma unpack_profit_percentage (c : ClientData) :
  client_profit_percentage (unpackMwsSettings c)
  = match find is_settings (stored_array (services (columns c))) with
    | Some (Some m) => mws_profit_percentage m
    | _ => client_profit_percentage c
    end.
Proof.
  rewrite unpack_stored. cbv zeta.
  destruct (find is_settings _) as [[m|]|]; reflexivity.
Qed.

Lemma current_array_stored (c : Column) : current_array c = stored_array c.
Proof.
  destruct c as [|text parsed|v]; simpl; try reflexivity.
  unfold JSON_parse_text. destruct (truthy text); reflexivity.
Qed.

Lemma user_service_not_settings (s : Service) :
  is_user_service (Some s) = true -> service_id s <> Some sentinel.
Proof.
  simpl. destruct (service_id s) as [i|]; [|discriminate].
  intros H E. inversion E; subst. now rewrite String.eqb_refl in H.
Qed.

Lemma unpack_hides_settings (c : ClientData) :
  no_settings_entry (visible_services (unpackMwsSettings c)).
Proof.
  intros s H. rewrite unpack_visible in H.
  apply filter_In in H. destruct H as [_ H].
  now apply user_service_not_settings.
Qed.

(** The [services] values that hold no array: nothing, a string that is no
    JSON text, a string whose JSON is no array, and any other non-array
    value. *)
Definition malformed (c : Column) : Prop :=
  match c with
  | Absent => True
  | Text text parsed =>
    match JSON_parse_text text parsed with
    | None => True
    | Some JOther => True
    | Some (JArray _) => False
    end
  | Value JOther => True
  | Value (JArray _) => False
  end.

(** C10. [unpackMwsSettings] is total, and on a client whose [services] is a
    string that fails to parse as JSON, or any other non-array value, the
    unpacked client has an empty services list and its commission fields are
    not assigned: they stay as they came, unset for a row of the table. *)
Theorem unpack_malformed_services :
  forall c : ClientData,
    malformed (services (columns c)) ->
    services (columns (unpackMwsSettings c)) = Value (JArray []) /\
    visible_services (unpackMwsSettings c) = [] /\
    client_fixed_fee (unpackMwsSettings c) = client_fixed_fee c /\
    client_profit_percentage (unpackMwsSettings c) = client_profit_percentage c /\
    (forall r : ClientRow,
       c = of_row r ->
       client_fixed_fee (unpackMwsSettings c) = None /\
       client_profit_percentage (unpackMwsSettings c) = None).
Proof.
  intros c H.
  assert (E : stored_array (services (columns c)) = []).
  { unfold malformed in H. unfold stored_array.
    destruct (services (columns c)) as [|text parsed|[items|]]; try reflexivity.
    - destruct (JSON_parse_text text parsed) as [[items|]|]; try reflexivity.
      contradiction.
    - contradiction. }
  assert (V : visible_services (unpackMwsSettings c) = [])
    by (rewrite unpack_visible, E; reflexivity).
  assert (F : client_fixed_fee (unpackMwsSettings c) = client_fixed_fee c)
    by (rewrite unpack_fixed_fee, E; reflexivity).
  assert (P : client_profit_percentage (unpackMwsSettings c)
              = client_profit_percentage c)
    by (rewrite unpack_profit_percentage, E; reflexivity).
  repeat split; try assumption.
  - rewrite unpack_services, E. reflexivity.
  - rewrite F; subst c; reflexivity.
  - rewrite P; subst c; reflexivity.
Qed.

Lemma unpack_malformed_services_witness :
  let c := of_row (mkClientRow "client-1" "user-1" "Acme" (Text "{oops" None) None) in
  services (columns (unpackMwsSettings c)) = Value (JArray []) /\
  visible_services (unpackMwsSettings c) = [] /\
  client_fixed_fee (unpackMwsSettings c) = client_fixed_fee c /\
  client_profit_percentage (unpackMwsSettings c) = client_profit_percentage c /\
  (forall r : ClientRow,
     c = of_row r ->
     client_fixed_fee (unpackMwsSettings c) = None /\
     client_profit_percentage (unpackMwsSettings c) = None).
Proof.
  apply (unpack_malformed_services
           (of_row (mkClientRow "client-1" "user-1" "Acme" (Text "{oops" None) None))).
  simpl. exact I.
Defined.

(** *** Requests that resolve *)







(** *** Reading clients *)


(** What a returned client is made of: the unpacking of some row. *)
Definition unpacked_row (c : Client) : Prop :=
  exists row : ClientRow, settings c = unpackMwsSettings (of_row row).

Ltac run_inversion H :=
  repeat (let a := fresh "a" in
          let w := fresh "w" in
          let E := fresh "E" in
          apply bind_returned in H; destruct H as (a & w & E & H)).

Lemma getClients_unpacked (w w' : World) (cs : list Client) :
  getClients w = (Returned cs, w') -> Forall unpacked_row cs.
Proof.
  unfold getClients. intros H. run_inversion H.
  destruct a as [rows|message]; [|discriminate H].
  revert H. apply for_each_returned. clear.
  intros row w c w' H. run_inversion H.
  inversion H; subst. now exists row.
Qed.

Lemma getClientByUserId_unpacked (userId : string) (w w' : World) (c : Client) :
  getClientByUserId userId w = (Returned (Some c), w') -> unpacked_row c.
Proof.
  unfold getClientByUserId. intros H. run_inversion H.
  destruct a as [[|first others]|message].
  - discriminate H.
  - run_inversion H. inversion H; subst. now exists first.
  - run_inversion H. discriminate H.
Qed.

Lemma updateClient_unpacked (clientId : string) (updates : Updates)
    (w w' : World) (c : Client) :
  updateClient clientId updates w = (Returned c, w') -> unpacked_row c.
Proof.
  unfold updateClient. intros H. run_inversion H.
  destruct a1 as [row|message]; [|discriminate H].
  inversion H; subst. now exists row.
Qed.

(** C4. No client returned by [getClients], [getClientByUserId] or
    [updateClient] has an entry with id ['mws_settings'] in its services
    list. *)
Theorem settings_never_exposed :
  (forall (w w' : World) (cs : list Client),
     getClients w = (Returned cs, w') ->
     forall c, In c cs -> no_settings_entry (visible_services (settings c))) /\
  (forall (userId : string) (w w' : World) (c : Client),
     getClientByUserId userId w = (Returned (Some c), w') ->
     no_settings_entry (visible_services (settings c))) /\
  (forall (clientId : string) (updates : Updates) (w w' : World) (c : Client),
     updateClient clientId updates w = (Returned c, w') ->
     no_settings_entry (visible_services (settings c))).
Proof.
  assert (U : forall c, unpacked_row c ->
                        no_settings_entry (visible_services (settings c))).
  { intros c [row ->]. apply unpack_hides_settings. }
  repeat split.
  - intros w w' cs H c Hc. apply U.
    apply getClients_unpacked in H.
    rewrite Forall_forall in H. now apply H.
  - intros userId w w' c H. apply U. eapply getClientByUserId_unpacked; eauto.
  - intros clientId updates w w' c H. apply U. eapply updateClient_unpacked; eauto.
Qed.

(** *** Code that leaves a table alone *)

(** Running [m] leaves the part [field] of the tables as it was, whatever
    the outcome. *)
Definition keeps {X A : Type} (field : Tables -> X) (m : M A) : Prop :=
  forall w o w', m w = (o, w') -> field (tables w') = field (tables w).

(** Running [m] leaves every table as it was. *)
Definition quiet {A : Type} (m : M A) : Prop := keeps (fun t => t) m.

Section Keeps.

Context {X : Type} (field : Tables -> X).

Lemma keeps_ret (A : Type) (a : A) : keeps field (ret a).
Proof. intros w o w' H. inversion H; reflexivity. Qed.

Lemma keeps_throw (A : Type) (e : string) : keeps field (@throw A e).
Proof. intros w o w' H. inversion H; reflexivity. Qed.

Lemma keeps_log (line : string) : keeps field (log line).
Proof. intros w o w' H. inversion H; reflexivity. Qed.

Lemma keeps_draw : keeps field draw.
Proof. intros w o w' H. inversion H; reflexivity. Qed.

Lemma keeps_now : keeps field now.
Proof. intros w o w' H. inversion H; reflexivity. Qed.

Lemma keeps_bind (A B : Type) (m : M A) (k : A -> M B) :
  keeps field m -> (forall a, keeps field (k a)) -> keeps field (bind m k).
Proof.
  intros Hm Hk w o w' H. unfold bind in H.
  destruct (m w) as [[a|e] w1] eqn:E.
  - rewrite (Hk a _ _ _ H). eapply Hm; eauto.
  - inversion H; subst. eapply Hm; eauto.
Qed.

Lemma keeps_try_catch (A : Type) (body : M A) (handler : string -> M A) :
  keeps field body -> (forall e, keeps field (handler e)) ->
  keeps field (try_catch body handler).
Proof.
  intros Hm Hk w o w' H. unfold try_catch in H.
  destruct (body w) as [[a|e] w1] eqn:E.
  - inversion H; subst. eapply Hm; eauto.
  - rewrite (Hk e _ _ _ H). eapply Hm; eauto.
Qed.

Lemma keeps_for_each (A B : Type) (f : A -> M B) (xs : list A) :
  (forall x, keeps field (f x)) -> keeps field (for_each f xs).
Proof.
  intros Hf. induction xs as [|x xs IH]; simpl.
  - apply keeps_ret.
  - apply keeps_bind; [apply Hf|]. intros y.
    apply keeps_bind; [exact IH|]. intros ys. apply keeps_ret.
Qed.

Lemma keeps_call (A : Type) (r : Request) (serve : Tables -> Resp A * Tables) :
  (forall t, field (snd (serve t)) = field t) -> keeps field (call r serve).
Proof.
  intros Hs w o w' H. unfold call in H. simpl in H.
  destruct (faults w) as [|[|message|reason] rest];
    try (specialize (Hs (tables w)); destruct (serve (tables w)) as [resp t];
         inversion H; subst; exact Hs);
    inversion H; reflexivity.
Qed.

Lemma keeps_reading (A : Type) (r : Request) (answer : Tables -> Resp A) :
  keeps field (call r (reading answer)).
Proof. apply keeps_call. reflexivity. Qed.

Lemma keeps_fetch (url : string) (payload : WebhookPayload) :
  keeps field (fetch url payload).
Proof.
  intros w o w' H. unfold fetch in H. simpl in H.
  destruct (endpoint w) as [|[st body|reason] rest]; inversion H; reflexivity.
Qed.

End Keeps.

Create HintDb quiet.
#[local] Hint Resolve keeps_ret keeps_throw keeps_log keeps_draw keeps_now
  keeps_reading keeps_fetch keeps_bind keeps_for_each keeps_try_catch : quiet.
#[local] Hint Unfold quiet : quiet.

(** A request that came back with data was served on the tables. *)
Lemma call_served (A : Type) (r : Request) (serve : Tables -> Resp A * Tables)
    (w w' : World) (d : A) :
  call r serve w = (Returned (Data d), w') ->
  serve (tables w) = (Data d, tables w').
Proof.
  unfold call. simpl.
  destruct (faults w) as [|[|message|reason] rest]; simpl;
    try (destruct (serve (tables w)) as [resp t]; intros H; inversion H; reflexivity);
    intros H; discriminate H.
Qed.

(** *** Identifiers assigned on update *)

Lemma sentinel_stable : stable_id (Some sentinel) = true.
Proof. reflexivity. Qed.

Lemma generated_not_sentinel (token : string) :
  String.eqb ("service_" ++ token) sentinel = false.
Proof. reflexivity. Qed.

(** Assigning ids changes neither whether an entry is the pseudo-service nor
    the commission parameters it carries. *)
Definition same_settings (s s' : Service) : Prop :=
  is_settings (Some s') = is_settings (Some s) /\
  mws_fixed_fee s' = mws_fixed_fee s /\
  mws_profit_percentage s' = mws_profit_percentage s.

Lemma assign_ids_settings (s s' : Service) (w w' : World) :
  assign_ids s w = (Returned s', w') -> same_settings s s'.
Proof.
  unfold assign_ids. intros H. run_inversion H. inversion H; subst; clear H.
  unfold same_settings; simpl. repeat split.
  destruct (stable_id (service_id s)) eqn:St.
  - inversion E; subst. reflexivity.
  - destruct (service_id s) as [i|] eqn:I.
    + destruct (String.eqb i sentinel) eqn:Q.
      * inversion E; subst. reflexivity.
      * run_inversion E. inversion E; subst.
        apply generated_not_sentinel.
    + run_inversion E. inversion E; subst.
      apply generated_not_sentinel.
Qed.

Lemma for_each_assign_ids (ss ss' : list Service) (w w' : World) :
  for_each assign_ids ss w = (Returned ss', w') -> Forall2 same_settings ss ss'.
Proof.
  revert ss' w w'. induction ss as [|s ss IH]; intros ss' w w' H; simpl in H.
  - inversion H; subst. constructor.
  - run_inversion H. inversion H; subst. constructor.
    + eapply assign_ids_settings; eauto.
    + eapply IH; eauto.
Qed.


Lemma is_settings_id (s : Service) :
  is_settings (Some s) = true <-> service_id s = Some sentinel.
Proof.
  simpl. destruct (service_id s) as [i|]; split; intros H; try discriminate.
  - apply String.eqb_eq in H. now subst.
  - inversion H. apply String.eqb_refl.
Qed.

Lemma not_settings_id (s : Service) :
  service_id s <> Some sentinel -> is_settings (Some s) = false.
Proof.
  intros H. destruct (is_settings (Some s)) eqn:E; [|reflexivity].
  apply is_settings_id in E. contradiction.
Qed.

Lemma userServices_In (entries : list Entry) (s : Service) :
  In s (userServices entries) -> is_settings (Some s) = false.
Proof.
  induction entries as [|[e|] rest IH]; simpl; intros H; try contradiction; auto.
  destruct (service_id e) as [i|] eqn:I.
  - destruct (String.eqb i sentinel) eqn:Q; simpl in H; auto.
    destruct H as [->|H]; auto. simpl. now rewrite I, Q.
  - destruct H as [->|H]; auto. simpl. now rewrite I.
Qed.

Lemma find_cons (A : Type) (f : A -> bool) (x : A) (xs : list A) :
  find f (x :: xs) = if f x then Some x else find f xs.
Proof. reflexivity. Qed.

Lemma find_settings_last (us : list Service) (m : Service) :
  (forall s, In s us -> is_settings (Some s) = false) ->
  is_settings (Some m) = true ->
  find is_settings (map Some (us ++ [m])) = Some (Some m).
Proof.
  intros Hus Hm. induction us as [|u us IH].
  - change (find is_settings [Some m] = Some (Some m)).
    rewrite find_cons. now rewrite Hm.
  - change (find is_settings (Some u :: map Some (us ++ [m])) = Some (Some m)).
    rewrite find_cons, (Hus u (or_introl eq_refl)).
    apply IH. intros s Hs. apply Hus. now right.
Qed.

Lemma find_settings_assigned (ss ss' : list Service) :
  Forall2 same_settings ss ss' ->
  match find is_settings (map Some ss), find is_settings (map Some ss') with
  | Some (Some m), Some (Some m') =>
    mws_fixed_fee m' = mws_fixed_fee m /\
    mws_profit_percentage m' = mws_profit_percentage m
  | None, None => True
  | _, _ => False
  end.
Proof.
  induction 1 as [|s s' ss ss' [I [F P]] _ IH].
  - exact I.
  - change (map Some (s :: ss)) with (Some s :: map Some ss).
    change (map Some (s' :: ss')) with (Some s' :: map Some ss').
    rewrite !find_cons, I.
    destruct (is_settings (Some s)); [split; assumption | exact IH].
Qed.

Lemma with_fees_settings (fee pct : option Q) (m : Service) :
  is_settings (Some (with_profit_percentage pct (with_fixed_fee fee m)))
  = is_settings (Some m).
Proof. destruct fee, pct; reflexivity. Qed.

Lemma filter_has_id_patched (clientId : string) (p : Patch) (rows : list ClientRow) :
  filter (has_id clientId)
         (map (fun r => if has_id clientId r then apply_patch p r else r) rows)
  = map (apply_patch p) (filter (has_id clientId) rows).
Proof.
  induction rows as [|r rows IH]; simpl; [reflexivity|].
  destruct (has_id clientId r) eqn:E; simpl.
  - unfold has_id in *. simpl. rewrite E. simpl. now rewrite IH.
  - rewrite E. exact IH.
Qed.

Lemma quiet_assign_ids (s : Service) : quiet (assign_ids s).
Proof.
  unfold quiet, assign_ids. apply keeps_bind.
  - destruct (stable_id (service_id s)); [apply keeps_ret|].
    destruct (service_id s) as [i|].
    + destruct (String.eqb i sentinel); auto with quiet.
    + auto with quiet.
  - intros i. apply keeps_bind; [|auto with quiet].
    destruct (fields s) as [fs|]; [|apply keeps_ret].
    apply keeps_bind; [|auto with quiet].
    apply keeps_for_each. intros f. unfold assign_field_id.
    destruct (stable_id (field_id f)); auto with quiet.
Qed.

(** The settings entry [updateClient] packs: the stored one, or the default
    one, with the parameters the update gives. *)
Definition packed_settings (updates : Updates) (column : Column) : Service :=
  let mwsSettings :=
    match find is_settings (current_array column) with
    | Some (Some m) => m
    | _ => default_settings
    end in
  if given (upd_mws_fixed_fee updates) || given (upd_mws_profit_percentage updates)
  then with_profit_percentage (upd_mws_profit_percentage updates)
         (with_fixed_fee (upd_mws_fixed_fee updates) mwsSettings)
  else mwsSettings.

Lemma packed_settings_is_settings (updates : Updates) (column : Column) :
  is_settings (Some (packed_settings updates column)) = true.
Proof.
  unfold packed_settings.
  assert (B : is_settings
                (Some match find is_settings (current_array column) with
                      | Some (Some m) => m
                      | _ => default_settings
                      end) = true).
  { destruct (find is_settings (current_array column)) as [[m|]|] eqn:F;
      try reflexivity.
    apply find_some in F. apply F. }
  destruct (given _ || given _); [|exact B].
  now rewrite with_fees_settings.
Qed.

Lemma packed_settings_fixed_fee (updates : Updates) (row : ClientRow) :
  mws_fixed_fee (packed_settings updates (services row))
  = match upd_mws_fixed_fee updates with
    | Some fee => Some fee
    | None => client_fixed_fee (unpackMwsSettings (of_row row))
    end.
Proof.
  rewrite unpack_fixed_fee. unfold packed_settings.
  rewrite current_array_stored. simpl.
  destruct (upd_mws_fixed_fee updates) as [fee|],
           (upd_mws_profit_percentage updates) as [pct|]; simpl;
    destruct (find is_settings (stored_array (services row))) as [[m|]|];
    reflexivity.
Qed.

Lemma packed_settings_profit_percentage (updates : Updates) (row : ClientRow) :
  mws_profit_percentage (packed_settings updates (services row))
  = match upd_mws_profit_percentage updates with
    | Some pct => Some pct
    | None => client_profit_percentage (unpackMwsSettings (of_row row))
    end.
Proof.
  rewrite unpack_profit_percentage. unfold packed_settings.
  rewrite current_array_stored. simpl.
  destruct (upd_mws_fixed_fee updates) as [fee|],
           (upd_mws_profit_percentage updates) as [pct|]; simpl;
    destruct (find is_settings (stored_array (services row))) as [[m|]|];
    reflexivity.
Qed.

(** C3, as the code has it. When the services list of the update (if it
    gives one) has no entry with the reserved id ['mws_settings'], a
    successful [updateClient] stores a row whose unpacking carries each
    commission parameter the update gives, and leaves a parameter the update
    does not give (an update of the name, of the services list, of the other
    parameter) as the unpacking of the row had it before. The returned client
    is the unpacking of the stored row. *)
Theorem commission_settings_round_trip :
  forall (clientId : string) (updates : Updates) (w w' : World) (c : Client),
    (forall ss s, upd_services updates = Some ss -> In s ss ->
                  service_id s <> Some sentinel) ->
    updateClient clientId updates w = (Returned c, w') ->
    exists before after : ClientRow,
      filter (has_id clientId) (clients (tables w)) = [before] /\
      filter (has_id clientId) (clients (tables w')) = [after] /\
      settings c = unpackMwsSettings (of_row after) /\
      client_fixed_fee (unpackMwsSettings (of_row after))
      = match upd_mws_fixed_fee updates with
        | Some fee => Some fee
        | None => client_fixed_fee (unpackMwsSettings (of_row before))
        end /\
      client_profit_percentage (unpackMwsSettings (of_row after))
      = match upd_mws_profit_percentage updates with
        | Some pct => Some pct
        | None => client_profit_percentage (unpackMwsSettings (of_row before))
        end.
Proof.
  intros clientId updates w w' c Hres H.
  unfold updateClient in H. run_inversion H.
  destruct a1 as [data|message]; [|discriminate H].
  inversion H; subst c w'; clear H.
  rename a into packed, a0 into withIds.
  assert (T1 : tables w1 = tables w0).
  { revert E0. apply (fun m (K : quiet m) => K w0 (Returned withIds) w1).
    destruct packed as [ss|]; [|apply keeps_ret].
    apply keeps_bind; [apply keeps_for_each, quiet_assign_ids|].
    intros ss'. apply keeps_ret. }
  apply call_served in E1. unfold update_client in E1.
  destruct (filter (has_id clientId) (clients (tables w1)))
    as [|row [|row' rows]] eqn:Frow; try discriminate E1.
  inversion E1 as [[Hdata Htables]]; clear E1 Hdata Htables.
  set (patch := mkPatch (upd_name updates) withIds (upd_quote_webhook_url updates)).
  assert (T0 : tables w0 = tables w).
  { revert E. apply (fun m (K : quiet m) => K w (Returned packed) w0).
    destruct (_ || given (upd_services updates)); [|apply keeps_ret].
    apply keeps_bind; [apply keeps_reading|].
    intros [column|message]; auto with quiet. }
  rewrite T1, T0 in Frow.
  exists row, (apply_patch patch row).
  split; [exact Frow|].
  split; [simpl; rewrite filter_has_id_patched, T1, T0, Frow; reflexivity|].
  split; [reflexivity|].
  assert (Hstored :
    match withIds with
    | Some ss' =>
      exists us,
        (forall s, In s us -> is_settings (Some s) = false) /\
        Forall2 same_settings (us ++ [packed_settings updates (services row)]) ss'
    | None =>
      upd_mws_fixed_fee updates = None /\ upd_mws_profit_percentage updates = None
    end).
  { destruct (_ || given (upd_services updates)) eqn:C.
    - apply bind_returned in E. destruct E as (r & wr & Er & E).
      destruct r as [column|message]; [|discriminate E].
      apply call_served in Er. unfold reading in Er.
      rewrite Frow in Er. simpl in Er. inversion Er as [[Hc Ht]]; subst column.
      inversion E; subst packed w0; clear E.
      run_inversion E0. inversion E0; subst withIds; clear E0.
      apply for_each_assign_ids in E.
      eexists. split; [|exact E].
      intros s Hs. destruct (upd_services updates) as [ss|] eqn:U.
      + apply not_settings_id. eapply Hres; eauto.
      + eapply userServices_In; eauto.
    - inversion E; subst packed w0; clear E.
      apply orb_false_elim in C. destruct C as [C C3].
      apply orb_false_elim in C. destruct C as [C1 C2].
      destruct (upd_services updates); [discriminate C3|].
      inversion E0; subst withIds.
      destruct (upd_mws_fixed_fee updates); [discriminate C1|].
      destruct (upd_mws_profit_percentage updates); [discriminate C2|].
      split; reflexivity. }
  rewrite !unpack_fixed_fee, !unpack_profit_percentage.
  change (services (columns (of_row (apply_patch patch row))))
    with (match withIds with
          | Some ss => Value (JArray (map Some ss))
          | None => services row
          end).
  change (services (columns (of_row row))) with (services row).
  change (client_fixed_fee (of_row row)) with (@None Q).
  change (client_profit_percentage (of_row row)) with (@None Q).
  change (client_fixed_fee (of_row (apply_patch patch row))) with (@None Q).
  change (client_profit_percentage (of_row (apply_patch patch row))) with (@None Q).
  destruct withIds as [ss'|].
  - destruct Hstored as (us & Hus & F2).
    pose proof (find_settings_assigned _ _ F2) as Hfind.
    rewrite (find_settings_last us _ Hus (packed_settings_is_settings _ _)) in Hfind.
    change (stored_array (Value (JArray (map Some ss')))) with (map Some ss').
    destruct (find is_settings (map Some ss')) as [[m'|]|]; try contradiction.
    destruct Hfind as [Hf Hp]. rewrite Hf, Hp.
    rewrite packed_settings_fixed_fee, packed_settings_profit_percentage.
    rewrite !unpack_fixed_fee, !unpack_profit_percentage. split; reflexivity.
  - destruct Hstored as [-> ->]. split; reflexivity.
Qed.


(** *** Creating a lead *)

Lemma try_catch_logged (body : M unit) (prefix : string) (w : World) :
  exists w',
    try_catch body (fun e => log (prefix ++ e)) w = (Returned tt, w').
Proof.
  unfold try_catch, log. destruct (body w) as [[[]|e] w1]; eexists; reflexivity.
Qed.

Lemma keeps_insert_notifications (X : Type) (field : Tables -> X)
    (rows : list NewNotification) :
  (forall ns t, field (set_notifications ns t) = field t) ->
  keeps field (insert_notifications rows).
Proof.
  intros H. unfold insert_notifications.
  apply keeps_bind; [auto with quiet|]. intros ids.
  apply keeps_bind; [auto with quiet|]. intros t.
  apply keeps_call. intros tb. apply H.
Qed.

Lemma keeps_createNotifications (X : Type) (field : Tables -> X)
    (options : AddLeadOptions) (newLead : Lead) :
  (forall ns t, field (set_notifications ns t) = field t) ->
  keeps field (createNotifications options newLead).
Proof.
  intros H. unfold createNotifications.
  apply keeps_bind; [auto with quiet|]. intros clientData.
  apply keeps_bind; [auto with quiet|]. intros adminUsers.
  destruct clientData as [[clientUser clientName]|]; auto with quiet.
  destruct adminUsers as [[|admin admins]|]; auto with quiet.
  apply keeps_bind; [|auto with quiet].
  apply keeps_insert_notifications. exact H.
Qed.

Lemma insertNewLead_inserted (options : AddLeadOptions) (w w1 : World) (newLead : Lead) :
  insertNewLead options w = (Returned newLead, w1) ->
  In newLead (leads_table (tables w1)).
Proof.
  unfold insertNewLead, insert_lead. intros H. run_inversion H.
  destruct a0 as [row|message]; [|discriminate H].
  inversion H; subst; clear H.
  run_inversion E0. apply call_served in E0.
  injection E0 as Hrow Ht. rewrite <- Ht, <- Hrow. simpl.
  apply in_or_app. right. now left.
Qed.

Lemma draw_ids (A : Type) (rows : list A) :
  forall w, exists ids w',
    for_each (fun _ : A => draw) rows w = (Returned ids, w') /\
    List.length ids = List.length rows /\
    tables w' = tables w /\ clock w' = clock w /\ faults w' = faults w.
Proof.
  induction rows as [|x rows IH]; intros w; simpl.
  - exists [], w. repeat split.
  - unfold bind at 1. unfold draw at 1.
    destruct (IH (set_drawn (S (drawn w)) w)) as (ids & w' & E & L & T & C & F).
    unfold bind at 1. rewrite E.
    exists (fresh w (drawn w) :: ids), w'. simpl. repeat split; auto.
Qed.

Lemma insert_notifications_run (rows : list NewNotification) (w w' : World)
    (o : Outcome (Resp unit)) :
  insert_notifications rows w = (o, w') ->
  (exists ids,
     List.length ids = List.length rows /\
     o = Returned (Data tt) /\
     notifications (tables w')
     = (notifications (tables w) ++ with_ids (clock w) ids rows)%list) \/
  ((forall d, o <> Returned (Data d)) /\ tables w' = tables w).
Proof.
  unfold insert_notifications.
  destruct (draw_ids _ rows w) as (ids & w1 & E & L & T & C & F).
  unfold bind at 1. rewrite E. unfold bind at 1. unfold now at 1.
  unfold call. simpl. rewrite F, T, C.
  destruct (faults w) as [|[|message|reason] rest]; intros H; inversion H; subst;
    simpl;
    try (left; exists ids; repeat split; assumption);
    right; split; try assumption; intros d D; discriminate D.
Qed.

(** A request on a backend with no fault in store is served. *)
Lemma call_healthy (A : Type) (r : Request) (serve : Tables -> Resp A * Tables)
    (w : World) :
  faults w = [] ->
  call r serve w
  = (Returned (fst (serve (tables w))),
     set_tables (snd (serve (tables w))) (record r w)).
Proof.
  intros H. unfold call. simpl. rewrite H.
  destruct (serve (tables w)) as [resp t]. reflexivity.
Qed.

Lemma createNotifications_healthy (options : AddLeadOptions) (newLead : Lead)
    (w : World) (row : ClientRow) (admin : string) (admins : list string) :
  faults w = [] ->
  filter (has_id (clientId options)) (clients (tables w)) = [row] ->
  map profile_id (filter (fun p => String.eqb (role p) "admin") (profiles (tables w)))
  = admin :: admins ->
  exists ids w',
    createNotifications options newLead w = (Returned tt, w') /\
    List.length ids = S (S (List.length admins)) /\
    notifications (tables w')
    = (notifications (tables w)
       ++ with_ids (clock w) ids
            (notificationsToInsert options newLead (user_id row) (name row)
                                  (admin :: admins)))%list.
Proof.
  intros F C A. unfold createNotifications.
  unfold reading.
  unfold bind at 1. rewrite (call_healthy _ _ _ w F).
  cbn [fst snd]. rewrite C. cbn [map single].
  set (w1 := set_tables (tables w) (record (SelectContact (clientId options)) w)).
  assert (F1 : faults w1 = []) by exact F.
  unfold bind at 1. rewrite (call_healthy _ _ _ w1 F1).
  cbn [fst snd]. change (tables w1) with (tables w). rewrite A.
  set (w2 := set_tables (tables w) (record SelectAdmins w1)).
  set (rows := notificationsToInsert options newLead (user_id row) (name row)
                                     (admin :: admins)).
  destruct (insert_notifications rows w2) as [o w3] eqn:E.
  pose proof (insert_notifications_run rows w2 w3 o E) as R.
  assert (Served : exists ids,
            List.length ids = List.length rows /\ o = Returned (Data tt) /\
            notifications (tables w3)
            = (notifications (tables w2) ++ with_ids (clock w2) ids rows)%list).
  { destruct R as [R|(D & _)]; [exact R|]. exfalso.
    revert E. unfold insert_notifications.
    destruct (draw_ids _ rows w2) as (ids & wd & Ed & _ & _ & _ & Fd).
    unfold bind at 1. rewrite Ed. unfold bind at 1. unfold now at 1.
    rewrite call_healthy by (rewrite Fd; exact F).
    intros E. inversion E; subst. eapply D. reflexivity. }
  destruct Served as (ids & L & -> & N).
  exists ids, w3. unfold bind, ret. rewrite E. split; [reflexivity|]. split.
  - rewrite L. unfold rows, notificationsToInsert. simpl. now rewrite length_map.
  - exact N.
Qed.

Lemma insertNewLead_healthy (options : AddLeadOptions) (w : World) :
  faults w = [] ->
  createdAt options <> Some None ->
  exists newLead w1,
    insertNewLead options w = (Returned newLead, w1) /\
    faults w1 = [] /\ clock w1 = clock w /\
    clients (tables w1) = clients (tables w) /\
    profiles (tables w1) = profiles (tables w) /\
    notifications (tables w1) = notifications (tables w).
Proof.
  intros F V. unfold insertNewLead, insert_lead.
  assert (C : exists created,
            match createdAt options with
            | Some (Some t) => ret (Some t)
            | Some None => throw "Invalid time value"
            | None => ret None
            end w = (Returned created, w)).
  { destruct (createdAt options) as [[t|]|]; try (eexists; reflexivity).
    now contradiction V. }
  destruct C as [created C].
  unfold bind at 1. rewrite C.
  unfold bind at 1. unfold bind at 1. unfold draw at 1.
  unfold bind at 1. unfold now at 1.
  rewrite call_healthy by exact F.
  cbn [fst snd]. eexists _, _. split; [reflexivity|]. repeat split. exact F.
Qed.

(** C7. [addLead] ends as the insertion of the lead row ends: once the row is
    inserted it returns the new lead, whatever the backend does to the
    requests that create the notifications (served, an error reported, the
    request rejected, in which case the exception is caught and logged), and
    the lead stays in the table. On a backend with no fault, the client row
    in place and at least one admin, the notifications it adds are one for
    the user of the client and one for each admin. *)
Theorem addLead_independent_of_notifications :
  forall (options : AddLeadOptions) (w : World),
    fst (addLead options w) = fst (insertNewLead options w) /\
    leads_table (tables (snd (addLead options w)))
    = leads_table (tables (snd (insertNewLead options w))) /\
    (forall (newLead : Lead) (w1 : World),
       insertNewLead options w = (Returned newLead, w1) ->
       exists w2,
         addLead options w = (Returned newLead, w2) /\
         In newLead (leads_table (tables w2))) /\
    (forall (row : ClientRow) (admin : string) (admins : list string),
       faults w = [] ->
       createdAt options <> Some None ->
       filter (has_id (clientId options)) (clients (tables w)) = [row] ->
       map profile_id
           (filter (fun p => String.eqb (role p) "admin") (profiles (tables w)))
       = admin :: admins ->
       exists newLead w2 ids,
         addLead options w = (Returned newLead, w2) /\
         List.length ids = S (S (List.length admins)) /\
         notifications (tables w2)
         = (notifications (tables w)
            ++ with_ids (clock w) ids
                 (notificationsToInsert options newLead (user_id row) (name row)
                                        (admin :: admins)))%list).
Proof.
  intros options w.
  assert (Hrun :
    forall newLead w1,
      insertNewLead options w = (Returned newLead, w1) ->
      exists w2,
        addLead options w = (Returned newLead, w2) /\
        leads_table (tables w2) = leads_table (tables w1)).
  { intros newLead w1 H. unfold addLead, bind at 1. rewrite H.
    destruct (try_catch_logged (createNotifications options newLead)
                "Failed to create notifications: " w1) as [w2 E].
    exists w2. unfold bind, ret. rewrite E. split; [reflexivity|].
    revert E. apply keeps_try_catch.
    - apply keeps_createNotifications. reflexivity.
    - intros e. apply keeps_log. }
  assert (Hnotify :
    forall row admin admins,
      faults w = [] ->
      createdAt options <> Some None ->
      filter (has_id (clientId options)) (clients (tables w)) = [row] ->
      map profile_id
          (filter (fun p => String.eqb (role p) "admin") (profiles (tables w)))
      = admin :: admins ->
      exists newLead w2 ids,
        addLead options w = (Returned newLead, w2) /\
        List.length ids = S (S (List.length admins)) /\
        notifications (tables w2)
        = (notifications (tables w)
           ++ with_ids (clock w) ids
                (notificationsToInsert options newLead (user_id row) (name row)
                                       (admin :: admins)))%list).
  { intros row admin admins F V C A.
    destruct (insertNewLead_healthy options w F V)
      as (newLead & w1 & E & F1 & K1 & C1 & P1 & N1).
    rewrite <- C1 in C. rewrite <- P1 in A.
    destruct (createNotifications_healthy options newLead w1 row admin admins F1 C A)
      as (ids & w2 & E2 & L & N2).
    exists newLead, w2, ids. split; [|split; [exact L|]].
    - unfold addLead, bind at 1. rewrite E.
      unfold bind, try_catch, ret. now rewrite E2.
    - now rewrite N2, N1, K1. }
  assert (Hthrown :
    forall e w1,
      insertNewLead options w = (Thrown e, w1) ->
      addLead options w = (Thrown e, w1)).
  { intros e w1 H. unfold addLead, bind at 1. now rewrite H. }
  split; [|split; [|split; [|exact Hnotify]]].
  - destruct (insertNewLead options w) as [[newLead|e] w1] eqn:E.
    + destruct (Hrun newLead w1 eq_refl) as (w2 & R & _). now rewrite R.
    + now rewrite (Hthrown e w1 eq_refl).
  - destruct (insertNewLead options w) as [[newLead|e] w1] eqn:E.
    + destruct (Hrun newLead w1 eq_refl) as (w2 & R & L). now rewrite R.
    + now rewrite (Hthrown e w1 eq_refl).
  - intros newLead w1 H. destruct (Hrun newLead w1 H) as (w2 & R & L).
    exists w2. split; [exact R|].
    rewrite L. eapply insertNewLead_inserted; eauto.
Qed.

(** *** Sending a quote *)

Lemma bind_run (A B : Type) (m : M A) (k : A -> M B) (w w' : World) (o : Outcome B) :
  bind m k w = (o, w') ->
  (exists a w1, m w = (Returned a, w1) /\ k a w1 = (o, w')) \/
  (exists e, m w = (Thrown e, w') /\ o = Thrown e).
Proof.
  unfold bind. destruct (m w) as [[a|e] w1]; intros H.
  - left. now exists a, w1.
  - right. inversion H; subst. now exists e.
Qed.

(** What one request to the backend does to the world. *)
Lemma call_run (A : Type) (r : Request) (serve : Tables -> Resp A * Tables)
    (w w' : World) (o : Outcome (Resp A)) :
  call r serve w = (o, w') ->
  journal w' = (journal w ++ [r])%list /\
  endpoint w' = endpoint w /\
  ((exists reason, o = Thrown reason /\ tables w' = tables w) \/
   (exists message, o = Returned (Error message) /\ tables w' = tables w) \/
   (exists resp, o = Returned resp /\ serve (tables w) = (resp, tables w'))).
Proof.
  unfold call. simpl.
  destruct (faults w) as [|[|message|reason] rest]; simpl.
  - destruct (serve (tables w)) as [resp t] eqn:S. intros H; inversion H; subst.
    simpl. split; [reflexivity|]. split; [reflexivity|].
    right. right. now exists resp.
  - destruct (serve (tables w)) as [resp t] eqn:S. intros H; inversion H; subst.
    simpl. split; [reflexivity|]. split; [reflexivity|].
    right. right. now exists resp.
  - intros H; inversion H; subst. simpl. split; [reflexivity|]. split; [reflexivity|].
    right. left. now exists message.
  - intros H; inversion H; subst. simpl. split; [reflexivity|]. split; [reflexivity|].
    left. now exists reason.
Qed.

Lemma reading_run (A : Type) (r : Request) (answer : Tables -> Resp A)
    (w w' : World) (o : Outcome (Resp A)) :
  call r (reading answer) w = (o, w') ->
  journal w' = (journal w ++ [r])%list /\
  endpoint w' = endpoint w /\
  tables w' = tables w /\
  (forall d, o = Returned (Data d) -> answer (tables w) = Data d).
Proof.
  intros H. pose proof (keeps_reading (fun t => t) _ r answer _ _ _ H) as T.
  apply call_run in H. destruct H as (J & N & C).
  repeat split; try assumption.
  intros d ->. destruct C as [(? & D & _)|[(? & D & _)|(resp & D & S)]];
    try discriminate D.
  inversion D; subst resp. unfold reading in S. now inversion S.
Qed.

Lemma getLeadById_run (leadId : string) (w w' : World) (o : Outcome (option Lead)) :
  getLeadById leadId w = (o, w') ->
  journal w' = (journal w ++ [SelectLead leadId])%list /\
  endpoint w' = endpoint w /\
  tables w' = tables w.
Proof.
  unfold getLeadById. intros H.
  apply bind_run in H. destruct H as [(r & w1 & E & H)|(e & E & ->)].
  - apply reading_run in E. destruct E as (J & N & T & _).
    destruct r as [l|message].
    + inversion H; subst. now repeat split.
    + unfold bind, log, ret in H. inversion H; subst. now repeat split.
  - apply reading_run in E. destruct E as (J & N & T & _). now repeat split.
Qed.

Lemma updateQuoteStatus_run (quoteId st : string) (w w' : World) (o : Outcome unit) :
  updateQuoteStatus quoteId st w = (o, w') ->
  journal w' = (journal w ++ [UpdateQuoteStatus quoteId st])%list.
Proof.
  unfold updateQuoteStatus. intros H.
  apply bind_run in H. destruct H as [(r & w1 & E & H)|(e & E & ->)].
  - apply call_run in E. destruct E as (J & _).
    destruct r as [[]|message].
    + inversion H; subst. exact J.
    + unfold bind, log, throw in H. inversion H; subst. exact J.
  - apply call_run in E. now destruct E as (J & _).
Qed.

(** The outcome the endpoint has in store for the next POST. *)
Definition next_outcome (w : World) : HttpOutcome :=
  match endpoint w with
  | [] => Response 200 ""
  | outcome :: _ => outcome
  end.

Lemma fetch_run (url : string) (payload : WebhookPayload) (w w' : World)
    (o : Outcome (Z * string)) :
  fetch url payload w = (o, w') ->
  journal w' = (journal w ++ [Post url payload])%list /\
  tables w' = tables w /\
  o = match next_outcome w with
      | Response st body => Returned (st, body)
      | NetworkError reason => Thrown reason
      end.
Proof.
  unfold fetch, next_outcome. simpl.
  destruct (endpoint w) as [|[st body|reason] rest]; intros H; inversion H; subst;
    repeat split.
Qed.

(** Requests other than the POST and the update of the quote's status. *)
Definition preparatory (r : Request) : Prop :=
  match r with
  | Post _ _ => False
  | UpdateQuoteStatus _ _ => False
  | _ => True
  end.

Definition webhook_error (st : Z) (body : string) : string :=
  "Il server webhook ha risposto con un errore: " ++ decimal st ++ " - " ++ body.

(** How a call to [sendQuoteByWebhook] went. *)
Inductive Delivery (quoteId : string) (w w' : World) (o : Outcome unit)
  : list Request -> Prop :=
| NotPosted (pre : list Request) (e : string) :
    Forall preparatory pre ->
    o = Thrown e ->
    quotes (tables w') = quotes (tables w) ->
    Delivery quoteId w w' o pre
| Unreachable (pre : list Request) (url : string) (payload : WebhookPayload)
    (reason : string) :
    Forall preparatory pre ->
    next_outcome w = NetworkError reason ->
    o = Thrown reason ->
    quotes (tables w') = quotes (tables w) ->
    Delivery quoteId w w' o (pre ++ [Post url payload])
| Refused (pre : list Request) (url : string) (payload : WebhookPayload)
    (st : Z) (body : string) :
    Forall preparatory pre ->
    next_outcome w = Response st body ->
    ok st = false ->
    o = Thrown (webhook_error st body) ->
    quotes (tables w') = quotes (tables w) ->
    Delivery quoteId w w' o (pre ++ [Post url payload])
| AlreadyAccepted (pre : list Request) (url : string) (payload : WebhookPayload)
    (st : Z) (body : string) (rawQuote : Quote) :
    Forall preparatory pre ->
    next_outcome w = Response st body ->
    ok st = true ->
    single (filter (fun q => String.eqb (quote_id q) quoteId) (quotes (tables w)))
    = Data rawQuote ->
    quote_status rawQuote = "accepted" ->
    o = Returned tt ->
    quotes (tables w') = quotes (tables w) ->
    Delivery quoteId w w' o (pre ++ [Post url payload])
| Advanced (pre : list Request) (url : string) (payload : WebhookPayload)
    (st : Z) (body : string) (rawQuote : Quote) :
    Forall preparatory pre ->
    next_outcome w = Response st body ->
    ok st = true ->
    single (filter (fun q => String.eqb (quote_id q) quoteId) (quotes (tables w)))
    = Data rawQuote ->
    quote_status rawQuote <> "accepted" ->
    Delivery quoteId w w' o
      (pre ++ [Post url payload; UpdateQuoteStatus quoteId "sent"]).

Lemma sendQuoteByWebhook_run (quoteId : string) (w w' : World) (o : Outcome unit) :
  sendQuoteByWebhook quoteId w = (o, w') ->
  exists new, journal w' = (journal w ++ new)%list /\ Delivery quoteId w w' o new.
Proof.
  unfold sendQuoteByWebhook. intros H.
  apply bind_run in H. destruct H as [(r & w1 & E1 & H)|(e & E1 & ->)];
    apply reading_run in E1; destruct E1 as (J1 & N1 & T1 & D1).
  2:{ exists [SelectQuote quoteId]. split; [exact J1|].
      eapply NotPosted; [repeat constructor | reflexivity | now rewrite T1]. }
  destruct r as [rawQuote|message].
  2:{ inversion H; subst. exists [SelectQuote quoteId]. split; [exact J1|].
      eapply NotPosted; [repeat constructor | reflexivity | now rewrite T1]. }
  specialize (D1 rawQuote eq_refl).
  apply bind_run in H. destruct H as [(lead & w2 & E2 & H)|(e & E2 & ->)];
    apply getLeadById_run in E2; destruct E2 as (J2 & N2 & T2);
    rewrite J1 in J2; rewrite <- app_assoc in J2; simpl in J2.
  2:{ eexists. split; [exact J2|].
      eapply NotPosted; [repeat constructor | reflexivity | now rewrite T2, T1]. }
  destruct lead as [lead|].
  2:{ inversion H; subst. eexists. split; [exact J2|].
      eapply NotPosted; [repeat constructor | reflexivity | now rewrite T2, T1]. }
  apply bind_run in H. destruct H as [(client & w3 & E3 & H)|(e & E3 & ->)];
    apply reading_run in E3; destruct E3 as (J3 & N3 & T3 & _);
    rewrite J2 in J3; rewrite <- app_assoc in J3; simpl in J3.
  2:{ eexists. split; [exact J3|].
      eapply NotPosted; [repeat constructor | reflexivity | now rewrite T3, T2, T1]. }
  assert (Stop : forall e, (o, w') = (Thrown e, w3) ->
            exists new, journal w' = (journal w ++ new)%list
                        /\ Delivery quoteId w w' o new).
  { intros e Q. inversion Q; subst. eexists. split; [exact J3|].
    eapply NotPosted; [repeat constructor | reflexivity | now rewrite T3, T2, T1]. }
  destruct client as [[url|]|message]; try (eapply Stop; symmetry; exact H).
  destruct (truthy url); try (eapply Stop; symmetry; exact H).
  clear Stop.
  set (pre := [SelectQuote quoteId; SelectLead (quote_lead rawQuote);
               SelectWebhookUrl (quote_client rawQuote)]) in *.
  assert (Ppre : Forall preparatory pre) by (repeat constructor).
  assert (Nx : next_outcome w3 = next_outcome w)
    by (unfold next_outcome; now rewrite N3, N2, N1).
  apply bind_run in H. destruct H as [(response & w4 & E4 & H)|(e & E4 & ->)];
    apply fetch_run in E4; destruct E4 as (J4 & T4 & O4);
    rewrite J3 in J4; rewrite <- app_assoc in J4; rewrite Nx in O4.
  2:{ eexists. split; [exact J4|].
      destruct (next_outcome w) as [st body|reason] eqn:Nw; [discriminate O4|].
      inversion O4; subst. eapply Unreachable; eauto. now rewrite T4, T3, T2, T1. }
  destruct (next_outcome w) as [st body|reason] eqn:Nw; [|discriminate O4].
  inversion O4; subst response; clear O4. simpl in H.
  destruct (ok st) eqn:Ok; simpl in H.
  - destruct (String.eqb (quote_status rawQuote) "accepted") eqn:Acc; simpl in H.
    + inversion H; subst. eexists. split; [exact J4|].
      apply String.eqb_eq in Acc.
      eapply AlreadyAccepted; eauto. now rewrite T4, T3, T2, T1.
    + apply updateQuoteStatus_run in H. rewrite J4 in H.
      rewrite <- app_assoc in H. simpl in H.
      eexists. split; [exact H|].
      apply String.eqb_neq in Acc.
      eapply (Advanced quoteId w w' o pre); eauto.
  - inversion H; subst. eexists. split; [exact J4|].
    eapply Refused; eauto. now rewrite T4, T3, T2, T1.
Qed.

(** The requests a call issued: what it added to the journal. *)
Definition issued (w w' : World) : list Request :=
  skipn (List.length (journal w)) (journal w').

Lemma issued_app (w w' : World) (new : list Request) :
  journal w' = (journal w ++ new)%list -> issued w w' = new.
Proof.
  intros H. unfold issued. rewrite H.
  rewrite skipn_app, skipn_all, Nat.sub_diag. reflexivity.
Qed.

Lemma preparatory_no_post (pre : list Request) (url : string) (p : WebhookPayload) :
  Forall preparatory pre -> ~ In (Post url p) pre.
Proof.
  intros F H. rewrite Forall_forall in F. exact (F _ H).
Qed.

Lemma preparatory_no_update (pre : list Request) (q st : string) :
  Forall preparatory pre -> ~ In (UpdateQuoteStatus q st) pre.
Proof.
  intros F H. rewrite Forall_forall in F. exact (F _ H).
Qed.

(** C6. When the webhook POST of [sendQuoteByWebhook] is answered with a
    status outside 200..299, the call throws an error whose message holds the
    status code and the response body, issues no status update and leaves the
    quotes as they were. A status update is issued only as the request after
    the POST, only for this quote and to ['sent'], only when the POST was
    answered with a 2xx status and the quote was not ['accepted']; and the
    quotes change only if that update was issued. *)
Theorem webhook_failure_keeps_status :
  forall (quoteId : string) (w : World),
    (forall url payload st body,
       In (Post url payload) (issued w (snd (sendQuoteByWebhook quoteId w))) ->
       next_outcome w = Response st body ->
       ok st = false ->
       fst (sendQuoteByWebhook quoteId w)
       = Thrown ("Il server webhook ha risposto con un errore: "
                 ++ decimal st ++ " - " ++ body) /\
       quotes (tables (snd (sendQuoteByWebhook quoteId w))) = quotes (tables w) /\
       (forall q s,
          ~ In (UpdateQuoteStatus q s)
               (issued w (snd (sendQuoteByWebhook quoteId w))))) /\
    (forall q s,
       In (UpdateQuoteStatus q s) (issued w (snd (sendQuoteByWebhook quoteId w))) ->
       q = quoteId /\ s = "sent" /\
       (exists pre url payload,
          Forall preparatory pre /\
          issued w (snd (sendQuoteByWebhook quoteId w))
          = (pre ++ [Post url payload; UpdateQuoteStatus quoteId "sent"])%list) /\
       (exists st body, next_outcome w = Response st body /\ ok st = true) /\
       (exists rawQuote,
          single (filter (fun x => String.eqb (quote_id x) quoteId) (quotes (tables w)))
          = Data rawQuote /\
          quote_status rawQuote <> "accepted")) /\
    (quotes (tables (snd (sendQuoteByWebhook quoteId w))) <> quotes (tables w) ->
     In (UpdateQuoteStatus quoteId "sent")
        (issued w (snd (sendQuoteByWebhook quoteId w)))).
Proof.
  intros quoteId w.
  destruct (sendQuoteByWebhook quoteId w) as [o w'] eqn:R.
  destruct (sendQuoteByWebhook_run _ _ _ _ R) as (new & J & D).
  cbn [fst snd]. rewrite (issued_app _ _ _ J).
  split; [|split].
  - intros url payload st body HIn Hnext Hok.
    destruct D as [pre e P -> Q | pre u p reason P N -> Q | pre u p st' body' P N K -> Q
                  | pre u p st' body' raw P N K S A -> Q | pre u p st' body' raw P N K S A].
    + exfalso. exact (preparatory_no_post _ _ _ P HIn).
    + rewrite Hnext in N. discriminate N.
    + rewrite Hnext in N. inversion N; subst st' body'.
      split; [reflexivity|]. split; [exact Q|].
      intros q s H. apply in_app_or in H. destruct H as [H|[H|[]]].
      * exact (preparatory_no_update _ _ _ P H).
      * discriminate H.
    + rewrite Hnext in N. inversion N; subst st' body'. congruence.
    + rewrite Hnext in N. inversion N; subst st' body'. congruence.
  - intros q s HIn.
    destruct D as [pre e P -> Q | pre u p reason P N -> Q | pre u p st' body' P N K -> Q
                  | pre u p st' body' raw P N K S A -> Q | pre u p st' body' raw P N K S A].
    + exfalso. exact (preparatory_no_update _ _ _ P HIn).
    + exfalso. apply in_app_or in HIn. destruct HIn as [H|[H|[]]];
        [exact (preparatory_no_update _ _ _ P H) | discriminate H].
    + exfalso. apply in_app_or in HIn. destruct HIn as [H|[H|[]]];
        [exact (preparatory_no_update _ _ _ P H) | discriminate H].
    + exfalso. apply in_app_or in HIn. destruct HIn as [H|[H|[]]];
        [exact (preparatory_no_update _ _ _ P H) | discriminate H].
    + apply in_app_or in HIn. destruct HIn as [H|[H|[H|[]]]].
      * exfalso. exact (preparatory_no_update _ _ _ P H).
      * discriminate H.
      * inversion H; subst q s. repeat split.
        -- now exists pre, u, p.
        -- now exists st', body'.
        -- now exists raw.
  - intros Hq.
    destruct D as [pre e P -> Q | pre u p reason P N -> Q | pre u p st' body' P N K -> Q
                  | pre u p st' body' raw P N K S A -> Q | pre u p st' body' raw P N K S A];
      try contradiction.
    apply in_or_app. right. right. now left.
Qed.

(** *** The calendar of the UTC getters *)

Local Open Scope Z_scope.

Definition year_of_era (doe : Z) : Z :=
  (doe - doe / 1460 + doe / 36524 - doe / 146096) / 365.

Definition day_of_year (doe : Z) : Z :=
  doe - (365 * year_of_era doe + year_of_era doe / 4 - year_of_era doe / 100).

Lemma year_of_era_range (doe : Z) :
  0 <= doe < 146097 -> 0 <= year_of_era doe <= 399.
Proof.
  intros H. unfold year_of_era. Z.to_euclidean_division_equations. lia.
Qed.

Lemma day_of_year_range (doe : Z) :
  0 <= doe < 146097 -> 0 <= day_of_year doe <= 365.
Proof.
  intros H. unfold day_of_year, year_of_era. Z.to_euclidean_division_equations. lia.
Qed.

(** The month and the day of the month determine the day of the year
    (counted from 1 March). *)
Lemma month_day_inj (doy doy' : Z) :
  0 <= doy <= 365 -> 0 <= doy' <= 365 ->
  (let mp := (5 * doy + 2) / 153 in if mp <? 10 then mp + 3 else mp - 9)
  = (let mp := (5 * doy' + 2) / 153 in if mp <? 10 then mp + 3 else mp - 9) ->
  doy - (153 * ((5 * doy + 2) / 153) + 2) / 5 + 1
  = doy' - (153 * ((5 * doy' + 2) / 153) + 2) / 5 + 1 ->
  doy = doy'.
Proof.
  intros H H' Hm Hd. cbv zeta in Hm.
  destruct (Z.ltb_spec ((5 * doy + 2) / 153) 10), (Z.ltb_spec ((5 * doy' + 2) / 153) 10);
    Z.to_euclidean_division_equations; lia.
Qed.

Lemma civil_from_days_unfold (days : Z) :
  civil_from_days days
  = let doe := (days + 719468) mod 146097 in
    let mp := (5 * day_of_year doe + 2) / 153 in
    let m := if mp <? 10 then mp + 3 else mp - 9 in
    let y := year_of_era doe + (days + 719468) / 146097 * 400 in
    (if m <=? 2 then y + 1 else y, m,
     day_of_year doe - (153 * mp + 2) / 5 + 1).
Proof. reflexivity. Qed.

Lemma civil_from_days_inj (a b : Z) :
  civil_from_days a = civil_from_days b -> a = b.
Proof.
  rewrite !civil_from_days_unfold. cbv zeta.
  pose proof (Z.mod_pos_bound (a + 719468) 146097 eq_refl) as Ha.
  pose proof (Z.mod_pos_bound (b + 719468) 146097 eq_refl) as Hb.
  pose proof (year_of_era_range _ Ha) as Ya.
  pose proof (year_of_era_range _ Hb) as Yb.
  pose proof (day_of_year_range _ Ha) as Da.
  pose proof (day_of_year_range _ Hb) as Db.
  intros H. injection H as Hy Hm Hd.
  assert (Edoy : day_of_year ((a + 719468) mod 146097)
                 = day_of_year ((b + 719468) mod 146097)).
  { apply month_day_inj; assumption. }
  rewrite Edoy in Hy.
  assert (Ey : year_of_era ((a + 719468) mod 146097) + (a + 719468) / 146097 * 400
               = year_of_era ((b + 719468) mod 146097) + (b + 719468) / 146097 * 400).
  { destruct (_ <=? 2); lia. }
  assert (Eera : (a + 719468) / 146097 = (b + 719468) / 146097) by lia.
  assert (Eyoe : year_of_era ((a + 719468) mod 146097)
                 = year_of_era ((b + 719468) mod 146097)) by lia.
  assert (Edoe : (a + 719468) mod 146097 = (b + 719468) mod 146097).
  { unfold day_of_year in Edoy. rewrite Eyoe in Edoy. lia. }
  pose proof (Z.div_mod (a + 719468) 146097 ltac:(lia)).
  pose proof (Z.div_mod (b + 719468) 146097 ltac:(lia)).
  lia.
Qed.

(** Two instants of the same clock minute. *)
Definition same_minute (a b : Z) : Prop := a / 60000 = b / 60000.

(** The five fields of [timeKey]. *)
Definition minute_fields (t : Z) : Z * Z * Z * Z * Z :=
  (getUTCFullYear t, getUTCMonth t, getUTCDate t, getUTCHours t, getUTCMinutes t).

Lemma minute_fields_same_minute (a b : Z) :
  minute_fields a = minute_fields b <-> same_minute a b.
Proof.
  unfold minute_fields, same_minute, getUTCFullYear, getUTCMonth, getUTCDate,
    getUTCHours, getUTCMinutes.
  split.
  - intros H.
    remember (civil_from_days (a / 86400000)) as ca eqn:Ea.
    remember (civil_from_days (b / 86400000)) as cb eqn:Eb.
    injection H as Hy Hm Hd Hh Hmin.
    assert (E : a / 86400000 = b / 86400000).
    { apply civil_from_days_inj. rewrite <- Ea, <- Eb.
      destruct ca as [[y m] d], cb as [[y' m'] d'].
      cbn [fst snd] in Hy, Hm, Hd. f_equal; [f_equal|]; lia. }
    clear Ea Eb Hy Hm Hd.
    Z.to_euclidean_division_equations. lia.
  - intros H.
    assert (E : a / 86400000 = b / 86400000)
      by (Z.to_euclidean_division_equations; lia).
    assert (Eh : a / 3600000 = b / 3600000)
      by (Z.to_euclidean_division_equations; lia).
    now rewrite E, Eh, H.
Qed.

Lemma startTime_endTime (t x : Z) :
  startTime t <= x <= endTime t <-> same_minute x t.
Proof.
  unfold endTime, startTime, same_minute.
  split; intros H; Z.to_euclidean_division_equations; lia.
Qed.

Local Close Scope Z_scope.

(** *** Keys as text *)

(** The character occurs in the text. *)
Fixpoint occurs (c : ascii) (s : string) : bool :=
  match s with
  | EmptyString => false
  | String x rest => Ascii.eqb x c || occurs c rest
  end.

Lemma occurs_app (c : ascii) (a b : string) :
  occurs c (a ++ b) = occurs c a || occurs c b.
Proof.
  induction a as [|x a IH]; simpl; [reflexivity|].
  now rewrite IH, orb_assoc.
Qed.

(** Two texts cut at the first occurrence of a separator. *)
Lemma split_first (c : ascii) (a a' r r' : string) :
  occurs c a = false -> occurs c a' = false ->
  a ++ String c r = a' ++ String c r' -> a = a' /\ r = r'.
Proof.
  revert a'. induction a as [|x a IH]; intros [|x' a'] Ha Ha' H; simpl in *.
  - inversion H. now split.
  - inversion H; subst x'. now rewrite Ascii.eqb_refl in Ha'.
  - inversion H; subst x. now rewrite Ascii.eqb_refl in Ha.
  - inversion H; subst x'.
    apply orb_false_elim in Ha. apply orb_false_elim in Ha'.
    destruct (IH a' (proj2 Ha) (proj2 Ha') H2) as [-> ->]. now split.
Qed.

(** Two texts cut at the last occurrence of a separator. *)
Lemma split_last (c : ascii) (m m' k k' : string) :
  occurs c k = false -> occurs c k' = false ->
  m ++ String c k = m' ++ String c k' -> m = m' /\ k = k'.
Proof.
  intros Hk Hk'. revert m'. induction m as [|x m IH]; intros [|x' m'] H; simpl in *.
  - inversion H. now split.
  - inversion H; subst. rewrite occurs_app in Hk. simpl in Hk.
    rewrite Ascii.eqb_refl, orb_true_r in Hk. discriminate Hk.
  - inversion H; subst. rewrite occurs_app in Hk'. simpl in Hk'.
    rewrite Ascii.eqb_refl, orb_true_r in Hk'. discriminate Hk'.
  - inversion H; subst x'. destruct (IH m' H2) as [-> ->]. now split.
Qed.

Lemma digits_no_dash (d : Decimal.uint) :
  occurs "-" (NilEmpty.string_of_uint d) = false.
Proof. induction d; simpl; auto. Qed.

Lemma digits_no_bar (d : Decimal.uint) :
  occurs "|" (NilEmpty.string_of_uint d) = false.
Proof. induction d; simpl; auto. Qed.

Lemma decimal_no_bar (z : Z) : occurs "|" (decimal z) = false.
Proof.
  unfold decimal. destruct (Z.to_int z) as [d|d]; simpl; apply digits_no_bar.
Qed.

Lemma decimal_no_dash (z : Z) : (0 <= z)%Z -> occurs "-" (decimal z) = false.
Proof.
  unfold decimal. destruct z as [|p|p]; intros H; simpl.
  - reflexivity.
  - apply digits_no_dash.
  - exfalso. now apply H.
Qed.

Lemma decimal_inj (a b : Z) : decimal a = decimal b -> a = b.
Proof.
  unfold decimal. intros H. apply DecimalZ.to_int_inj.
  apply (f_equal NilEmpty.int_of_string) in H.
  rewrite !NilEmpty.isi in H. now inversion H.
Qed.

(** A number prints as a minus sign and digits when it is negative, and as
    digits, at least one, when it is not. *)
Lemma decimal_shape (z : Z) :
  (exists ds, decimal z = String "-" ds /\ occurs "-" ds = false) \/
  (exists c ds, decimal z = String c ds /\ Ascii.eqb c "-" = false
                /\ occurs "-" ds = false).
Proof.
  unfold decimal. destruct z as [|p|p]; simpl.
  - right. now exists "0"%char, EmptyString.
  - right. pose proof (DecimalPos.Unsigned.to_uint_nonnil p) as N.
    pose proof (digits_no_dash (Pos.to_uint p)) as D.
    destruct (Pos.to_uint p); try contradiction; simpl in *;
      eexists _, _; (split; [reflexivity|]); split; auto.
  - left. eexists. split; [reflexivity|]. apply digits_no_dash.
Qed.

(** A text that starts with a number and a dash determines the number. *)
Lemma split_number (a b : Z) (r r' : string) :
  decimal a ++ String "-" r = decimal b ++ String "-" r' -> a = b /\ r = r'.
Proof.
  intros H.
  destruct (decimal_shape a) as [(da & Ea & Fa)|(ca & da & Ea & Ca & Fa)],
           (decimal_shape b) as [(db & Eb & Fb)|(cb & db & Eb & Cb & Fb)];
    rewrite Ea, Eb in H; simpl in H; inversion H; subst.
  - destruct (split_first _ _ _ _ _ Fa Fb H1) as [-> ->].
    split; [|reflexivity]. apply decimal_inj. now rewrite Ea, Eb.
  - now rewrite Ascii.eqb_refl in Cb.
  - now rewrite Ascii.eqb_refl in Ca.
  - destruct (split_first _ _ _ _ _ Fa Fb H2) as [-> ->].
    split; [|reflexivity]. apply decimal_inj. now rewrite Ea, Eb.
Qed.

Lemma timeKey_unfold (t : Z) :
  timeKey t
  = decimal (getUTCFullYear t)
    ++ String "-" (decimal (getUTCMonth t)
    ++ String "-" (decimal (getUTCDate t)
    ++ String "-" (decimal (getUTCHours t)
    ++ String "-" (decimal (getUTCMinutes t))))).
Proof. reflexivity. Qed.

Lemma timeKey_no_bar (t : Z) : occurs "|" (timeKey t) = false.
Proof.
  rewrite timeKey_unfold.
  repeat (rewrite occurs_app, decimal_no_bar; simpl).
  apply decimal_no_bar.
Qed.

(** The time key names the clock minute. *)
Lemma timeKey_same_minute (a b : Z) :
  timeKey a = timeKey b <-> same_minute a b.
Proof.
  rewrite <- minute_fields_same_minute. unfold minute_fields.
  rewrite !timeKey_unfold. split.
  - intros H.
    apply split_number in H. destruct H as [H1 H].
    apply split_number in H. destruct H as [H2 H].
    apply split_number in H. destruct H as [H3 H].
    apply split_number in H. destruct H as [H4 H5].
    apply decimal_inj in H5. congruence.
  - intros H. injection H as -> -> -> -> ->. reflexivity.
Qed.

(** The key of a batch: title, message and clock minute. *)
Definition same_batch_key (a b : Notification) : Prop :=
  title a = title b /\ message a = message b /\ same_minute (sent_at a) (sent_at b).

(** Rows for which the text key is faithful: a title without the
    separator. *)
Definition plain (n : Notification) : Prop :=
  exists t, title n = Some t /\ occurs "|" t = false.

Lemma groupKey_same_batch_key (a b : Notification) :
  plain a -> plain b ->
  (groupKey a = groupKey b <-> same_batch_key a b).
Proof.
  intros (ta & Ta & Fa) (tb & Tb & Fb).
  unfold groupKey, same_batch_key. rewrite Ta, Tb. simpl printed.
  change (ta ++ "|" ++ message a ++ "|" ++ timeKey (sent_at a))
    with (ta ++ String "|" (message a ++ String "|" (timeKey (sent_at a)))).
  change (tb ++ "|" ++ message b ++ "|" ++ timeKey (sent_at b))
    with (tb ++ String "|" (message b ++ String "|" (timeKey (sent_at b)))).
  split.
  - intros H. apply split_first in H; try assumption. destruct H as [-> H].
    apply split_last in H; try apply timeKey_no_bar. destruct H as [-> H].
    apply timeKey_same_minute in H. now repeat split.
  - intros (T & Me & Mi). inversion T; subst tb. rewrite Me.
    apply timeKey_same_minute in Mi. now rewrite Mi.
Qed.

(** *** Listing the batches *)

Lemma has_In (key : string) (grouped : list (string * Notification)) :
  has key grouped = true <-> In key (map fst grouped).
Proof.
  induction grouped as [|[k n] rest IH]; simpl.
  - split; [discriminate | contradiction].
  - rewrite orb_true_iff, IH, String.eqb_eq. reflexivity.
Qed.

(** Every entry of the map sits under the key of its notification. *)
Definition keyed (grouped : list (string * Notification)) : Prop :=
  forall k n, In (k, n) grouped -> k = groupKey n.

Lemma group_spec (grouped : list (string * Notification)) (n : Notification) :
  keyed grouped -> NoDup (map fst grouped) ->
  keyed (group grouped n) /\
  NoDup (map fst (group grouped n)) /\
  (forall k, In k (map fst (group grouped n))
             <-> In k (map fst grouped) \/ k = groupKey n) /\
  (forall k r, In (k, r) (group grouped n) -> In (k, r) grouped \/ r = n).
Proof.
  intros K N. unfold group. destruct (has (groupKey n) grouped) eqn:H.
  - apply has_In in H. split; [exact K|]. split; [exact N|]. split.
    + intros k. split; [auto|]. intros [I| ->]; assumption.
    + intros k r I. now left.
  - assert (Hn : ~ In (groupKey n) (map fst grouped)).
    { intros I. apply has_In in I. congruence. }
    split; [|split; [|split]].
    + intros k r I. apply in_app_or in I. destruct I as [I|[I|[]]].
      * now apply K.
      * now inversion I.
    + rewrite map_app. simpl.
      apply NoDup_app; auto.
      * constructor; [intros []|constructor].
      * intros k I [<-|[]]. contradiction.
    + intros k. rewrite map_app, in_app_iff. simpl. intuition.
    + intros k r I. apply in_app_or in I. destruct I as [I|[I|[]]]; auto.
      inversion I. now right.
Qed.

Lemma fold_group_spec (rows : list Notification) :
  forall grouped : list (string * Notification),
    keyed grouped -> NoDup (map fst grouped) ->
    keyed (fold_left group rows grouped) /\
    NoDup (map fst (fold_left group rows grouped)) /\
    (forall k, In k (map fst (fold_left group rows grouped))
               <-> In k (map fst grouped) \/ In k (map groupKey rows)) /\
    (forall k r, In (k, r) (fold_left group rows grouped)
                 -> In (k, r) grouped \/ In r rows).
Proof.
  induction rows as [|n rows IH]; intros grouped K N; simpl.
  - split; [exact K|]. split; [exact N|]. split.
    + intros k. intuition.
    + intros k r I. now left.
  - destruct (group_spec grouped n K N) as (K1 & N1 & I1 & R1).
    destruct (IH _ K1 N1) as (K2 & N2 & I2 & R2).
    split; [exact K2|]. split; [exact N2|]. split.
    + intros k. rewrite I2, I1. intuition.
    + intros k r I. apply R2 in I. destruct I as [I|I]; auto.
      apply R1 in I. destruct I as [I| ->]; auto.
Qed.

Lemma keyed_keys (grouped : list (string * Notification)) :
  keyed grouped -> map groupKey (map snd grouped) = map fst grouped.
Proof.
  intros K. induction grouped as [|[k n] rest IH]; simpl; [reflexivity|].
  rewrite IH.
  - now rewrite (K k n (or_introl eq_refl)).
  - intros k' n' I. apply K. now right.
Qed.

(** The notifications the loop of [getSentNotifications] keeps. *)
Lemma grouped_values (rows : list Notification) :
  let kept := map snd (fold_left group rows []) in
  NoDup (map groupKey kept) /\
  (forall n, In n kept -> In n rows) /\
  (forall n, In n rows -> exists r, In r kept /\ groupKey r = groupKey n).
Proof.
  intros kept.
  destruct (fold_group_spec rows [] (fun k n (I : In (k, n) []) => match I with end)
              (NoDup_nil _)) as (K & N & I & R).
  subst kept. split; [|split].
  - now rewrite keyed_keys.
  - intros n H. apply in_map_iff in H. destruct H as ([k r] & <- & H).
    apply R in H. destruct H as [[]|H]. exact H.
  - intros n H.
    assert (Hk : In (groupKey n) (map fst (fold_left group rows [])))
      by (apply I; right; now apply in_map).
    apply in_map_iff in Hk. destruct Hk as ([k r] & E & Hk). simpl in E. subst k.
    exists r. split.
    + apply in_map_iff. now exists (groupKey n, r).
    + symmetry. now apply K.
Qed.

Lemma NoDup_map_inj (A B : Type) (f : A -> B) (xs : list A) (a b : A) :
  NoDup (map f xs) -> In a xs -> In b xs -> f a = f b -> a = b.
Proof.
  induction xs as [|x xs IH]; simpl; intros N Ia Ib E; [contradiction|].
  inversion N as [|? ? Hx N']; subst.
  destruct Ia as [->|Ia], Ib as [->|Ib]; auto.
  - exfalso. apply Hx. rewrite E. now apply in_map.
  - exfalso. apply Hx. rewrite <- E. now apply in_map.
Qed.

Lemma newest_first_insert_In (A : Type) (at_ : A -> Z) (x y : A) (sorted : list A) :
  In x (newest_first_insert at_ y sorted) <-> x = y \/ In x sorted.
Proof.
  induction sorted as [|z rest IH]; simpl.
  - intuition.
  - destruct (at_ z <=? at_ y)%Z; simpl; [intuition|].
    rewrite IH. intuition.
Qed.

Lemma newest_first_In (A : Type) (at_ : A -> Z) (x : A) (rows : list A) :
  In x (newest_first at_ rows) <-> In x rows.
Proof.
  induction rows as [|y rows IH]; simpl; [reflexivity|].
  rewrite newest_first_insert_In, IH. intuition.
Qed.

(** *** The batch filter, deleting and rewriting a batch *)

Lemma in_batch_spec (original n : Notification) (t : string) :
  title original = Some t ->
  (in_batch original n = true
   <-> about_lead n = None /\ same_batch_key n original).
Proof.
  intros T. unfold in_batch, same_batch_key. rewrite T.
  rewrite !andb_true_iff, !Z.leb_le, String.eqb_eq.
  rewrite <- (startTime_endTime (sent_at original) (sent_at n)).
  destruct (about_lead n) as [l|]; simpl.
  - split; [intros ((((F & _) & _) & _) & _); discriminate F | intros [F _]; discriminate F].
  - destruct (title n) as [found|].
    + rewrite String.eqb_eq. split.
      * intros ((((_ & ->) & M) & L) & U). repeat split; auto.
      * intros (_ & E & M & L & U). inversion E. repeat split; auto.
    + split.
      * intros ((((_ & F) & _) & _) & _). discriminate F.
      * intros (_ & F & _). discriminate F.
Qed.

Lemma delete_batch_run (original : Notification) (w w' : World)
    (o : Outcome (Resp unit)) :
  delete_batch original w = (o, w') ->
  clock w' = clock w /\
  ((o = Returned (Data tt) /\
    notifications (tables w')
    = filter (fun n => negb (in_batch original n)) (notifications (tables w))) \/
   ((forall d, o <> Returned (Data d)) /\ tables w' = tables w)).
Proof.
  unfold delete_batch, call. simpl.
  destruct (faults w) as [|[|message|reason] rest]; intros H; inversion H; subst;
    simpl; split; try reflexivity;
    try (left; split; reflexivity);
    right; split; try reflexivity; intros d D; discriminate D.
Qed.

Lemma distinct_nonempty (i : string) (ids : list string) : distinct (i :: ids) <> [].
Proof. simpl. discriminate. Qed.

Section RewritingABatch.

Variables (original : Notification) (newTitle newMessage : string) (w : World).

Let before := notifications (tables w).
Let batch := filter (in_batch original) before.
Let others := filter (fun n => negb (in_batch original n)) before.

(** The rows [updateSentNotification] inserts: one for each recipient of the
    batch, with the new texts trimmed. *)
Definition resent (ids : list string) : list Notification :=
  with_ids (clock w) ids
    (map (fun userId =>
            mkNewNotification userId (trim newTitle) (trim newMessage) None None)
         (distinct (map recipient batch))).

Lemma updateSentNotification_run (w' : World) (o : Outcome unit) :
  updateSentNotification original newTitle newMessage w = (o, w') ->
  ((exists e, o = Thrown e) /\ notifications (tables w') = before) \/
  (o = Returned tt /\ batch = [] /\ notifications (tables w') = before) \/
  (batch <> [] /\ (exists e, o = Thrown e) /\ notifications (tables w') = others) \/
  (batch <> [] /\ o = Returned tt /\
   exists ids,
     List.length ids = List.length (distinct (map recipient batch)) /\
     notifications (tables w') = (others ++ resent ids)%list).
Proof.
  unfold updateSentNotification. intros H.
  apply bind_run in H. destruct H as [(r & w1 & E1 & H)|(e & E1 & ->)].
  2:{ left. split; [now exists e|].
      apply reading_run in E1. destruct E1 as (_ & _ & T & _). now rewrite T. }
  pose proof E1 as K1. apply reading_run in E1. destruct E1 as (_ & _ & T1 & D1).
  destruct r as [originalBatch|message].
  2:{ inversion H; subst. left. split; [eexists; reflexivity | now rewrite T1]. }
  specialize (D1 _ eq_refl). inversion D1 as [B]. fold before in B. fold batch in B.
  destruct originalBatch as [|first rest].
  { unfold bind, log, ret in H. inversion H; subst. right. left.
    split; [reflexivity|]. split; [|simpl; now rewrite T1].
    destruct batch; [reflexivity | discriminate B]. }
  assert (NE : batch <> []) by (intros Z; rewrite Z in B; discriminate B).
  assert (C1 : clock w1 = clock w).
  { revert K1. unfold call, reading. simpl.
    destruct (faults w) as [|[|m|m] fs]; intros K; inversion K; reflexivity. }
  apply bind_run in H. destruct H as [(d & w2 & E2 & H)|(e & E2 & ->)];
    apply delete_batch_run in E2; destruct E2 as (C2 & [(D2 & N2)|(D2 & T2)]);
    try (exfalso; eapply D2; reflexivity); try discriminate D2.
  3:{ left. split; [now exists e|]. now rewrite T2, T1. }
  - inversion D2; subst d. rewrite T1 in N2. fold before in N2. fold others in N2.
    rewrite <- B in H.
    destruct (distinct (map recipient batch)) as [|u us] eqn:Dd.
    { rewrite B in Dd. simpl in Dd. discriminate Dd. }
    apply bind_run in H. destruct H as [(i & w3 & E3 & H)|(e & E3 & ->)];
      apply insert_notifications_run in E3;
      destruct E3 as [(ids & L & D3 & N3)|(D3 & T3)];
      try discriminate D3.
    + inversion D3; subst i. inversion H; subst.
      right. right. right. split; [exact NE|]. split; [reflexivity|].
      exists ids. split.
      * rewrite L, length_map. reflexivity.
      * rewrite N3, N2. unfold resent. rewrite Dd, C2, C1. reflexivity.
    + destruct i as [[]|message].
      * exfalso. eapply D3. reflexivity.
      * inversion H; subst. right. right. left.
        split; [exact NE|]. split; [eexists; reflexivity|].
        now rewrite T3, N2.
    + right. right. left. split; [exact NE|]. split; [now exists e|].
      now rewrite T3, N2.
  - destruct d as [[]|message].
    + exfalso. eapply D2. reflexivity.
    + inversion H; subst. left. split; [eexists; reflexivity|]. now rewrite T2, T1.
Qed.

End RewritingABatch.

Lemma deleteSentNotification_run (original : Notification) (w w' : World)
    (o : Outcome unit) :
  deleteSentNotification original w = (o, w') ->
  (o = Returned tt /\
   notifications (tables w')
   = filter (fun n => negb (in_batch original n)) (notifications (tables w))) \/
  ((exists e, o = Thrown e) /\ notifications (tables w') = notifications (tables w)).
Proof.
  unfold deleteSentNotification. intros H.
  apply bind_run in H. destruct H as [(d & w1 & E & H)|(e & E & ->)];
    apply delete_batch_run in E; destruct E as (_ & [(D & N)|(D & T)]);
    try discriminate D.
  - inversion D; subst d. inversion H; subst. now left.
  - destruct d as [[]|message].
    + exfalso. eapply D. reflexivity.
    + inversion H; subst. right. split; [eexists; reflexivity | now rewrite T].
  - right. split; [now exists e | now rewrite T].
Qed.

(** C5, as the code has it. Among the notifications sent by hand (no lead
    link, a title), [getSentNotifications] lists one notification for each
    text key [title|message|minute] that occurs, and so one for each (title,
    message, clock minute) batch when no title holds the separator ['|'].
    The filter of
    [updateSentNotification] and [deleteSentNotification] selects exactly the
    rows with no lead link whose title, message and clock minute are those of
    the given notification (which has a title): a delete that succeeds
    removes exactly these rows, an update that succeeds replaces them by one
    new row for each of their recipients with the new texts trimmed (and
    changes nothing when there is no such row), and in every outcome a row
    outside the filter, such as one created in another clock minute, stays
    in the table. *)
Theorem sent_notification_batches :
  (forall (w w' : World) (listed : list Notification),
     getSentNotifications w = (Returned listed, w') ->
     let sent := filter sent_by_hand (notifications (tables w)) in
     (forall n, In n listed -> In n sent) /\
     NoDup (map groupKey listed) /\
     (forall n, In n sent -> exists r, In r listed /\ groupKey r = groupKey n) /\
     ((forall n, In n sent -> plain n) ->
      forall n, In n sent ->
        exists r, In r listed /\ same_batch_key r n /\
                  forall r', In r' listed -> same_batch_key r' n -> r' = r)) /\
  (forall (original n : Notification) (t : string),
     title original = Some t ->
     (in_batch original n = true
      <-> about_lead n = None /\ same_batch_key n original) /\
     (~ same_minute (sent_at n) (sent_at original) -> in_batch original n = false)) /\
  (forall (original : Notification) (w : World),
     let run := deleteSentNotification original w in
     let before := notifications (tables w) in
     let after := notifications (tables (snd run)) in
     (forall n, In n before -> in_batch original n = false -> In n after) /\
     ((fst run = Returned tt /\
       after = filter (fun n => negb (in_batch original n)) before) \/
      ((exists e, fst run = Thrown e) /\ after = before))) /\
  (forall (original : Notification) (newTitle newMessage : string) (w : World),
     let run := updateSentNotification original newTitle newMessage w in
     let before := notifications (tables w) in
     let after := notifications (tables (snd run)) in
     let batch := filter (in_batch original) before in
     let others := filter (fun n => negb (in_batch original n)) before in
     (forall n, In n before -> in_batch original n = false -> In n after) /\
     (fst run = Returned tt ->
      (batch = [] /\ after = before) \/
      (batch <> [] /\
       exists ids,
         List.length ids = List.length (distinct (map recipient batch)) /\
         after = (others ++ resent original newTitle newMessage w ids)%list))).
Proof.
  split; [|split; [|split]].
  - intros w w' listed H sent. unfold getSentNotifications in H.
    apply bind_returned in H. destruct H as (r & w1 & E & H).
    destruct r as [rows|message]; [|discriminate H].
    apply call_served in E. unfold reading in E. inversion E as [[R T]].
    fold sent in R. inversion H; subst listed w'; clear H.
    destruct (grouped_values rows) as (N & Sub & Cov).
    assert (In_rows : forall n, In n rows <-> In n sent)
      by (intros n; rewrite <- R; apply newest_first_In).
    split; [|split; [|split]].
    + intros n I. apply In_rows. now apply Sub.
    + exact N.
    + intros n I. apply Cov. now apply In_rows.
    + intros P n I.
      destruct (Cov n (proj2 (In_rows n) I)) as (r & Ir & Kr).
      assert (Pr : plain r) by (apply P, In_rows, Sub, Ir).
      exists r. split; [exact Ir|]. split.
      * apply groupKey_same_batch_key; auto.
      * intros r' Ir' Kr'.
        assert (Pr' : plain r') by (apply P, In_rows, Sub, Ir').
        apply (NoDup_map_inj _ _ groupKey _ r' r N Ir' Ir).
        rewrite Kr. apply groupKey_same_batch_key; auto.
  - intros original n t T. split; [exact (in_batch_spec original n t T)|].
    intros Hm. destruct (in_batch original n) eqn:B; [|reflexivity].
    apply (in_batch_spec _ _ _ T) in B. destruct B as (_ & _ & _ & M). contradiction.
  - intros original w run before after. subst run before after.
    destruct (deleteSentNotification original w) as [o w'] eqn:R. cbn [fst snd].
    apply deleteSentNotification_run in R.
    split; [|exact R].
    intros n I B. destruct R as [(_ & ->)|(_ & ->)]; [|exact I].
    apply filter_In. split; [exact I|]. now rewrite B.
  - intros original newTitle newMessage w run before after batch others.
    subst run before after batch others.
    destruct (updateSentNotification original newTitle newMessage w) as [o w'] eqn:R.
    cbn [fst snd].
    apply updateSentNotification_run in R.
    assert (Keep : forall n,
              In n (notifications (tables w)) -> in_batch original n = false ->
              In n (filter (fun n => negb (in_batch original n))
                           (notifications (tables w)))).
    { intros n I B. apply filter_In. split; [exact I|]. now rewrite B. }
    split.
    + intros n I B.
      destruct R as [(_ & ->)|[(_ & _ & ->)|[(_ & _ & ->)|(_ & _ & ids & _ & ->)]]];
        auto.
      apply in_or_app. left. auto.
    + intros ->.
      destruct R as [([e E] & _)|[(_ & B & A)|[(_ & [e E] & _)|(NE & _ & ids & L & A)]]];
        try discriminate E.
      * left. now split.
      * right. split; [exact NE|]. now exists ids.
Qed.

(** Two notifications of the same text in the same clock minute, one sent by
    hand and one raised by a new lead. *)
Definition by_hand : Notification :=
  mkNotification "n-1" "user-1" (Some "Nuovo Lead Ricevuto!") "Controlla i tuoi lead."
                 false None None 1710498605000.

Definition by_lead : Notification :=
  mkNotification "n-2" "user-1" (Some "Nuovo Lead Ricevuto!") "Controlla i tuoi lead."
                 false (Some "lead-1") (Some "client-1") 1710498630000.

Definition inbox (rows : list Notification) : World :=
  mkWorld (mkTables [] [] [] [] rows []) [] [] 1710500000000
          (fun n => String (ascii_of_nat (97 + n)) EmptyString) 0 [] [].

(** C5 as stated fails on the code: the row raised by the lead has the
    title, the message and the clock minute of the notification that is
    deleted, and it is not deleted. *)
Lemma lead_row_outlives_its_batch :
  same_batch_key by_lead by_hand /\
  fst (deleteSentNotification by_hand (inbox [by_hand; by_lead])) = Returned tt /\
  notifications (tables (snd (deleteSentNotification by_hand (inbox [by_hand; by_lead]))))
  = [by_lead].
Proof. repeat split. Qed.

(** Three notifications sent by hand with one text: two in one clock minute,
    the third in the following minute. *)
Definition promo (rowId user : string) (t : Z) : Notification :=
  mkNotification rowId user (Some "Promo") "Sconto del 10%" false None None t.

Definition three_rows : list Notification :=
  [promo "n-1" "user-1" 1710498605000; promo "n-2" "user-2" 1710498659999;
   promo "n-3" "user-3" 1710498660000].

Lemma sent_notification_batches_witness :
  (in_batch (promo "n-1" "user-1" 1710498605000)
            (promo "n-3" "user-3" 1710498660000) = false) /\
  fst (getSentNotifications (inbox three_rows))
  = Returned [promo "n-3" "user-3" 1710498660000; promo "n-2" "user-2" 1710498659999] /\
  notifications
    (tables (snd (deleteSentNotification (promo "n-2" "user-2" 1710498659999)
                    (inbox three_rows))))
  = [promo "n-3" "user-3" 1710498660000].
Proof.
  split; [|split].
  - apply (proj1 (proj2 sent_notification_batches)
                 (promo "n-1" "user-1" 1710498605000)
                 (promo "n-3" "user-3" 1710498660000) "Promo").
    + reflexivity.
    + vm_compute. discriminate.
  - vm_compute. reflexivity.
  - vm_compute. reflexivity.
Defined.

(** The text key confuses two batches whose title and message differ only in
    where the separator falls: sent in one clock minute, they are listed as
    one. *)
Definition saldi_estate : Notification :=
  mkNotification "n-1" "user-1" (Some "Saldi|Estate") "50%" false None None 1710498605000.

Definition saldi : Notification :=
  mkNotification "n-2" "user-2" (Some "Saldi") "Estate|50%" false None None 1710498606000.

Lemma separator_merges_two_batches :
  ~ same_batch_key saldi_estate saldi /\
  groupKey saldi_estate = groupKey saldi /\
  fst (getSentNotifications (inbox [saldi_estate; saldi])) = Returned [saldi].
Proof.
  split; [|split].
  - intros (T & _). discriminate T.
  - vm_compute. reflexivity.
  - vm_compute. reflexivity.
Qed.

(** *** A small backend for the worked examples *)

Definition demo_service : Service :=
  mkService (Some "service_1") (Some "Impianti")
            (Some [mkField (Some "field_1") "nome"]) None None.

Definition demo_settings : Service :=
  mkService (Some sentinel) (Some "_mws_settings") None (Some 100) (Some 20).

Definition demo_row : ClientRow :=
  mkClientRow "client-1" "user-1" "Acme"
              (Value (JArray [Some demo_service; Some demo_settings]))
              (Some "https://hooks.example/quotes").

Definition demo_lead : Lead :=
  mkLead "lead-1" "client-1" [("nome", "Rossi")] None "Vinto" (Some 1000) 1710498600000.

(** Fresh identifiers: [a], [b], [c], ... *)
Definition letters (n : nat) : string :=
  String (ascii_of_nat (97 + n)) EmptyString.

Definition demo_quote : Quote :=
  mkQuote "quote-1" "lead-1" "client-1" "draft"
          (ItemsObject [("0", "sopralluogo"); ("1", "installazione")]).

Definition demo_tables : Tables :=
  mkTables [demo_row] [demo_lead] [mkAdSpend "spend-1" "client-1" 200 1710460800000]
           [mkProfile "user-1" "client"; mkProfile "user-9" "admin"] [] [demo_quote].

Definition demo_world : World :=
  mkWorld demo_tables [] [] 1710500000000 letters 0 [] [].

(** The client an outcome carries. *)
Definition returned_client (o : Outcome Client) : option Client :=
  match o with
  | Returned c => Some c
  | Thrown _ => None
  end.

(** An update of the services list alone, with a new service whose id is
    the reserved one. *)
Definition reserved_id_update : Updates :=
  mkUpdates None
    (Some [mkService (Some sentinel) (Some "Promo") None None None])
    None None None.

(** C3 as stated fails on the code: the client has fee 100 and 20 percent;
    after an update of its services list alone, with a service that carries
    the reserved id, the stored row unpacks to no fee and no percentage. *)
Lemma reserved_id_loses_settings :
  client_fixed_fee (unpackMwsSettings (of_row demo_row)) = Some 100 /\
  client_profit_percentage (unpackMwsSettings (of_row demo_row)) = Some 20 /\
  option_map (fun c => client_fixed_fee (settings c))
    (returned_client (fst (updateClient "client-1" reserved_id_update demo_world)))
  = Some None /\
  option_map (fun c => client_profit_percentage (settings c))
    (returned_client (fst (updateClient "client-1" reserved_id_update demo_world)))
  = Some None /\
  map (fun r => client_fixed_fee (unpackMwsSettings (of_row r)))
      (clients (tables (snd (updateClient "client-1" reserved_id_update demo_world))))
  = [None].
Proof. repeat split. Qed.

(** An update of the two commission parameters and of the services list. *)
Definition demo_update : Updates :=
  mkUpdates None
    (Some [mkService (Some "new_1") (Some "Fotovoltaico")
                     (Some [mkField None "telefono"]) None None])
    (Some 150) (Some 25) None.

Definition demo_updated : Outcome Client * World :=
  Eval vm_compute in updateClient "client-1" demo_update demo_world.

Lemma commission_settings_round_trip_witness :
  exists before after : ClientRow,
    filter (has_id "client-1") (clients (tables demo_world)) = [before] /\
    filter (has_id "client-1") (clients (tables (snd demo_updated))) = [after] /\
    option_map settings (returned_client (fst demo_updated))
    = Some (unpackMwsSettings (of_row after)) /\
    client_fixed_fee (unpackMwsSettings (of_row after)) = Some 150 /\
    client_profit_percentage (unpackMwsSettings (of_row after)) = Some 25.
Proof.
  destruct (commission_settings_round_trip "client-1" demo_update demo_world
              (snd demo_updated)
              (mkClient (unpackMwsSettings
                           (of_row (hd demo_row (clients (tables (snd demo_updated))))))
                        [] []))
    as (before & after & B & A & S & F & P).
  - intros ss s E. inversion E; subst. intros [<-|[]]. discriminate.
  - vm_compute. reflexivity.
  - exists before, after. repeat split; try assumption.
    vm_compute in A. inversion A; subst. reflexivity.
Defined.

Lemma settings_never_exposed_witness :
  no_settings_entry
    (visible_services
       (settings (mkClient (unpackMwsSettings (of_row demo_row)) [demo_lead]
                           [mkAdSpend "spend-1" "client-1" 200 1710460800000]))).
Proof.
  apply (proj1 (proj2 settings_never_exposed) "user-1" demo_world
               (snd (getClientByUserId "user-1" demo_world))).
  vm_compute. reflexivity.
Defined.



(** A new lead while the backend rejects the lookup of the admins: the lead
    is returned, and the failure is on the console. *)
Definition demo_options : AddLeadOptions :=
  mkAddLeadOptions "client-1" [("nome", "Bianchi")] (Some "Impianti") None None None.

Lemma addLead_independent_of_notifications_witness :
  fst (addLead demo_options (set_faults [Healthy; Healthy; Rejects "timeout"] demo_world))
  = Returned (mkLead "a" "client-1" [("nome", "Bianchi")] (Some "Impianti") "Nuovo"
                     None 1710500000000) /\
  console (snd (addLead demo_options
                  (set_faults [Healthy; Healthy; Rejects "timeout"] demo_world)))
  = ["Failed to create notifications: timeout"] /\
  map recipient (notifications (tables (snd (addLead demo_options demo_world))))
  = ["user-1"; "user-9"].
Proof.
  split; [|split].
  - rewrite (proj1 (addLead_independent_of_notifications demo_options
                      (set_faults [Healthy; Healthy; Rejects "timeout"] demo_world))).
    reflexivity.
  - reflexivity.
  - destruct (proj2 (proj2 (proj2 (addLead_independent_of_notifications
                                     demo_options demo_world)))
                demo_row "user-9" [])
      as (newLead & w2 & ids & E & L & N).
    + reflexivity.
    + discriminate.
    + reflexivity.
    + reflexivity.
    + rewrite E. cbn [snd]. rewrite N.
      destruct ids as [|a [|b [|c ids]]]; try discriminate L. reflexivity.
Defined.

(** The webhook of the client answers 500. *)
Lemma webhook_failure_keeps_status_witness :
  fst (sendQuoteByWebhook "quote-1" (set_endpoint [Response 500 "boom"] demo_world))
  = Thrown "Il server webhook ha risposto con un errore: 500 - boom" /\
  quotes (tables (snd (sendQuoteByWebhook "quote-1"
                         (set_endpoint [Response 500 "boom"] demo_world))))
  = [demo_quote].
Proof.
  destruct (proj1 (webhook_failure_keeps_status "quote-1"
                     (set_endpoint [Response 500 "boom"] demo_world))
              "https://hooks.example/quotes"
              (mkWebhookPayload "quote_sent_by_email" demo_quote
                 (ItemsArray ["sopralluogo"; "installazione"]) [("nome", "Rossi")])
              500%Z "boom") as (T & Q & _).
  - vm_compute. do 3 right. left. reflexivity.
  - reflexivity.
  - reflexivity.
  - split; [exact T | exact Q].
Defined.

(** *** Unpacking twice *)

Lemma user_service_is_not_settings (s : Entry) :
  is_user_service s = true -> is_settings s = false.
Proof.
  destruct s as [s|]; [|reflexivity]. simpl.
  destruct (service_id s) as [i|]; [|reflexivity].
  now destruct (String.eqb i sentinel).
Qed.

Lemma find_settings_user_services (entries : list Entry) :
  find is_settings (filter is_user_service entries) = None.
Proof.
  induction entries as [|e rest IH]; [reflexivity|].
  simpl. destruct (is_user_service e) eqn:U; [|exact IH].
  rewrite find_cons, (user_service_is_not_settings e U). exact IH.
Qed.

Lemma filter_idem (A : Type) (f : A -> bool) (xs : list A) :
  filter f (filter f xs) = filter f xs.
Proof.
  induction xs as [|x xs IH]; [reflexivity|].
  simpl. destruct (f x) eqn:F; [|exact IH].
  simpl. now rewrite F, IH.
Qed.

(** Unpacking a client that is already unpacked changes nothing: the
    services list stays as it is and the commission parameters stay the ones
    the first unpacking found, so the pages may hand a client back to the
    facade's readers without losing its settings. *)
Theorem unpackMwsSettings_idempotent :
  forall c : ClientData,
    unpackMwsSettings (unpackMwsSettings c) = unpackMwsSettings c.
Proof.
  intros c. rewrite (unpack_stored (unpackMwsSettings c)). cbv zeta.
  rewrite unpack_services.
  change (stored_array (Value (JArray ?xs))) with xs.
  rewrite find_settings_user_services, filter_idem.
  rewrite (unpack_stored c). cbv zeta.
  destruct (find is_settings (stored_array (services (columns c)))) as [[m|]|];
    reflexivity.
Qed.

(** *** The identifiers [updateClient] assigns *)

(** What [updateClient] stores for a field it is given: the same field, with
    its id when that is set and does not start with [new_], else with a
    generated one. *)
Definition assigned_field (f f' : Field) : Prop :=
  field_name f' = field_name f /\
  if stable_id (field_id f) then field_id f' = field_id f
  else exists token, field_id f' = Some ("field_" ++ token).

(** The same for a service and its fields. *)
Definition assigned (s s' : Service) : Prop :=
  service_name s' = service_name s /\
  mws_fixed_fee s' = mws_fixed_fee s /\
  mws_profit_percentage s' = mws_profit_percentage s /\
  (if stable_id (service_id s) then service_id s' = service_id s
   else exists token, service_id s' = Some ("service_" ++ token)) /\
  match fields s, fields s' with
  | Some fs, Some fs' => Forall2 assigned_field fs fs'
  | None, None => True
  | _, _ => False
  end.

Lemma assign_field_id_assigned (f f' : Field) (w w' : World) :
  assign_field_id f w = (Returned f', w') -> assigned_field f f'.
Proof.
  unfold assign_field_id, assigned_field.
  destruct (stable_id (field_id f)) eqn:St; intros H.
  - inversion H; subst. split; reflexivity.
  - run_inversion H. inversion H; subst. split; [reflexivity|]. eexists; reflexivity.
Qed.

Lemma for_each_assign_field_id (fs fs' : list Field) (w w' : World) :
  for_each assign_field_id fs w = (Returned fs', w') -> Forall2 assigned_field fs fs'.
Proof.
  revert fs' w w'. induction fs as [|f fs IH]; intros fs' w w' H; simpl in H.
  - inversion H; subst. constructor.
  - run_inversion H. inversion H; subst. constructor.
    + eapply assign_field_id_assigned; eauto.
    + eapply IH; eauto.
Qed.

Lemma stable_not_generated (i : string) :
  stable_id (Some i) = false -> String.eqb i sentinel = false.
Proof.
  intros H. destruct (String.eqb i sentinel) eqn:E; [|reflexivity].
  apply String.eqb_eq in E. subst i. discriminate H.
Qed.

Lemma assign_ids_assigned (s s' : Service) (w w' : World) :
  assign_ids s w = (Returned s', w') -> assigned s s'.
Proof.
  unfold assign_ids. intros H. run_inversion H. inversion H; subst; clear H.
  unfold assigned. cbn [service_name mws_fixed_fee mws_profit_percentage service_id fields].
  split; [reflexivity|]. split; [reflexivity|]. split; [reflexivity|]. split.
  - destruct (stable_id (service_id s)) eqn:St.
    + inversion E; subst. reflexivity.
    + destruct (service_id s) as [i|] eqn:I.
      * rewrite (stable_not_generated i St) in E.
        run_inversion E. inversion E; subst. eexists; reflexivity.
      * run_inversion E. inversion E; subst. eexists; reflexivity.
  - destruct (fields s) as [fs|].
    + run_inversion E0. inversion E0; subst.
      eapply for_each_assign_field_id; eauto.
    + inversion E0; subst. exact I.
Qed.

Lemma for_each_assigned (ss ss' : list Service) (w w' : World) :
  for_each assign_ids ss w = (Returned ss', w') -> Forall2 assigned ss ss'.
Proof.
  revert ss' w w'. induction ss as [|s ss IH]; intros ss' w w' H; simpl in H.
  - inversion H; subst. constructor.
  - run_inversion H. inversion H; subst. constructor.
    + eapply assign_ids_assigned; eauto.
    + eapply IH; eauto.
Qed.

Lemma assigned_user_service (s s' : Service) :
  assigned s s' -> service_id s <> Some sentinel -> is_user_service (Some s') = true.
Proof.
  intros (_ & _ & _ & I & _) N. simpl.
  destruct (stable_id (service_id s)) eqn:St.
  - rewrite I. destruct (service_id s) as [i|]; [|reflexivity].
    destruct (String.eqb i sentinel) eqn:E; [|reflexivity].
    apply String.eqb_eq in E. subst i. now contradiction N.
  - destruct I as (token & ->). now rewrite generated_not_sentinel.
Qed.

Lemma assigned_settings (s s' : Service) :
  assigned s s' -> is_settings (Some s) = true -> is_user_service (Some s') = false.
Proof.
  intros (_ & _ & _ & I & _) S. apply is_settings_id in S.
  rewrite S in I. rewrite sentinel_stable in I. simpl. rewrite I.
  reflexivity.
Qed.

Lemma visible_assigned (ss us' : list Service) :
  Forall2 assigned ss us' ->
  (forall s, In s ss -> service_id s <> Some sentinel) ->
  filter is_user_service (map Some us') = map Some us'.
Proof.
  induction 1 as [|s s' ss us' A _ IH]; intros N; [reflexivity|].
  change (map Some (s' :: us')) with (Some s' :: map Some us').
  cbn [filter]. rewrite (assigned_user_service s s' A (N s (or_introl eq_refl))).
  f_equal. apply IH. intros x Hx. apply N. now right.
Qed.

(** What a successful [updateClient] had stored. *)
Lemma updateClient_stored (clientId : string) (updates : Updates) (w w' : World)
    (c : Client) :
  updateClient clientId updates w = (Returned c, w') ->
  exists (row : ClientRow) (withIds : option (list Service)),
    filter (has_id clientId) (clients (tables w)) = [row] /\
    settings c
    = unpackMwsSettings
        (of_row (apply_patch (mkPatch (upd_name updates) withIds
                                      (upd_quote_webhook_url updates)) row)) /\
    if given (upd_mws_fixed_fee updates) || given (upd_mws_profit_percentage updates)
       || given (upd_services updates)
    then exists ss',
        withIds = Some ss' /\
        Forall2 assigned
          ((match upd_services updates with
            | Some ss => ss
            | None => userServices (current_array (services row))
            end) ++ [packed_settings updates (services row)])%list ss'
    else withIds = None.
Proof.
  intros H. unfold updateClient in H. run_inversion H.
  destruct a1 as [data|message]; [|discriminate H].
  inversion H; subst c w'; clear H.
  rename a into packed, a0 into withIds.
  assert (T1 : tables w1 = tables w0).
  { revert E0. apply (fun m (K : quiet m) => K w0 (Returned withIds) w1).
    destruct packed as [ss|]; [|apply keeps_ret].
    apply keeps_bind; [apply keeps_for_each, quiet_assign_ids|].
    intros ss'. apply keeps_ret. }
  assert (T0 : tables w0 = tables w).
  { revert E. apply (fun m (K : quiet m) => K w (Returned packed) w0).
    destruct (_ || given (upd_services updates)); [|apply keeps_ret].
    apply keeps_bind; [apply keeps_reading|].
    intros [column|message];
      [apply keeps_ret | apply keeps_throw]. }
  apply call_served in E1. unfold update_client in E1.
  destruct (filter (has_id clientId) (clients (tables w1)))
    as [|row [|row' rows]] eqn:Frow; try discriminate E1.
  inversion E1 as [[Hdata Htables]]; clear E1 Htables.
  rewrite T1, T0 in Frow.
  exists row, withIds. split; [exact Frow|]. split; [reflexivity|].
  destruct (_ || given (upd_services updates)) eqn:C.
  - apply bind_returned in E. destruct E as (r & wr & Er & E).
    destruct r as [column|message]; [|discriminate E].
    apply call_served in Er. unfold reading in Er.
    rewrite Frow in Er. simpl in Er. inversion Er as [[Hc Ht]]; subst column.
    inversion E; subst packed w0; clear E.
    run_inversion E0. inversion E0; subst withIds; clear E0.
    apply for_each_assigned in E. eexists; split; [reflexivity | exact E].
  - inversion E; subst packed w0; clear E.
    apply orb_false_elim in C. destruct C as [_ C3].
    destruct (upd_services updates); [discriminate C3|].
    now inversion E0.
Qed.

Lemma userServices_filter (entries : list Entry) :
  map Some (userServices entries) = filter is_user_service entries.
Proof.
  induction entries as [|[e|] rest IH]; [reflexivity| |exact IH].
  cbn [userServices filter].
  destruct (is_user_service (Some e)); [|exact IH].
  cbn [map]. now rewrite IH.
Qed.

Lemma visible_stored (given_ ss' : list Service) (m : Service) :
  Forall2 assigned (given_ ++ [m])%list ss' ->
  (forall s, In s given_ -> service_id s <> Some sentinel) ->
  is_settings (Some m) = true ->
  exists us',
    filter is_user_service (map Some ss') = map Some us' /\
    Forall2 assigned given_ us'.
Proof.
  intros F N S.
  apply Forall2_app_inv_l in F. destruct F as (us' & ms' & Fu & Fm & ->).
  inversion Fm as [|m0 m' l l' Am Fnil]; subst. inversion Fnil; subst.
  exists us'. split; [|exact Fu].
  pose proof (visible_assigned _ _ Fu N) as V.
  rewrite map_app, filter_app.
  cbn [map filter]. rewrite (assigned_settings m m' Am S).
  rewrite app_nil_r. exact V.
Qed.

(** A successful [updateClient] hands back the services list it was given
    (no entry of which carries the reserved id), in its order and with the
    name and the fields of each service. An id that is set and does not
    start with [new_] is kept; any other is replaced by a generated
    [service_...] (for a field [field_...]) id. When the update gives only
    commission parameters, the same holds of the services the client had;
    when it gives neither, the services are the ones the client had. *)
Theorem updateClient_returns_the_services :
  forall (clientId : string) (updates : Updates) (w w' : World) (c : Client),
    (forall ss s, upd_services updates = Some ss -> In s ss ->
                  service_id s <> Some sentinel) ->
    updateClient clientId updates w = (Returned c, w') ->
    exists before : ClientRow,
      filter (has_id clientId) (clients (tables w)) = [before] /\
      match upd_services updates with
      | Some ss =>
        exists ss',
          visible_services (settings c) = map Some ss' /\ Forall2 assigned ss ss'
      | None =>
        if given (upd_mws_fixed_fee updates) || given (upd_mws_profit_percentage updates)
        then
          exists ss ss',
            visible_services (unpackMwsSettings (of_row before)) = map Some ss /\
            visible_services (settings c) = map Some ss' /\
            Forall2 assigned ss ss'
        else
          visible_services (settings c)
          = visible_services (unpackMwsSettings (of_row before))
      end.
Proof.
  intros clientId updates w w' c Hres H.
  destruct (updateClient_stored _ _ _ _ _ H) as (row & withIds & Frow & -> & Stored).
  exists row. split; [exact Frow|].
  rewrite !unpack_visible.
  change (services (columns (of_row ?r))) with (services r).
  cbn [apply_patch services patch_services].
  destruct (upd_services updates) as [ss|] eqn:U.
  - rewrite orb_true_r in Stored. destruct Stored as (ss' & -> & F).
    change (stored_array (Value (JArray ?xs))) with xs.
    apply (visible_stored ss ss' _ F); [|apply packed_settings_is_settings].
    intros s Hs. now apply (Hres ss).
  - rewrite orb_false_r in Stored.
    destruct (given (upd_mws_fixed_fee updates)
              || given (upd_mws_profit_percentage updates)).
    + destruct Stored as (ss' & -> & F).
      change (stored_array (Value (JArray ?xs))) with xs.
      destruct (visible_stored _ ss' _ F) as (us' & V & Fu).
      * intros s Hs. apply userServices_In in Hs.
        intros I. apply is_settings_id in I. congruence.
      * apply packed_settings_is_settings.
      * exists (userServices (current_array (services row))), us'.
        split; [|split; assumption].
        now rewrite userServices_filter, current_array_stored.
    + now subst withIds.
Qed.

Lemma updateClient_returns_the_services_witness :
  exists ss',
    option_map (fun c => visible_services (settings c))
               (returned_client (fst demo_updated)) = Some (map Some ss') /\
    Forall2 assigned
      [mkService (Some "new_1") (Some "Fotovoltaico")
                 (Some [mkField None "telefono"]) None None] ss'.
Proof.
  destruct (updateClient_returns_the_services "client-1" demo_update demo_world
              (snd demo_updated)
              (mkClient (unpackMwsSettings
                           (of_row (hd demo_row (clients (tables (snd demo_updated))))))
                        [] []))
    as (before & _ & ss' & V & F).
  - intros ss s E. inversion E; subst. intros [<-|[]]. discriminate.
  - vm_compute. reflexivity.
  - exists ss'. split; [|exact F]. rewrite <- V. vm_compute. reflexivity.
Defined.

(** *** A client that is not there *)

(** [updateClient] on an id that no row, or more than one row, of the table
    carries throws, whatever the update and whatever the backend does, and
    writes nothing. *)
Theorem updateClient_unknown_client :
  forall (clientId : string) (updates : Updates) (w : World),
    (forall row, filter (has_id clientId) (clients (tables w)) <> [row]) ->
    (exists e, fst (updateClient clientId updates w) = Thrown e) /\
    tables (snd (updateClient clientId updates w)) = tables w.
Proof.
  intros clientId updates w Missing.
  assert (S : forall A (f : ClientRow -> A) t,
            t = tables w ->
            exists e, single (map f (filter (has_id clientId) (clients t))) = Error e).
  { intros A f t ->.
    destruct (filter (has_id clientId) (clients (tables w))) as [|row [|row' rows]] eqn:F.
    - eexists; reflexivity.
    - now contradiction (Missing row).
    - eexists; reflexivity. }
  destruct (updateClient clientId updates w) as [o w'] eqn:R. cbn [fst snd].
  unfold updateClient in R.
  apply bind_run in R. destruct R as [(packed & w0 & E & R)|(e & E & ->)].
  - destruct (_ || given (upd_services updates)) eqn:C.
    + exfalso. apply bind_run in E. destruct E as [(r & wr & Er & E)|(e & Er & Q)];
        [|discriminate Q].
      apply call_run in Er. destruct Er as (_ & _ & [(e & Q & _)|[(m & Q & _)|(x & Q & Sv)]]).
      * discriminate Q.
      * inversion Q; subst r. discriminate E.
      * inversion Q; subst x. unfold reading in Sv.
        destruct (S _ services (tables w) eq_refl) as (e & Se).
        rewrite Se in Sv. inversion Sv; subst r. discriminate E.
    + inversion E; subst packed w0; clear E.
      apply orb_false_elim in C. destruct C as [_ C3].
      destruct (upd_services updates); [discriminate C3|].
      apply bind_run in R. destruct R as [(withIds & w1 & E & R)|(e & E & _)];
        [|discriminate E].
      inversion E; subst withIds w1; clear E.
      apply bind_run in R. destruct R as [(r & w2 & E & R)|(e & E & ->)].
      * apply call_run in E.
        destruct E as (_ & _ & [(e & Q & _)|[(m & Q & T)|(x & Q & Sv)]]).
        -- discriminate Q.
        -- inversion Q; subst r. inversion R; subst.
           split; [eexists; reflexivity | exact T].
        -- inversion Q; subst x. unfold update_client in Sv.
           destruct (filter (has_id clientId) (clients (tables w)))
             as [|row [|row' rows]] eqn:F.
           ++ inversion Sv; subst. inversion R; subst.
              split; [eexists; reflexivity | congruence].
           ++ now contradiction (Missing row).
           ++ inversion Sv; subst. inversion R; subst.
              split; [eexists; reflexivity | congruence].
      * apply call_run in E.
        destruct E as (_ & _ & [(e' & Q & T)|[(m & Q & _)|(x & Q & _)]]);
          try discriminate Q.
        split; [eexists; reflexivity | exact T].
  - split; [eexists; reflexivity|].
    destruct (_ || given (upd_services updates)) eqn:C; [|discriminate E].
    apply bind_run in E. destruct E as [(r & wr & Er & E)|(e' & Er & Q)].
    + apply call_run in Er.
      destruct Er as (_ & _ & [(e' & Q & T)|[(m & Q & T)|(x & Q & Sv)]]).
      * discriminate Q.
      * inversion Q; subst r. inversion E; subst. exact T.
      * unfold reading in Sv. inversion Sv as [[Hx Ht]]. inversion Q as [Hr].
        destruct r; inversion E; subst; congruence.
    + apply call_run in Er.
      destruct Er as (_ & _ & [(e'' & _ & T)|[(m & Q' & _)|(x & Q' & _)]]);
        try discriminate Q'.
      exact T.
Qed.

Lemma updateClient_unknown_client_witness :
  (exists e, fst (updateClient "client-9" demo_update demo_world) = Thrown e) /\
  tables (snd (updateClient "client-9" demo_update demo_world)) = tables demo_world.
Proof.
  apply updateClient_unknown_client.
  intros row. vm_compute. discriminate.
Defined.

(** *** The row [addLead] inserts, and who hears of it *)

Lemma insertNewLead_row (options : AddLeadOptions) (w w1 : World) (newLead : Lead) :
  insertNewLead options w = (Returned newLead, w1) ->
  newLead
  = mkLead (fresh w (drawn w)) (clientId options) (leadData options)
           (lead_service options)
           (match lead_status options with
            | Some st => if truthy st then st else "Nuovo"
            | None => "Nuovo"
            end)
           (lead_value options)
           (match createdAt options with
            | Some (Some t) => t
            | _ => clock w
            end) /\
  tables w1 = set_leads (leads_table (tables w) ++ [newLead]) (tables w).
Proof.
  unfold insertNewLead. intros H.
  apply bind_returned in H. destruct H as (created & w0 & E0 & H).
  assert (C : w0 = w /\ created = match createdAt options with
                                  | Some (Some t) => Some t
                                  | _ => None
                                  end).
  { destruct (createdAt options) as [[t|]|]; inversion E0; subst; now split. }
  destruct C as [-> ->]. clear E0.
  apply bind_returned in H. destruct H as (r & w2 & E & H).
  destruct r as [row|message]; [|discriminate H].
  inversion H as [[Hl Hw]]; subst row w2; clear H.
  unfold insert_lead in E.
  apply bind_returned in E. destruct E as (rowId & w3 & D & E).
  inversion D; subst rowId w3; clear D.
  apply bind_returned in E. destruct E as (t & w4 & N & E).
  inversion N; subst t w4; clear N.
  apply call_served in E. cbn [tables set_drawn clock] in E.
  injection E as Hrow Ht. rewrite <- Ht, <- Hrow. split; [|reflexivity].
  destruct (createdAt options) as [[t|]|]; reflexivity.
Qed.

Lemma addLead_returned (options : AddLeadOptions) (w w' : World) (newLead : Lead) :
  addLead options w = (Returned newLead, w') ->
  exists w1,
    insertNewLead options w = (Returned newLead, w1) /\
    leads_table (tables w') = leads_table (tables w1).
Proof.
  unfold addLead. intros H.
  apply bind_returned in H. destruct H as (l & w1 & E & H).
  apply bind_returned in H. destruct H as ([] & w2 & T & H).
  inversion H; subst l w2; clear H.
  exists w1. split; [exact E|].
  revert T. apply keeps_try_catch.
  - apply keeps_createNotifications. reflexivity.
  - intros e. apply keeps_log.
Qed.

(** The lead [addLead] returns is the row it asked the backend to insert: the
    client, the answers, the service and the value it was given, the status
    it was given or ['Nuovo'] when that is missing or empty, the creation
    date it was given or the backend's clock. The row is added at the end of
    the table and no other lead changes. A creation date that is no date
    makes [addLead] throw before it asks the backend anything. *)
Theorem addLead_inserted_row :
  forall (options : AddLeadOptions) (w : World),
    (forall (newLead : Lead) (w' : World),
       addLead options w = (Returned newLead, w') ->
       lead_client_id newLead = clientId options /\
       data newLead = leadData options /\
       service newLead = lead_service options /\
       value newLead = lead_value options /\
       status newLead
       = match lead_status options with
         | Some st => if truthy st then st else "Nuovo"
         | None => "Nuovo"
         end /\
       created_at newLead
       = match createdAt options with
         | Some (Some t) => t
         | _ => clock w
         end /\
       leads_table (tables w') = (leads_table (tables w) ++ [newLead])%list) /\
    (createdAt options = Some None ->
     addLead options w = (Thrown "Invalid time value", w)).
Proof.
  intros options w. split.
  - intros newLead w' H.
    destruct (addLead_returned _ _ _ _ H) as (w1 & E & L).
    destruct (insertNewLead_row _ _ _ _ E) as (R & T).
    rewrite L, T. rewrite R at 1 2 3 4 5 6. cbn.
    repeat split; reflexivity.
  - intros Invalid. unfold addLead, insertNewLead, bind. now rewrite Invalid.
Qed.

Lemma addLead_inserted_row_witness :
  leads_table (tables (snd (addLead demo_options demo_world)))
  = [demo_lead;
     mkLead "a" "client-1" [("nome", "Bianchi")] (Some "Impianti") "Nuovo"
            None 1710500000000].
Proof.
  destruct (proj1 (addLead_inserted_row demo_options demo_world)
              (mkLead "a" "client-1" [("nome", "Bianchi")] (Some "Impianti") "Nuovo"
                      None 1710500000000)
              (snd (addLead demo_options demo_world)))
    as (_ & _ & _ & _ & _ & _ & T).
  - vm_compute. reflexivity.
  - exact T.
Defined.

Lemma keeps_insertNewLead (X : Type) (field : Tables -> X) (options : AddLeadOptions) :
  (forall ls t, field (set_leads ls t) = field t) ->
  keeps field (insertNewLead options).
Proof.
  intros F. unfold insertNewLead. apply keeps_bind.
  - destruct (createdAt options) as [[t|]|];
      [apply keeps_ret | apply keeps_throw | apply keeps_ret].
  - intros created. apply keeps_bind.
    + unfold insert_lead. apply keeps_bind; [apply keeps_draw|]. intros rowId.
      apply keeps_bind; [apply keeps_now|]. intros t.
      apply keeps_call. intros tb. apply F.
    + intros [row|message]; [apply keeps_ret | apply keeps_throw].
Qed.

Lemma createNotifications_nobody (options : AddLeadOptions) (newLead : Lead)
    (w w' : World) (o : Outcome unit) :
  filter (fun p => String.eqb (role p) "admin") (profiles (tables w)) = []
  \/ (forall row, filter (has_id (clientId options)) (clients (tables w)) <> [row]) ->
  createNotifications options newLead w = (o, w') ->
  tables w' = tables w.
Proof.
  intros Nobody H. unfold createNotifications in H.
  apply bind_run in H. destruct H as [(clientData & w1 & E1 & H)|(e & E1 & _)];
    apply reading_run in E1; destruct E1 as (_ & _ & T1 & D1); [|exact T1].
  apply bind_run in H. destruct H as [(adminUsers & w2 & E2 & H)|(e & E2 & _)];
    apply reading_run in E2; destruct E2 as (_ & _ & T2 & D2); [|congruence].
  destruct clientData as [[clientUser clientName]|message];
    [|inversion H; subst; congruence].
  destruct adminUsers as [[|admin admins]|message];
    try (inversion H; subst; congruence).
  exfalso. specialize (D1 _ eq_refl). specialize (D2 _ eq_refl).
  rewrite T1 in D2. destruct Nobody as [N|N].
  - rewrite N in D2. discriminate D2.
  - destruct (filter (has_id (clientId options)) (clients (tables w)))
      as [|row [|row' rows]] eqn:F; try discriminate D1.
    now contradiction (N row).
Qed.

(** [addLead] creates the two kinds of notification together or not at all:
    when no profile has the role [admin], or when the client row is missing,
    no notification is created, not even the one for the user of the client,
    whatever the backend does. The lead is inserted all the same. *)
Theorem addLead_without_admins :
  forall (options : AddLeadOptions) (w : World),
    filter (fun p => String.eqb (role p) "admin") (profiles (tables w)) = []
    \/ (forall row, filter (has_id (clientId options)) (clients (tables w)) <> [row]) ->
    notifications (tables (snd (addLead options w))) = notifications (tables w) /\
    fst (addLead options w) = fst (insertNewLead options w).
Proof.
  intros options w Nobody.
  destruct (insertNewLead options w) as [[newLead|e] w1] eqn:E.
  - assert (K : notifications (tables w1) = notifications (tables w)
                /\ clients (tables w1) = clients (tables w)
                /\ profiles (tables w1) = profiles (tables w)).
    { repeat split;
        (revert E; apply keeps_insertNewLead; reflexivity). }
    destruct K as (Kn & Kc & Kp).
    assert (Nobody1 :
      filter (fun p => String.eqb (role p) "admin") (profiles (tables w1)) = []
      \/ (forall row, filter (has_id (clientId options)) (clients (tables w1)) <> [row]))
      by (rewrite Kc, Kp; exact Nobody).
    destruct (try_catch_logged (createNotifications options newLead)
                "Failed to create notifications: " w1) as [w2 T].
    assert (A : addLead options w = (Returned newLead, w2))
      by (unfold addLead, bind at 1; rewrite E; unfold bind, ret; now rewrite T).
    rewrite A. cbn [fst snd]. split; [|reflexivity].
    rewrite <- Kn. f_equal.
    unfold try_catch in T.
    destruct (createNotifications options newLead w1) as [[[]|e] w3] eqn:C.
    + inversion T; subst w3. exact (createNotifications_nobody _ _ _ _ _ Nobody1 C).
    + inversion T; subst w2. cbn [tables print].
      exact (createNotifications_nobody _ _ _ _ _ Nobody1 C).
  - assert (A : addLead options w = (Thrown e, w1))
      by (unfold addLead, bind at 1; now rewrite E).
    rewrite A. cbn [fst snd]. split; [|reflexivity].
    revert E. apply keeps_insertNewLead. reflexivity.
Qed.

(** The backend of the examples without its admin. *)
Definition no_admin_world : World :=
  set_tables
    (mkTables [demo_row] [demo_lead] [] [mkProfile "user-1" "client"] [] [demo_quote])
    demo_world.

Lemma addLead_without_admins_witness :
  notifications (tables (snd (addLead demo_options no_admin_world))) = [] /\
  fst (addLead demo_options no_admin_world)
  = fst (insertNewLead demo_options no_admin_world).
Proof.
  apply (addLead_without_admins demo_options no_admin_world).
  left. reflexivity.
Defined.

(** *** What is posted to the webhook, and what follows *)

(** [itemsForPayload]: the items of the quote, the values of a keyed object
    taken as a list. *)
Definition itemsForPayload (rawQuote : Quote) : Items :=
  match quote_items rawQuote with
  | ItemsObject entries => ItemsArray (map snd entries)
  | other => other
  end.

(** What [sendQuoteByWebhook] reads before it posts: the quote, its lead and
    the webhook URL of its client. *)
Record Prepared := mkPrepared {
  prepared_quote : Quote;
  prepared_lead : Lead;
  prepared_url : string
}.

Definition prepared_payload (p : Prepared) : WebhookPayload :=
  mkWebhookPayload "quote_sent_by_email" (prepared_quote p)
                   (itemsForPayload (prepared_quote p)) (data (prepared_lead p)).

(** The three rows are in the tables, each the only one of its key. *)
Definition prepared_from (quoteId : string) (t : Tables) (p : Prepared) : Prop :=
  single (filter (fun q => String.eqb (quote_id q) quoteId) (quotes t))
  = Data (prepared_quote p) /\
  single (filter (fun l => String.eqb (lead_id l) (quote_lead (prepared_quote p)))
                 (leads_table t))
  = Data (prepared_lead p) /\
  single (map quote_webhook_url
              (filter (has_id (quote_client (prepared_quote p))) (clients t)))
  = Data (Some (prepared_url p)) /\
  truthy (prepared_url p) = true.

(** The part of [sendQuoteByWebhook] from the POST on. *)
Definition deliver (quoteId : string) (p : Prepared) : M unit :=
  response <- fetch (prepared_url p) (prepared_payload p) ;;
  if negb (ok (fst response)) then
    throw ("Il server webhook ha risposto con un errore: "
           ++ decimal (fst response) ++ " - " ++ snd response)
  else if negb (String.eqb (quote_status (prepared_quote p)) "accepted") then
    updateQuoteStatus quoteId "sent"
  else ret tt.

Lemma getLeadById_found (leadId : string) (w w' : World) (l : Lead) :
  getLeadById leadId w = (Returned (Some l), w') ->
  single (filter (fun x => String.eqb (lead_id x) leadId) (leads_table (tables w)))
  = Data l.
Proof.
  unfold getLeadById. intros H.
  apply bind_returned in H. destruct H as (r & w1 & E & H).
  apply reading_run in E. destruct E as (_ & _ & _ & D).
  destruct r as [d|message].
  - inversion H; subst. now apply D.
  - apply bind_returned in H. destruct H as (u & w2 & _ & H). discriminate H.
Qed.

(** Either [sendQuoteByWebhook] stops before the POST, with an exception and
    nothing written, or it has read the three rows and goes on to deliver. *)
Lemma sendQuoteByWebhook_prepared (quoteId : string) (w w' : World) (o : Outcome unit) :
  sendQuoteByWebhook quoteId w = (o, w') ->
  (exists pre e,
     journal w' = (journal w ++ pre)%list /\ Forall preparatory pre /\
     o = Thrown e /\ tables w' = tables w) \/
  (exists p w3,
     prepared_from quoteId (tables w) p /\
     journal w3
     = (journal w ++ [SelectQuote quoteId; SelectLead (quote_lead (prepared_quote p));
                      SelectWebhookUrl (quote_client (prepared_quote p))])%list /\
     tables w3 = tables w /\ endpoint w3 = endpoint w /\
     deliver quoteId p w3 = (o, w')).
Proof.
  unfold sendQuoteByWebhook. intros H.
  apply bind_run in H. destruct H as [(r & w1 & E1 & H)|(e & E1 & ->)];
    apply reading_run in E1; destruct E1 as (J1 & N1 & T1 & D1).
  2:{ left. exists [SelectQuote quoteId], e.
      repeat split; [exact J1 | repeat constructor | exact T1]. }
  destruct r as [rawQuote|message].
  2:{ inversion H; subst. left. exists [SelectQuote quoteId], message.
      repeat split; [exact J1 | repeat constructor | exact T1]. }
  specialize (D1 rawQuote eq_refl).
  apply bind_run in H. destruct H as [(lead & w2 & E2 & H)|(e & E2 & ->)].
  2:{ apply getLeadById_run in E2. destruct E2 as (J2 & N2 & T2).
      rewrite J1 in J2; rewrite <- app_assoc in J2; simpl in J2.
      left. eexists _, e.
      repeat split; [exact J2 | repeat constructor | congruence]. }
  pose proof E2 as F2.
  apply getLeadById_run in E2. destruct E2 as (J2 & N2 & T2).
  rewrite J1 in J2; rewrite <- app_assoc in J2; simpl in J2.
  destruct lead as [lead|].
  2:{ inversion H; subst. left. eexists _, _.
      repeat split; [exact J2 | repeat constructor | congruence]. }
  apply getLeadById_found in F2. rewrite T1 in F2.
  apply bind_run in H. destruct H as [(client & w3 & E3 & H)|(e & E3 & ->)];
    apply reading_run in E3; destruct E3 as (J3 & N3 & T3 & D3);
    rewrite J2 in J3; rewrite <- app_assoc in J3; simpl in J3.
  2:{ left. eexists _, e.
      repeat split; [exact J3 | repeat constructor | congruence]. }
  assert (Stop : forall e, (Thrown e, w3) = (o, w') ->
            exists pre e,
              journal w' = (journal w ++ pre)%list /\ Forall preparatory pre /\
              o = Thrown e /\ tables w' = tables w).
  { intros e Q. inversion Q; subst. eexists _, e.
    repeat split; [exact J3 | repeat constructor | congruence]. }
  destruct client as [[url|]|message]; try (left; eapply Stop; exact H).
  destruct (truthy url) eqn:U; try (left; eapply Stop; exact H).
  right. exists (mkPrepared rawQuote lead url), w3.
  split; [|split; [exact J3|split; [congruence|split; [congruence|exact H]]]].
  unfold prepared_from. cbn [prepared_quote prepared_lead prepared_url].
  specialize (D3 _ eq_refl). rewrite T2, T1 in D3.
  repeat split; assumption.
Qed.

Lemma updateQuoteStatus_outcome (quoteId st : string) (w w' : World) (o : Outcome unit) :
  updateQuoteStatus quoteId st w = (o, w') ->
  (o = Returned tt /\
   quotes (tables w')
   = map (fun q => if String.eqb (quote_id q) quoteId then with_status st q else q)
         (quotes (tables w))) \/
  ((exists e, o = Thrown e) /\ tables w' = tables w).
Proof.
  unfold updateQuoteStatus. intros H.
  apply bind_run in H. destruct H as [(r & w1 & E & H)|(e & E & ->)];
    apply call_run in E; destruct E as (_ & _ & [(e' & Q & T)|[(m & Q & T)|(x & Q & Sv)]]);
    try discriminate Q.
  - inversion Q; subst r.
    apply bind_run in H. destruct H as [(u & w2 & L & H)|(e & L & _)];
      [|discriminate L].
    inversion L; subst. inversion H; subst. right. split; [eexists; reflexivity|].
    exact T.
  - inversion Q; subst x. inversion Sv as [[Hr Ht]]. subst r.
    inversion H; subst. left. split; [reflexivity|]. now rewrite <- Ht.
  - right. split; [eexists; reflexivity | exact T].
Qed.

Lemma deliver_run (quoteId : string) (p : Prepared) (w3 w' : World) (o : Outcome unit) :
  deliver quoteId p w3 = (o, w') ->
  match next_outcome w3 with
  | NetworkError reason =>
    o = Thrown reason /\ tables w' = tables w3 /\
    journal w' = (journal w3 ++ [Post (prepared_url p) (prepared_payload p)])%list
  | Response st body =>
    if ok st then
      if String.eqb (quote_status (prepared_quote p)) "accepted" then
        o = Returned tt /\ tables w' = tables w3 /\
        journal w' = (journal w3 ++ [Post (prepared_url p) (prepared_payload p)])%list
      else
        journal w'
        = (journal w3 ++ [Post (prepared_url p) (prepared_payload p);
                          UpdateQuoteStatus quoteId "sent"])%list /\
        ((o = Returned tt /\
          quotes (tables w')
          = map (fun q => if String.eqb (quote_id q) quoteId
                          then with_status "sent" q else q)
                (quotes (tables w3))) \/
         ((exists e, o = Thrown e) /\ tables w' = tables w3))
    else
      o = Thrown ("Il server webhook ha risposto con un errore: "
                  ++ decimal st ++ " - " ++ body) /\
      tables w' = tables w3 /\
      journal w' = (journal w3 ++ [Post (prepared_url p) (prepared_payload p)])%list
  end.
Proof.
  unfold deliver. intros H.
  apply bind_run in H. destruct H as [(response & w4 & E & H)|(e & E & ->)];
    apply fetch_run in E; destruct E as (J & T & O);
    destruct (next_outcome w3) as [st body|reason]; try discriminate O.
  - inversion O; subst response; clear O. cbn [fst snd] in H.
    destruct (ok st); cbn [negb] in H.
    + destruct (String.eqb (quote_status (prepared_quote p)) "accepted");
        cbn [negb] in H.
      * inversion H; subst. now repeat split.
      * pose proof (updateQuoteStatus_run _ _ _ _ _ H) as J'.
        rewrite J, <- app_assoc in J'. split; [exact J'|].
        destruct (updateQuoteStatus_outcome _ _ _ _ _ H) as [[-> Q]|[Q T']].
        -- left. split; [reflexivity|]. now rewrite Q, T.
        -- right. split; [exact Q | congruence].
    + inversion H; subst. now repeat split.
  - inversion O; subst. now repeat split.
Qed.

Lemma items_are_a_list (rawQuote : Quote) (entries : list (string * string)) :
  itemsForPayload rawQuote <> ItemsObject entries.
Proof.
  unfold itemsForPayload. destruct (quote_items rawQuote); discriminate.
Qed.

Lemma in_preparatory (pre : list Request) (url : string) (payload : WebhookPayload) :
  Forall preparatory pre -> In (Post url payload) pre -> False.
Proof.
  intros F H. rewrite Forall_forall in F. exact (F _ H).
Qed.

(** Whatever [sendQuoteByWebhook] posts, it posts to the webhook URL stored
    for the client of the quote, and that URL is not empty; the body carries
    the event ['quote_sent_by_email'], the quote row, the answers of its
    lead, and the items of the quote as a list, never as a keyed object. *)
Theorem webhook_post_is_the_quote :
  forall (quoteId : string) (w : World) (url : string) (payload : WebhookPayload),
    In (Post url payload) (issued w (snd (sendQuoteByWebhook quoteId w))) ->
    exists p : Prepared,
      prepared_from quoteId (tables w) p /\
      url = prepared_url p /\
      event payload = "quote_sent_by_email" /\
      payload_quote payload = prepared_quote p /\
      lead_data payload = data (prepared_lead p) /\
      payload_items payload = itemsForPayload (prepared_quote p) /\
      (forall entries, payload_items payload <> ItemsObject entries).
Proof.
  intros quoteId w url payload.
  destruct (sendQuoteByWebhook quoteId w) as [o w'] eqn:R. cbn [snd].
  destruct (sendQuoteByWebhook_prepared _ _ _ _ R)
    as [(pre & e & J & P & _)|(p & w3 & Hp & J3 & T3 & N3 & D)].
  - rewrite (issued_app _ _ _ J). intros H. exfalso. exact (in_preparatory _ _ _ P H).
  - assert (Posted : In (Post url payload) (issued w w') ->
                     Post url payload = Post (prepared_url p) (prepared_payload p)).
    { apply deliver_run in D.
      assert (Nx : next_outcome w3 = next_outcome w)
        by (unfold next_outcome; now rewrite N3).
      rewrite Nx in D.
      assert (K : forall rest,
                journal w' = (journal w3 ++ Post (prepared_url p) (prepared_payload p)
                                :: rest)%list ->
                (forall u q, ~ In (Post u q) rest) ->
                In (Post url payload) (issued w w') ->
                Post url payload = Post (prepared_url p) (prepared_payload p)).
      { intros rest J' NoPost. rewrite J3, <- app_assoc in J'.
        rewrite (issued_app _ _ _ J'). cbn [app].
        intros [H|[H|[H|[H|H]]]]; try discriminate H.
        - now symmetry.
        - now contradiction (NoPost url payload). }
      destruct (next_outcome w) as [st body|reason].
      - destruct (ok st).
        + destruct (String.eqb (quote_status (prepared_quote p)) "accepted").
          * destruct D as (_ & _ & J'). apply (K [] J'). intros u q [].
          * destruct D as (J' & _). apply (K _ J').
            intros u q [H|[]]. discriminate H.
        + destruct D as (_ & _ & J'). apply (K [] J'). intros u q [].
      - destruct D as (_ & _ & J'). apply (K [] J'). intros u q []. }
    intros H. apply Posted in H. inversion H; subst url payload.
    exists p. repeat split; try exact (proj1 Hp); try apply Hp.
    apply items_are_a_list.
Qed.

Lemma webhook_post_is_the_quote_witness :
  exists p : Prepared,
    prepared_from "quote-1" (tables demo_world) p /\
    "https://hooks.example/quotes" = prepared_url p /\
    event (mkWebhookPayload "quote_sent_by_email" demo_quote
             (ItemsArray ["sopralluogo"; "installazione"]) [("nome", "Rossi")])
    = "quote_sent_by_email" /\
    payload_quote (mkWebhookPayload "quote_sent_by_email" demo_quote
                     (ItemsArray ["sopralluogo"; "installazione"]) [("nome", "Rossi")])
    = prepared_quote p /\
    lead_data (mkWebhookPayload "quote_sent_by_email" demo_quote
                 (ItemsArray ["sopralluogo"; "installazione"]) [("nome", "Rossi")])
    = data (prepared_lead p) /\
    payload_items (mkWebhookPayload "quote_sent_by_email" demo_quote
                     (ItemsArray ["sopralluogo"; "installazione"]) [("nome", "Rossi")])
    = itemsForPayload (prepared_quote p) /\
    (forall entries,
       payload_items (mkWebhookPayload "quote_sent_by_email" demo_quote
                        (ItemsArray ["sopralluogo"; "installazione"]) [("nome", "Rossi")])
       <> ItemsObject entries).
Proof.
  apply (webhook_post_is_the_quote "quote-1" demo_world).
  vm_compute. do 3 right. left. reflexivity.
Defined.

(** When the status update that follows a delivered POST fails, the call
    throws although the webhook has answered with a 2xx status, and the quote
    is left with the status it had: delivered, and not recorded as sent. *)
Theorem webhook_delivered_but_not_recorded :
  forall (quoteId : string) (w : World) (e : string),
    fst (sendQuoteByWebhook quoteId w) = Thrown e ->
    In (UpdateQuoteStatus quoteId "sent")
       (issued w (snd (sendQuoteByWebhook quoteId w))) ->
    tables (snd (sendQuoteByWebhook quoteId w)) = tables w /\
    exists (p : Prepared) (st : Z) (body : string),
      prepared_from quoteId (tables w) p /\
      In (Post (prepared_url p) (prepared_payload p))
         (issued w (snd (sendQuoteByWebhook quoteId w))) /\
      next_outcome w = Response st body /\ ok st = true /\
      quote_status (prepared_quote p) <> "accepted".
Proof.
  intros quoteId w e.
  destruct (sendQuoteByWebhook quoteId w) as [o w'] eqn:R. cbn [fst snd].
  intros -> Upd.
  destruct (sendQuoteByWebhook_prepared _ _ _ _ R)
    as [(pre & e' & J & P & _)|(p & w3 & Hp & J3 & T3 & N3 & D)].
  - exfalso. rewrite (issued_app _ _ _ J) in Upd.
    rewrite Forall_forall in P. exact (P _ Upd).
  - apply deliver_run in D.
    assert (Nx : next_outcome w3 = next_outcome w)
      by (unfold next_outcome; now rewrite N3).
    rewrite Nx in D.
    assert (Short : journal w'
                    = (journal w3 ++ [Post (prepared_url p) (prepared_payload p)])%list ->
                    False).
    { intros J'. rewrite J3, <- app_assoc in J'.
      rewrite (issued_app _ _ _ J') in Upd. cbn [app] in Upd.
      destruct Upd as [H|[H|[H|[H|[]]]]]; discriminate H. }
    destruct (next_outcome w) as [st body|reason].
    + destruct (ok st) eqn:Ok.
      * destruct (String.eqb (quote_status (prepared_quote p)) "accepted") eqn:Acc.
        -- exfalso. apply Short, D.
        -- destruct D as (J' & [[Q _]|[_ T']]); [discriminate Q|].
           split; [congruence|].
           exists p, st, body. split; [exact Hp|].
           split; [|split; [reflexivity|split; [exact Ok|]]].
           ++ rewrite J3, <- app_assoc in J'. rewrite (issued_app _ _ _ J').
              cbn [app]. do 3 right. left. reflexivity.
           ++ now apply String.eqb_neq.
      * exfalso. apply Short, D.
    + exfalso. apply Short, D.
Qed.

Lemma webhook_delivered_but_not_recorded_witness :
  tables (snd (sendQuoteByWebhook "quote-1"
                 (set_faults [Healthy; Healthy; Healthy; Reports "read-only"] demo_world)))
  = tables demo_world /\
  fst (sendQuoteByWebhook "quote-1"
         (set_faults [Healthy; Healthy; Healthy; Reports "read-only"] demo_world))
  = Thrown "Failed to update quote status: read-only".
Proof.
  split.
  - apply (webhook_delivered_but_not_recorded "quote-1"
             (set_faults [Healthy; Healthy; Healthy; Reports "read-only"] demo_world)
             "Failed to update quote status: read-only").
    + reflexivity.
    + vm_compute. do 4 right. left. reflexivity.
  - reflexivity.
Defined.

(** A request on a backend with no fault to come. *)
Lemma call_on_healthy (A : Type) (r : Request) (serve : Tables -> Resp A * Tables)
    (w : World) :
  faults w = [] ->
  exists w1,
    call r serve w = (Returned (fst (serve (tables w))), w1) /\
    faults w1 = [] /\ tables w1 = snd (serve (tables w)) /\
    journal w1 = (journal w ++ [r])%list /\ endpoint w1 = endpoint w /\
    clock w1 = clock w /\ console w1 = console w /\
    fresh w1 = fresh w /\ drawn w1 = drawn w.
Proof.
  intros F. rewrite (call_healthy _ _ _ _ F). eexists. split; [reflexivity|].
  cbn. now rewrite F.
Qed.

Lemma bind_step (A B : Type) (m : M A) (k : A -> M B) (w w1 : World) (a : A) :
  m w = (Returned a, w1) -> bind m k w = k a w1.
Proof. intros H. unfold bind. now rewrite H. Qed.

(** On a backend with no fault, with the quote, its lead and a webhook URL
    in place and a 2xx answer from the webhook, [sendQuoteByWebhook] returns;
    it issues the three reads, the POST and, unless the quote is
    ['accepted'], one update; afterwards the quote has the status ['sent']
    unless it was ['accepted'], and every other quote is as it was. *)
Theorem sendQuoteByWebhook_delivers :
  forall (quoteId : string) (w : World) (p : Prepared) (st : Z) (body : string),
    faults w = [] ->
    prepared_from quoteId (tables w) p ->
    next_outcome w = Response st body ->
    ok st = true ->
    let run := sendQuoteByWebhook quoteId w in
    let accepted := String.eqb (quote_status (prepared_quote p)) "accepted" in
    fst run = Returned tt /\
    issued w (snd run)
    = ([SelectQuote quoteId; SelectLead (quote_lead (prepared_quote p));
        SelectWebhookUrl (quote_client (prepared_quote p));
        Post (prepared_url p) (prepared_payload p)]
       ++ if accepted then [] else [UpdateQuoteStatus quoteId "sent"])%list /\
    quotes (tables (snd run))
    = if accepted then quotes (tables w)
      else map (fun q => if String.eqb (quote_id q) quoteId
                         then with_status "sent" q else q)
               (quotes (tables w)).
Proof.
  intros quoteId w p st body F (Hq & Hl & Hu & Ht) Nx Ok run accepted.
  destruct p as [rawQuote lead url].
  cbn [prepared_quote prepared_lead prepared_url] in *.
  assert (R : exists w3,
            run = deliver quoteId (mkPrepared rawQuote lead url) w3 /\
            faults w3 = [] /\ tables w3 = tables w /\ endpoint w3 = endpoint w /\
            journal w3
            = (journal w ++ [SelectQuote quoteId; SelectLead (quote_lead rawQuote);
                             SelectWebhookUrl (quote_client rawQuote)])%list).
  { unfold run, sendQuoteByWebhook.
    destruct (call_on_healthy _ (SelectQuote quoteId)
                (reading (fun t =>
                   single (filter (fun q => String.eqb (quote_id q) quoteId) (quotes t))))
                w F)
      as (w1 & E1 & F1 & T1 & J1 & N1 & _).
    cbn [reading fst snd] in E1, T1. rewrite Hq in E1.
    rewrite (bind_step _ _ _ _ _ _ _ E1).
    destruct (call_on_healthy _ (SelectLead (quote_lead rawQuote))
                (reading (fun t =>
                   single (filter (fun l => String.eqb (lead_id l) (quote_lead rawQuote))
                                  (leads_table t))))
                w1 F1)
      as (w2 & E2 & F2 & T2 & J2 & N2 & _).
    cbn [reading fst snd] in E2, T2. rewrite T1, Hl in E2.
    assert (G : getLeadById (quote_lead rawQuote) w1 = (Returned (Some lead), w2))
      by (unfold getLeadById; now rewrite (bind_step _ _ _ _ _ _ _ E2)).
    rewrite (bind_step _ _ _ _ _ _ _ G).
    destruct (call_on_healthy _ (SelectWebhookUrl (quote_client rawQuote))
                (reading (fun t =>
                   single (map quote_webhook_url
                               (filter (has_id (quote_client rawQuote)) (clients t)))))
                w2 F2)
      as (w3 & E3 & F3 & T3 & J3 & N3 & _).
    cbn [reading fst snd] in E3, T3. rewrite T2, T1, Hu in E3.
    rewrite (bind_step _ _ _ _ _ _ _ E3). rewrite Ht.
    exists w3. split; [reflexivity|]. split; [exact F3|].
    split; [congruence|]. split; [congruence|].
    rewrite J3, J2, J1, <- !app_assoc. reflexivity. }
  destruct R as (w3 & -> & F3 & T3 & N3 & J3).
  assert (Fetch : exists w4,
            fetch url (prepared_payload (mkPrepared rawQuote lead url)) w3
            = (Returned (st, body), w4) /\
            faults w4 = [] /\ tables w4 = tables w /\
            journal w4
            = (journal w3
               ++ [Post url (prepared_payload (mkPrepared rawQuote lead url))])%list).
  { unfold fetch. unfold next_outcome in Nx. rewrite <- N3 in Nx.
    cbn [endpoint record].
    destruct (endpoint w3) as [|[st' body'|reason] rest]; inversion Nx; subst.
    - eexists. split; [reflexivity|]. cbn. now rewrite F3, T3.
    - eexists. split; [reflexivity|]. cbn. now rewrite F3, T3. }
  destruct Fetch as (w4 & E4 & F4 & T4 & J4).
  unfold deliver. cbn [prepared_url prepared_quote].
  rewrite (bind_step _ _ _ _ _ _ _ E4). cbn [fst snd]. rewrite Ok. cbn [negb].
  subst accepted.
  destruct (String.eqb (quote_status rawQuote) "accepted"); cbn [negb].
  - cbn [ret fst snd]. split; [reflexivity|]. split; [|now rewrite T4].
    apply issued_app. rewrite J4, J3, <- !app_assoc. reflexivity.
  - destruct (call_on_healthy _ (UpdateQuoteStatus quoteId "sent")
                (fun t =>
                   (Data tt,
                    set_quotes
                      (map (fun q => if String.eqb (quote_id q) quoteId
                                     then with_status "sent" q else q)
                           (quotes t)) t))
                w4 F4)
      as (w5 & E5 & F5 & T5 & J5 & _).
    cbn [fst snd] in E5, T5.
    unfold updateQuoteStatus. rewrite (bind_step _ _ _ _ _ _ _ E5).
    cbn [ret fst snd]. split; [reflexivity|]. split.
    + apply issued_app. rewrite J5, J4, J3, <- !app_assoc. reflexivity.
    + rewrite T5, T4. reflexivity.
Qed.

Lemma sendQuoteByWebhook_delivers_witness :
  fst (sendQuoteByWebhook "quote-1" demo_world) = Returned tt /\
  quotes (tables (snd (sendQuoteByWebhook "quote-1" demo_world)))
  = [with_status "sent" demo_quote].
Proof.
  destruct (sendQuoteByWebhook_delivers "quote-1" demo_world
              (mkPrepared demo_quote demo_lead "https://hooks.example/quotes")
              200%Z "" eq_refl) as (R & _ & Q).
  - repeat split.
  - reflexivity.
  - reflexivity.
  - split; [exact R | exact Q].
Defined.

(** *** Sending a notification by hand, listing it and deleting it *)

(** The rows of one custom notification as the backend stores them. *)
Definition custom_rows (t : Z) (ids userIds : list string) (title_ message_ : string)
  : list Notification :=
  with_ids t ids
    (map (fun userId =>
            mkNewNotification userId (trim title_) (trim message_) None None)
         userIds).

Lemma insert_notifications_healthy (rows : list NewNotification) (w : World) :
  faults w = [] ->
  exists ids w',
    insert_notifications rows w = (Returned (Data tt), w') /\
    List.length ids = List.length rows /\
    faults w' = [] /\ clock w' = clock w /\
    tables w'
    = set_notifications (notifications (tables w) ++ with_ids (clock w) ids rows)
                        (tables w).
Proof.
  intros F. unfold insert_notifications.
  destruct (draw_ids _ rows w) as (ids & w1 & E & L & T & C & F1).
  rewrite (bind_step _ _ _ _ _ _ _ E).
  unfold bind at 1. unfold now at 1.
  rewrite call_healthy by (rewrite F1; exact F).
  exists ids. eexists. split; [reflexivity|]. cbn.
  rewrite F1, F, T, C. repeat split; try assumption.
Qed.

Lemma custom_rows_In (t : Z) (ids userIds : list string) (title_ message_ : string)
    (n : Notification) :
  In n (custom_rows t ids userIds title_ message_) ->
  title n = Some (trim title_) /\ message n = trim message_ /\
  about_lead n = None /\ sent_at n = t /\ read n = false /\ In (recipient n) userIds.
Proof.
  unfold custom_rows. revert ids.
  induction userIds as [|u us IH]; intros [|i ids]; simpl; try contradiction.
  intros [<-|H].
  - simpl. repeat split; auto.
  - destruct (IH _ H) as (A & B & C & D & E & G). repeat split; auto.
Qed.

Lemma custom_rows_recipients (t : Z) (ids userIds : list string)
    (title_ message_ : string) :
  List.length ids = List.length userIds ->
  map recipient (custom_rows t ids userIds title_ message_) = userIds.
Proof.
  unfold custom_rows. revert ids.
  induction userIds as [|u us IH]; intros [|i ids] L; simpl in *; try discriminate;
    try reflexivity.
  f_equal. apply IH. now inversion L.
Qed.

Lemma custom_rows_one_batch (t : Z) (ids userIds : list string)
    (title_ message_ : string) (n x : Notification) :
  In n (custom_rows t ids userIds title_ message_) ->
  In x (custom_rows t ids userIds title_ message_) ->
  in_batch n x = true.
Proof.
  intros Hn Hx.
  destruct (custom_rows_In _ _ _ _ _ _ Hn) as (Tn & Mn & _ & Sn & _).
  destruct (custom_rows_In _ _ _ _ _ _ Hx) as (Tx & Mx & Lx & Sx & _).
  apply (in_batch_spec n x (trim title_) Tn). split; [exact Lx|].
  unfold same_batch_key. rewrite Tn, Tx, Mn, Mx, Sn, Sx. repeat split.
Qed.

Lemma filter_none (A : Type) (f : A -> bool) (xs : list A) :
  (forall x, In x xs -> f x = false) -> filter f xs = [].
Proof.
  induction xs as [|x xs IH]; intros H; [reflexivity|].
  simpl. rewrite (H x (or_introl eq_refl)). apply IH.
  intros y Hy. apply H. now right.
Qed.

Lemma filter_all (A : Type) (f : A -> bool) (xs : list A) :
  (forall x, In x xs -> f x = true) -> filter f xs = xs.
Proof.
  induction xs as [|x xs IH]; intros H; [reflexivity|].
  simpl. rewrite (H x (or_introl eq_refl)). f_equal. apply IH.
  intros y Hy. apply H. now right.
Qed.

(** [sendCustomNotification] asks for at least one recipient and for a title
    and a message that are not blank, and throws before it asks the backend
    anything when one is missing. On a backend with no fault it then stores
    one unread row for each recipient given (a recipient given twice gets
    two), with the trimmed title and message and no lead. These rows are one
    batch: [getSentNotifications] lists one notification under their key,
    and [deleteSentNotification] on any of them removes them all, leaving
    of the rows there were before those outside that batch. *)
Theorem custom_notification_round_trip :
  forall (userIds : list string) (title_ message_ : string) (w : World),
    (userIds = [] \/ trim title_ = "" \/ trim message_ = "" ->
     sendCustomNotification userIds title_ message_ w
     = (Thrown "User IDs, title, and message are required.", w)) /\
    (faults w = [] -> userIds <> [] -> trim title_ <> "" -> trim message_ <> "" ->
     exists (ids : list string) (w1 : World),
       let rows := custom_rows (clock w) ids userIds title_ message_ in
       sendCustomNotification userIds title_ message_ w = (Returned tt, w1) /\
       map recipient rows = userIds /\
       notifications (tables w1) = (notifications (tables w) ++ rows)%list /\
       (forall n, In n rows ->
          title n = Some (trim title_) /\ message n = trim message_ /\
          about_lead n = None /\ read n = false /\ sent_at n = clock w) /\
       (exists listed,
          fst (getSentNotifications w1) = Returned listed /\
          NoDup (map groupKey listed) /\
          forall n, In n rows -> exists r, In r listed /\ groupKey r = groupKey n) /\
       (forall n, In n rows ->
          fst (deleteSentNotification n w1) = Returned tt /\
          notifications (tables (snd (deleteSentNotification n w1)))
          = filter (fun x => negb (in_batch n x)) (notifications (tables w)))).
Proof.
  intros userIds title_ message_ w. split.
  - intros Missing. unfold sendCustomNotification.
    destruct Missing as [->|[E|E]]; [reflexivity| |].
    + rewrite E. cbn [truthy negb]. now rewrite orb_true_r.
    + rewrite E. cbn [truthy negb]. destruct userIds; reflexivity.
  - intros F Some_ T M.
    assert (C : match userIds with [] => true | _ :: _ => false end
                || negb (truthy (trim message_)) || negb (truthy (trim title_)) = false).
    { destruct userIds; [now contradiction Some_|].
      destruct (trim message_); [now contradiction M|].
      destruct (trim title_); [now contradiction T|]. reflexivity. }
    unfold sendCustomNotification. rewrite C.
    destruct (insert_notifications_healthy
                (map (fun userId =>
                        mkNewNotification userId (trim title_) (trim message_) None None)
                     userIds) w F)
      as (ids & w1 & E & L & F1 & C1 & T1).
    rewrite length_map in L.
    exists ids, w1. cbv zeta.
    rewrite (bind_step _ _ _ _ _ _ _ E).
    split; [reflexivity|].
    split; [now apply custom_rows_recipients|].
    assert (N1 : notifications (tables w1)
                 = (notifications (tables w)
                    ++ custom_rows (clock w) ids userIds title_ message_)%list)
      by now rewrite T1.
    split; [exact N1|].
    split.
    { intros n Hn.
      destruct (custom_rows_In _ _ _ _ _ _ Hn) as (A & B & D & S & R & _).
      repeat split; assumption. }
    split.
    + destruct (call_on_healthy _ SelectSent
                  (reading (fun t =>
                     Data (newest_first sent_at (filter sent_by_hand (notifications t)))))
                  w1 F1) as (w2 & E2 & _).
      cbn [reading fst snd] in E2.
      unfold getSentNotifications. rewrite (bind_step _ _ _ _ _ _ _ E2).
      eexists. split; [reflexivity|].
      destruct (grouped_values
                  (newest_first sent_at (filter sent_by_hand (notifications (tables w1)))))
        as (ND & _ & All).
      split; [exact ND|].
      intros n Hn. apply All. apply newest_first_In. apply filter_In. split.
      * rewrite N1. apply in_or_app. now right.
      * destruct (custom_rows_In _ _ _ _ _ _ Hn) as (A & _ & D & _).
        unfold sent_by_hand. now rewrite A, D.
    + intros n Hn.
      destruct (call_on_healthy _ DeleteBatch
                  (fun t =>
                     (Data tt,
                      set_notifications
                        (filter (fun x => negb (in_batch n x)) (notifications t)) t))
                  w1 F1) as (w2 & E2 & _ & T2 & _).
      cbn [fst snd] in E2, T2.
      unfold deleteSentNotification, delete_batch.
      rewrite (bind_step _ _ _ _ _ _ _ E2). cbn [ret fst snd].
      split; [reflexivity|].
      rewrite T2. cbn [notifications set_notifications].
      rewrite N1, filter_app.
      rewrite (filter_none _ _ (custom_rows (clock w) ids userIds title_ message_)).
      * apply app_nil_r.
      * intros x Hx. now rewrite (custom_rows_one_batch _ _ _ _ _ _ _ Hn Hx).
Qed.

Lemma custom_notification_round_trip_witness :
  sendCustomNotification ["user-1"]
    (String (ascii_of_nat 194) (String (ascii_of_nat 160) (String (ascii_of_nat 9) "")))
    "Sconto del 10%" demo_world
  = (Thrown "User IDs, title, and message are required.", demo_world) /\
  exists (ids : list string) (w1 : World),
    sendCustomNotification ["user-1"; "user-9"] " Promo " "Sconto del 10%" demo_world
    = (Returned tt, w1) /\
    map recipient
        (custom_rows (clock demo_world) ids ["user-1"; "user-9"] " Promo "
                     "Sconto del 10%")
    = ["user-1"; "user-9"].
Proof.
  split.
  - apply (proj1 (custom_notification_round_trip ["user-1"]
                    (String (ascii_of_nat 194)
                       (String (ascii_of_nat 160) (String (ascii_of_nat 9) "")))
                    "Sconto del 10%" demo_world)).
    right. left. reflexivity.
  - destruct (proj2 (custom_notification_round_trip ["user-1"; "user-9"] " Promo "
                       "Sconto del 10%" demo_world))
      as (ids & w1 & Sent & Recipients & _); try reflexivity; try discriminate.
    exists ids, w1. split; [exact Sent | exact Recipients].
Defined.

(** *** Rewriting a batch when the last request fails *)

Lemma call_served_next (A : Type) (r : Request) (serve : Tables -> Resp A * Tables)
    (w : World) (rest : list Fault) :
  faults w = Healthy :: rest ->
  call r serve w
  = (Returned (fst (serve (tables w))),
     set_tables (snd (serve (tables w))) (set_faults rest (record r w))).
Proof.
  intros H. unfold call. simpl. rewrite H.
  destruct (serve (tables w)) as [resp t]. reflexivity.
Qed.

Lemma call_reported (A : Type) (r : Request) (serve : Tables -> Resp A * Tables)
    (w : World) (m : string) (rest : list Fault) :
  faults w = Reports m :: rest ->
  call r serve w = (Returned (Error m), set_faults rest (record r w)).
Proof.
  intros H. unfold call. simpl. now rewrite H.
Qed.

Lemma insert_notifications_reported (rows : list NewNotification) (w : World)
    (m : string) (rest : list Fault) :
  faults w = Reports m :: rest ->
  exists w',
    insert_notifications rows w = (Returned (Error m), w') /\ tables w' = tables w.
Proof.
  intros F. unfold insert_notifications.
  destruct (draw_ids _ rows w) as (ids & w1 & E & _ & T & _ & F1).
  rewrite (bind_step _ _ _ _ _ _ _ E).
  unfold bind at 1. unfold now at 1. rewrite F in F1.
  rewrite (call_reported _ _ _ _ _ _ F1).
  eexists. split; [reflexivity | exact T].
Qed.

(** [updateSentNotification] deletes the batch before it inserts the new
    rows, and does not put the batch back when the insertion fails: with the
    two first requests served and an error reported on the third, a batch
    that is not empty is gone and the call throws. *)
Theorem rewriting_a_batch_can_lose_it :
  forall (original : Notification) (newTitle newMessage : string) (w : World)
         (m : string) (rest : list Fault),
    faults w = Healthy :: Healthy :: Reports m :: rest ->
    filter (in_batch original) (notifications (tables w)) <> [] ->
    fst (updateSentNotification original newTitle newMessage w)
    = Thrown ("Could not resend new notifications: " ++ m) /\
    notifications (tables (snd (updateSentNotification original newTitle newMessage w)))
    = filter (fun n => negb (in_batch original n)) (notifications (tables w)).
Proof.
  intros original newTitle newMessage w m rest F B.
  unfold updateSentNotification.
  rewrite (bind_step _ _ _ _ _ _ _ (call_served_next _ _ _ _ _ F)).
  cbn [reading fst snd].
  destruct (filter (in_batch original) (notifications (tables w)))
    as [|n batch] eqn:Batch; [now contradiction B|].
  cbn [map].
  set (w1 := set_tables (tables w)
               (set_faults (Healthy :: Reports m :: rest) (record SelectBatch w))).
  assert (F1 : faults w1 = Healthy :: Reports m :: rest) by reflexivity.
  unfold delete_batch.
  rewrite (bind_step _ _ _ _ _ _ _ (call_served_next _ _ _ _ _ F1)).
  cbn [fst snd].
  destruct (distinct (recipient n :: map recipient batch)) as [|u us] eqn:D;
    [now apply distinct_nonempty in D|].
  set (w2 := set_tables _ _).
  assert (F2 : faults w2 = Reports m :: rest) by reflexivity.
  destruct (insert_notifications_reported
              (map (fun userId =>
                      mkNewNotification userId (trim newTitle) (trim newMessage)
                                        None None) (u :: us))
              w2 m rest F2) as (w3 & E & T3).
  rewrite (bind_step _ _ _ _ _ _ _ E).
  cbn [throw fst snd]. split; [reflexivity|].
  rewrite T3. reflexivity.
Qed.

Lemma rewriting_a_batch_can_lose_it_witness :
  fst (updateSentNotification (promo "n-1" "user-1" 1710498605000) "Saldi" "Sconto del 20%"
         (set_faults [Healthy; Healthy; Reports "quota"] (inbox three_rows)))
  = Thrown "Could not resend new notifications: quota" /\
  notifications
    (tables (snd (updateSentNotification (promo "n-1" "user-1" 1710498605000)
                    "Saldi" "Sconto del 20%"
                    (set_faults [Healthy; Healthy; Reports "quota"] (inbox three_rows)))))
  = [promo "n-3" "user-3" 1710498660000].
Proof.
  apply (rewriting_a_batch_can_lose_it (promo "n-1" "user-1" 1710498605000)
           "Saldi" "Sconto del 20%"
           (set_faults [Healthy; Healthy; Reports "quota"] (inbox three_rows))
           "quota" []).
  - reflexivity.
  - vm_compute. discriminate.
Defined.

(** *** What [getClients] gathers for each client *)

Section NewestFirst.

Variables (A : Type) (at_ : A -> Z).

(** [x] stands before [y] in a list sorted newest first. *)
Definition not_older (x y : A) : Prop := (at_ y <= at_ x)%Z.

Lemma newest_first_insert_perm (x : A) (sorted : list A) :
  Permutation (newest_first_insert at_ x sorted) (x :: sorted).
Proof.
  induction sorted as [|y rest IH]; simpl; [apply Permutation_refl|].
  destruct (at_ y <=? at_ x)%Z; [apply Permutation_refl|].
  eapply perm_trans; [apply perm_skip, IH | apply perm_swap].
Qed.

Lemma newest_first_perm (rows : list A) : Permutation (newest_first at_ rows) rows.
Proof.
  induction rows as [|x rows IH]; simpl; [constructor|].
  eapply perm_trans; [apply newest_first_insert_perm | now apply perm_skip].
Qed.

Lemma newest_first_insert_sorted (x : A) (sorted : list A) :
  StronglySorted not_older sorted ->
  StronglySorted not_older (newest_first_insert at_ x sorted).
Proof.
  induction 1 as [|y rest S IH F]; simpl.
  - repeat constructor.
  - destruct (Z.leb_spec (at_ y) (at_ x)) as [L|L].
    + constructor; [now constructor|].
      constructor; [exact L|].
      rewrite Forall_forall in *. intros z Hz. specialize (F z Hz).
      unfold not_older in *. lia.
    + constructor; [exact IH|].
      rewrite Forall_forall in *. intros z Hz.
      apply newest_first_insert_In in Hz. destruct Hz as [->|Hz].
      * unfold not_older. lia.
      * now apply F.
Qed.

Lemma newest_first_sorted (rows : list A) :
  StronglySorted not_older (newest_first at_ rows).
Proof.
  induction rows as [|x rows IH]; simpl; [constructor|].
  now apply newest_first_insert_sorted.
Qed.

End NewestFirst.

Arguments not_older {A} at_ x y.

(** One turn of [getClients]: the two reads for a client. *)
Lemma gather_run (client : ClientRow) (w w' : World) (c : Client) :
  (leads <- select_leads (id client) ;;
   adSpends <- select_ad_spends (id client) ;;
   ret (mkClient (unpackMwsSettings (of_row client)) (rows_or_none leads)
                 (rows_or_none adSpends))) w = (Returned c, w') ->
  tables w' = tables w /\
  settings c = unpackMwsSettings (of_row client) /\
  (leads c = own_leads (tables w) client \/ leads c = []) /\
  (adSpends c = own_spends (tables w) client \/ adSpends c = []).
Proof.
  intros H.
  apply bind_returned in H. destruct H as (ls & w1 & E1 & H).
  apply reading_run in E1. destruct E1 as (_ & _ & T1 & D1).
  apply bind_returned in H. destruct H as (ss & w2 & E2 & H).
  apply reading_run in E2. destruct E2 as (_ & _ & T2 & D2).
  inversion H; subst c w'; clear H. cbn [settings leads adSpends].
  split; [congruence|]. split; [reflexivity|]. split.
  - destruct ls as [rows|message]; [left|right; reflexivity].
    specialize (D1 rows eq_refl). now inversion D1.
  - destruct ss as [rows|message]; [left|right; reflexivity].
    specialize (D2 rows eq_refl). rewrite T1 in D2. now inversion D2.
Qed.

Lemma gather_healthy (client : ClientRow) (w : World) :
  faults w = [] ->
  exists w',
    (leads <- select_leads (id client) ;;
     adSpends <- select_ad_spends (id client) ;;
     ret (mkClient (unpackMwsSettings (of_row client)) (rows_or_none leads)
                   (rows_or_none adSpends))) w
    = (Returned (gathered (tables w) client), w') /\
    faults w' = [] /\ tables w' = tables w.
Proof.
  intros F.
  destruct (call_on_healthy _ (SelectLeads (id client))
              (reading (fun t =>
                 Data (newest_first created_at
                         (filter (fun l => String.eqb (lead_client_id l) (id client))
                                 (leads_table t)))))
              w F) as (w1 & E1 & F1 & T1 & _).
  cbn [reading fst snd] in E1, T1.
  unfold select_leads. rewrite (bind_step _ _ _ _ _ _ _ E1).
  destruct (call_on_healthy _ (SelectAdSpends (id client))
              (reading (fun t =>
                 Data (filter (fun a => String.eqb (spend_client_id a) (id client))
                              (ad_spends t))))
              w1 F1) as (w2 & E2 & F2 & T2 & _).
  cbn [reading fst snd] in E2, T2.
  unfold select_ad_spends. rewrite (bind_step _ _ _ _ _ _ _ E2).
  exists w2. rewrite T1. split; [reflexivity|]. split; [exact F2 | congruence].
Qed.

(** [getClients] returns one client for each row of the table, in the order
    of the table: the row unpacked, with the leads of that client newest
    first and its ad spends, or with none where the backend reported an error
    on that read, which is not passed on. It writes nothing. On a backend
    with no fault it returns every client with all its leads and ad spends.
    The leads of a client are exactly the rows of the leads table that carry
    its id, none twice. *)
Theorem getClients_gathers :
  forall w : World,
    (forall (cs : list Client) (w' : World),
       getClients w = (Returned cs, w') ->
       tables w' = tables w /\
       Forall2 (fun row c =>
                  settings c = unpackMwsSettings (of_row row) /\
                  (leads c = own_leads (tables w) row \/ leads c = []) /\
                  (adSpends c = own_spends (tables w) row \/ adSpends c = []))
               (clients (tables w)) cs) /\
    (faults w = [] ->
     fst (getClients w) = Returned (map (gathered (tables w)) (clients (tables w)))) /\
    (forall row : ClientRow,
       StronglySorted (not_older created_at) (own_leads (tables w) row) /\
       Permutation (own_leads (tables w) row)
                   (filter (fun l => String.eqb (lead_client_id l) (id row))
                           (leads_table (tables w)))).
Proof.
  intros w. split; [|split].
  - intros cs w' H. unfold getClients in H.
    apply bind_returned in H. destruct H as (r & w1 & E & H).
    apply reading_run in E. destruct E as (_ & _ & T1 & D).
    destruct r as [clientsData|message]; [|discriminate H].
    specialize (D _ eq_refl). inversion D as [Rows]. clear D.
    rewrite Rows. clear Rows.
    revert cs w1 w' T1 H.
    induction clientsData as [|client rest IH]; intros cs w1 w' T1 H; simpl in H.
    + inversion H; subst. split; [exact T1 | constructor].
    + apply bind_returned in H. destruct H as (c & w2 & Ec & H).
      apply bind_returned in H. destruct H as (cs' & w3 & Er & H).
      inversion H; subst cs w3; clear H.
      apply gather_run in Ec. destruct Ec as (T2 & Hc).
      destruct (IH _ _ _ (eq_trans T2 T1) Er) as (T3 & F).
      split; [exact T3|]. constructor; [|exact F]. now rewrite <- T1.
  - intros F. unfold getClients.
    destruct (call_on_healthy _ SelectClients (reading (fun t => Data (clients t))) w F)
      as (w1 & E & F1 & T1 & _).
    cbn [reading fst snd] in E, T1.
    rewrite (bind_step _ _ _ _ _ _ _ E). clear E.
    remember (tables w) as t eqn:Et. clear Et.
    revert w1 F1 T1.
    induction (clients t) as [|client rest IH]; intros w1 F1 T1; [reflexivity|].
    cbn [for_each map].
    destruct (gather_healthy client w1 F1) as (w2 & E2 & F2 & T2).
    rewrite (bind_step _ _ _ _ _ _ _ E2).
    specialize (IH w2 F2 (eq_trans T2 T1)).
    destruct (for_each _ rest w2) as [[cs|e] w3] eqn:R; cbn [fst] in IH;
      [|discriminate IH].
    unfold bind at 1. rewrite R. cbn [ret fst].
    inversion IH as [Hcs]. now rewrite T1.
  - intros row. split.
    + apply newest_first_sorted.
    + apply newest_first_perm.
Qed.

Lemma getClients_gathers_witness :
  fst (getClients demo_world)
  = Returned (map (gathered (tables demo_world)) (clients (tables demo_world))).
Proof.
  apply (proj1 (proj2 (getClients_gathers demo_world))). reflexivity.
Defined.

(** *** Clients and the users that are free to become one *)

Lemma request_run (A : Type) (serve : Tables -> Resp A * Tables) (w w' : World)
    (o : Outcome (Resp A)) :
  request serve w = (o, w') ->
  (exists reason, o = Thrown reason /\ tables w' = tables w) \/
  (exists message, o = Returned (Error message) /\ tables w' = tables w) \/
  (exists resp, o = Returned resp /\ serve (tables w) = (resp, tables w')).
Proof.
  unfold request.
  destruct (faults w) as [|[|message|reason] rest]; intros H.
  - destruct (serve (tables w)) as [resp t] eqn:S. inversion H; subst.
    right. right. now exists resp.
  - cbn [tables set_faults] in H. destruct (serve (tables w)) as [resp t] eqn:S.
    inversion H; subst. right. right. now exists resp.
  - inversion H; subst. right. left. now exists message.
  - inversion H; subst. left. now exists reason.
Qed.

Lemma request_healthy (A : Type) (serve : Tables -> Resp A * Tables) (w : World) :
  faults w = [] ->
  request serve w
  = (Returned (fst (serve (tables w))), set_tables (snd (serve (tables w))) w).
Proof.
  intros F. unfold request. rewrite F. now destruct (serve (tables w)).
Qed.

Lemma keeps_request (X A : Type) (field : Tables -> X)
    (serve : Tables -> Resp A * Tables) :
  (forall t, field (snd (serve t)) = field t) -> keeps field (request serve).
Proof.
  intros K w o w' H. apply request_run in H.
  destruct H as [(e & _ & T)|[(m & _ & T)|(resp & _ & S)]]; try now rewrite T.
  specialize (K (tables w)). rewrite S in K. exact K.
Qed.

Lemma quiet_new_ids (s : Service) : quiet (new_ids s).
Proof.
  unfold quiet, new_ids. apply keeps_bind; [apply keeps_draw|]. intros token.
  destruct (fields s) as [fs|]; [|apply keeps_throw].
  apply keeps_bind; [|intros fs'; apply keeps_ret].
  apply keeps_for_each. intros f. unfold new_field_id.
  apply keeps_bind; [apply keeps_draw | intros t; apply keeps_ret].
Qed.

(** What [addClient] does to the table of clients. *)
Lemma addClient_run (name_ userId : string) (services_ : list Service)
    (url : option string) (w w' : World) (o : Outcome Client) :
  addClient name_ userId services_ url w = (o, w') ->
  ((exists e, o = Thrown e) /\ tables w' = tables w) \/
  (exists row,
     o = Returned (mkClient (of_row row) [] []) /\
     user_id row = userId /\ name row = name_ /\ quote_webhook_url row = url /\
     filter (fun c => String.eqb (user_id c) userId) (clients (tables w)) = [] /\
     tables w' = set_clients (clients (tables w) ++ [row]) (tables w)).
Proof.
  unfold addClient. intros H.
  apply bind_run in H. destruct H as [(existing & w1 & E1 & H)|(e & E1 & ->)];
    apply request_run in E1.
  2:{ left. split; [eexists; reflexivity|].
      destruct E1 as [(r & _ & T)|[(m & Q & _)|(resp & Q & _)]];
        [exact T | discriminate Q | discriminate Q]. }
  assert (T1 : tables w1 = tables w).
  { destruct E1 as [(r & _ & T)|[(m & _ & T)|(resp & _ & S)]]; try exact T.
    unfold reading in S. now inversion S. }
  destruct existing as [[|i ids]|message];
    try (inversion H; subst; left; split; [eexists; reflexivity | exact T1]).
  assert (None_ : filter (fun c => String.eqb (user_id c) userId) (clients (tables w)) = []).
  { destruct E1 as [(r & Q & _)|[(m & Q & _)|(resp & Q & S)]]; try discriminate Q.
    inversion Q; subst resp. unfold reading in S. inversion S as [[D _]].
    now destruct (filter _ (clients (tables w))). }
  apply bind_run in H. destruct H as [(withIds & w2 & E2 & H)|(e & E2 & ->)].
  2:{ left. split; [eexists; reflexivity|]. rewrite <- T1. revert E2.
      apply (keeps_for_each (fun t => t)). apply quiet_new_ids. }
  assert (T2 : tables w2 = tables w).
  { rewrite <- T1. revert E2. apply (keeps_for_each (fun t => t)). apply quiet_new_ids. }
  apply bind_run in H. destruct H as [(newClient & w3 & E3 & H)|(e & E3 & ->)];
    unfold insert_client in E3;
    apply bind_run in E3; destruct E3 as [(rowId & w4 & D & E3)|(e' & D & _)];
    try discriminate D;
    inversion D; subst rowId w4; clear D;
    apply request_run in E3; cbn [tables set_drawn] in E3.
  - destruct E3 as [(r & Q & _)|[(m & Q & T)|(resp & Q & S)]]; try discriminate Q.
    + inversion Q; subst newClient. inversion H; subst.
      left. split; [eexists; reflexivity | congruence].
    + inversion Q; subst resp. inversion S as [[R T3]]. subst newClient.
      inversion H; subst o w'. right. eexists. split; [reflexivity|].
      cbn [user_id name quote_webhook_url]. repeat split; try assumption.
      now rewrite <- T3, T2.
  - left. split; [eexists; reflexivity|].
    destruct E3 as [(r & _ & T)|[(m & Q & _)|(resp & Q & _)]];
      [congruence | discriminate Q | discriminate Q].
Qed.




(** The profiles [getAvailableUsers] asks for, given the users of the
    clients. *)
Definition available (associatedUserIds : list string) (p : Profile) : bool :=
  String.eqb (role p) "client"
  && negb (existsb (String.eqb (profile_id p)) associatedUserIds).

Lemma available_spec (ids : list string) (p : Profile) :
  available ids p = true <-> role p = "client" /\ ~ In (profile_id p) ids.
Proof.
  unfold available. rewrite andb_true_iff, negb_true_iff, String.eqb_eq.
  split; intros [R N]; (split; [exact R|]).
  - intros I. assert (existsb (String.eqb (profile_id p)) ids = true)
      by (apply existsb_exists; exists (profile_id p); split;
          [exact I | apply String.eqb_refl]).
    congruence.
  - destruct (existsb _ ids) eqn:E; [|reflexivity].
    apply existsb_exists in E. destruct E as (i & I & Q).
    apply String.eqb_eq in Q. subst i. contradiction.
Qed.

Lemma getAvailableUsers_run (w w' : World) (rows : list Profile) :
  getAvailableUsers w = (Returned rows, w') ->
  tables w' = tables w /\
  rows = filter (available (map user_id (clients (tables w)))) (profiles (tables w)).
Proof.
  unfold getAvailableUsers. intros H.
  apply bind_returned in H. destruct H as (ids & w1 & E1 & H).
  apply request_run in E1.
  destruct ids as [associatedUserIds|message].
  2:{ apply bind_returned in H. destruct H as (u & w2 & _ & H). discriminate H. }
  destruct E1 as [(r & Q & _)|[(m & Q & _)|(resp & Q & S1)]]; try discriminate Q.
  inversion Q; subst resp. unfold reading in S1. inversion S1 as [[D1 T1]].
  apply bind_returned in H. destruct H as (ps & w2 & E2 & H).
  apply request_run in E2.
  destruct ps as [found|message].
  2:{ apply bind_returned in H. destruct H as (u & w3 & _ & H). discriminate H. }
  destruct E2 as [(r & Q2 & _)|[(m & Q2 & _)|(resp & Q2 & S2)]]; try discriminate Q2.
  inversion Q2; subst resp. unfold reading in S2. inversion S2 as [[D2 T2]].
  inversion H; subst rows w'. split; [congruence|].
  rewrite <- D2, <- T1, D1. apply filter_ext. intros p. unfold available.
  destruct associatedUserIds; [now cbn|reflexivity].
Qed.

(** The users [getAvailableUsers] returns are exactly the profiles with the
    role [client] that are the user of no client; it returns them whenever
    the backend has no fault to come, and it writes nothing. A user that
    [addClient] has just made a client is not among them any more. *)
Theorem available_users_have_no_client :
  forall w : World,
    (forall (rows : list Profile) (w' : World),
       getAvailableUsers w = (Returned rows, w') ->
       tables w' = tables w /\
       forall p, In p rows
                 <-> In p (profiles (tables w)) /\ role p = "client" /\
                     ~ In (profile_id p) (map user_id (clients (tables w)))) /\
    (faults w = [] -> exists rows, fst (getAvailableUsers w) = Returned rows) /\
    (forall (name_ userId : string) (services_ : list Service) (url : option string)
            (c : Client) (w1 w2 : World) (rows : list Profile),
       addClient name_ userId services_ url w = (Returned c, w1) ->
       getAvailableUsers w1 = (Returned rows, w2) ->
       forall p, In p rows -> profile_id p <> userId).
Proof.
  intros w.
  assert (Run : forall w0 rows w',
            getAvailableUsers w0 = (Returned rows, w') ->
            tables w' = tables w0 /\
            forall p, In p rows
                      <-> In p (profiles (tables w0)) /\ role p = "client" /\
                          ~ In (profile_id p) (map user_id (clients (tables w0)))).
  { intros w0 rows w' H. apply getAvailableUsers_run in H. destruct H as [T ->].
    split; [exact T|]. intros p. rewrite filter_In, available_spec. reflexivity. }
  split; [apply Run|]. split.
  - intros F. unfold getAvailableUsers.
    rewrite (bind_step _ _ _ _ _ _ _ (request_healthy _ _ _ F)).
    cbn [reading fst snd].
    assert (F1 : faults (set_tables (tables w) w) = []) by exact F.
    rewrite (bind_step _ _ _ _ _ _ _ (request_healthy _ _ _ F1)).
    cbn [reading fst snd ret]. eexists. reflexivity.
  - intros name_ userId services_ url c w1 w2 rows A G p I.
    apply addClient_run in A.
    destruct A as [((e & Q) & _)|(row & _ & U & _ & _ & _ & T)]; [discriminate Q|].
    destruct (Run _ _ _ G) as (_ & Spec). apply Spec in I.
    destruct I as (_ & _ & N). intros E. apply N.
    rewrite T. cbn [clients set_clients]. rewrite map_app. apply in_or_app.
    right. cbn [map]. left. congruence.
Qed.

Lemma available_users_have_no_client_witness :
  exists rows, fst (getAvailableUsers demo_world) = Returned rows.
Proof.
  apply (proj1 (proj2 (available_users_have_no_client demo_world))). reflexivity.
Defined.

(** *** The separator of the listing key *)

Lemma append_assoc (a b c : string) : (a ++ b) ++ c = a ++ (b ++ c).
Proof. induction a as [|x a IH]; [reflexivity|]. cbn. now rewrite IH. Qed.

Lemma append_longer (a b : string) : a ++ b = a -> b = "".
Proof.
  induction a as [|x a IH]; [now intros|].
  cbn. intros H. inversion H. now apply IH.
Qed.

(** The key under which [getSentNotifications] groups joins the title, the
    message and the minute with ['|'] and escapes nothing: moving a piece
    that follows a ['|'] from the end of the title to the start of the
    message keeps the key. Two such notifications of one clock minute are
    different batches with one key, and no listing shows them both. *)
Theorem separator_confuses_batches :
  forall (n1 n2 : Notification) (head piece tail : string),
    title n1 = Some (head ++ "|" ++ piece) -> message n1 = tail ->
    title n2 = Some head -> message n2 = piece ++ "|" ++ tail ->
    same_minute (sent_at n1) (sent_at n2) ->
    groupKey n1 = groupKey n2 /\
    ~ same_batch_key n1 n2 /\
    (forall (w w' : World) (listed : list Notification),
       getSentNotifications w = (Returned listed, w') ->
       ~ (In n1 listed /\ In n2 listed)).
Proof.
  intros n1 n2 head piece tail T1 M1 T2 M2 Minute.
  assert (K : groupKey n1 = groupKey n2).
  { unfold groupKey. rewrite T1, T2, M1, M2.
    apply timeKey_same_minute in Minute. rewrite Minute.
    cbn [printed]. now rewrite !append_assoc. }
  assert (D : ~ same_batch_key n1 n2).
  { intros (T & _). rewrite T1, T2 in T. inversion T as [E].
    apply append_longer in E. discriminate E. }
  split; [exact K|]. split; [exact D|].
  intros w w' listed H (I1 & I2).
  unfold getSentNotifications in H.
  apply bind_returned in H. destruct H as (r & w1 & _ & H).
  destruct r as [rows|message_]; [|discriminate H].
  inversion H; subst listed w'; clear H.
  destruct (grouped_values rows) as (ND & _ & _). cbv zeta in ND.
  apply D. rewrite (NoDup_map_inj _ _ groupKey _ n1 n2 ND I1 I2 K).
  repeat split.
Qed.

Lemma separator_confuses_batches_witness :
  groupKey saldi_estate = groupKey saldi /\
  ~ same_batch_key saldi_estate saldi /\
  (forall (w w' : World) (listed : list Notification),
     getSentNotifications w = (Returned listed, w') ->
     ~ (In saldi_estate listed /\ In saldi listed)).
Proof.
  apply (separator_confuses_batches saldi_estate saldi "Saldi" "Estate" "50%");
    try reflexivity.
Defined.

End Api.

(** ** The monthly revenue rows on the revenue page ([MwsRevenuePage.tsx]) *)

Module Ledger.

Import Double.

(** A row of [mws_monthly_revenue], as far as the page reads and writes
    it. *)
Record MwsMonthlyRevenue := mkMonthly {
  client_id : string;
  month : string;
  revenue_amount : double;
  paid_amount : double;
  status : Payment.Status
}.

(** [savedDataForMonth ? Math.abs(saved.revenue_amount - mwsRevenue) > 0.01
                       : mwsRevenue > 0] *)
Definition hasPendingChanges (savedDataForMonth : option MwsMonthlyRevenue)
    (mwsRevenue : double) : bool :=
  match savedDataForMonth with
  | Some saved => gtb (abs (sub (revenue_amount saved) mwsRevenue)) (dec 0.01)
  | None => gtb mwsRevenue zero
  end.

(** [s.padStart(2, '0')] *)
Definition padStart2 (s : string) : string :=
  match String.length s with
  | 0%nat => "00"
  | 1%nat => "0" ++ s
  | _ => s
  end.

(** [text.split('-')] *)
Fixpoint split_dash (text : string) : list string :=
  match text with
  | EmptyString => [EmptyString]
  | String c rest =>
    if Ascii.eqb c "-" then EmptyString :: split_dash rest
    else match split_dash rest with
         | piece :: pieces => String c piece :: pieces
         | [] => [String c EmptyString]
         end
  end.

(** The month key [handleSavePayment] writes:
    [const [year, monthNum] = selectedMonth.split('-')] and
    [`${year}-${monthNum}-01`]. *)
Definition paymentMonth (selectedMonth : string) : string :=
  match split_dash selectedMonth with
  | year :: monthNum :: _ => year ++ "-" ++ monthNum ++ "-01"
  | year :: [] => year ++ "-undefined-01"
  | [] => "undefined-undefined-01"
  end.

(** The payload of [handleSavePayment] for the client and the month of the
    modal. *)
Definition handleSavePayment (client : string) (selectedMonth : string)
    (totalDue : double) (details : Payment.PaymentDetails) : MwsMonthlyRevenue :=
  let p := Payment.handleSavePayment totalDue details in
  mkMonthly client (paymentMonth selectedMonth) (Payment.revenue_amount p)
            (Payment.paid_amount p) (Payment.payload_status p).

(** [mwsRevenues.find(r => r.client_id === client.id
                          && r.month.startsWith(selectedMonth))] *)
Definition savedData (mwsRevenues : list MwsMonthlyRevenue) (client selectedMonth : string)
  : option MwsMonthlyRevenue :=
  find (fun r => String.eqb (client_id r) client && String.prefix selectedMonth (month r))
       mwsRevenues.

(** [upsert(row, { onConflict: 'client_id, month' })] on the table: the row
    takes the place of the row with its client and month, and is added when
    there is none. *)
Definition same_key (a b : MwsMonthlyRevenue) : bool :=
  String.eqb (client_id a) (client_id b) && String.eqb (month a) (month b).

Definition upsert (row : MwsMonthlyRevenue) (table : list MwsMonthlyRevenue)
  : list MwsMonthlyRevenue :=
  if existsb (same_key row) table
  then map (fun r => if same_key row r then row else r) table
  else (table ++ [row])%list.

Record Analytics := mkAnalytics {
  totalRevenue : double;
  totalPaid : double;
  totalUnpaid : double
}.

Definition analytics (mwsRevenues : list MwsMonthlyRevenue) (selectedMonth : string)
  : Analytics :=
  let totalRevenue :=
    fold_left (fun sum r => add sum (revenue_amount r))
              (filter (fun r => String.prefix selectedMonth (month r)) mwsRevenues)
              zero in
  let totalPaid :=
    fold_left (fun sum r => add sum (paid_amount r))
              (filter (fun r => String.prefix selectedMonth (month r)) mwsRevenues)
              zero in
  let totalUnpaid := sub totalRevenue totalPaid in
  mkAnalytics totalRevenue totalPaid totalUnpaid.

Section Page.

(** [getFullYear] and [getMonth] of a [Date] in the browser's time zone, and
    [new Date(text)] on a month column: built-ins, taken as parameters. *)
Variables (getFullYear getMonth : Z -> Z) (Date_parse : string -> Js.Date).

(** [`${start.getFullYear()}-${String(start.getMonth() + 1).padStart(2, '0')}-01`] *)
Definition monthKey (start : Js.Date) : string :=
  match start with
  | Some t =>
    Api.decimal (getFullYear t) ++ "-" ++ padStart2 (Api.decimal (getMonth t + 1)) ++ "-01"
  | None => "NaN-NaN-01"
  end.

(** The row [ClientRevenueCalculator.handleSave] upserts; nothing when the
    range has no start. *)
Definition handleSave (client : string) (start : option Js.Date)
    (savedDataForMonth : option MwsMonthlyRevenue) (mwsRevenue : double)
  : option MwsMonthlyRevenue :=
  match start with
  | None => None
  | Some start =>
    Some (mkMonthly client (monthKey start) mwsRevenue
            (match savedDataForMonth with
             | Some saved => num_or (paid_amount saved) zero
             | None => zero
             end)
            (match savedDataForMonth with
             | Some saved => status saved
             | None => Payment.unpaid
             end))
  end.

(** The comparator of the history table,
    [new Date(b.month).getTime() - new Date(a.month).getTime()], as the
    test [> 0] that puts [a] after [b]; with a month that is no date the
    difference is [NaN] and the test is false. *)
Definition sorts_after (a b : MwsMonthlyRevenue) : bool :=
  match Date_parse (month b), Date_parse (month a) with
  | Some tb, Some ta => (ta <? tb)%Z
  | _, _ => false
  end.

(** [Array.prototype.sort], which is stable: each row is put before the
    first row it does not sort after. *)
Fixpoint sort_insert (x : MwsMonthlyRevenue) (sorted : list MwsMonthlyRevenue)
  : list MwsMonthlyRevenue :=
  match sorted with
  | [] => [x]
  | y :: rest =>
    if sorts_after x y then y :: sort_insert x rest else x :: y :: rest
  end.

Definition sort (rows : list MwsMonthlyRevenue) : list MwsMonthlyRevenue :=
  fold_right sort_insert [] rows.

Definition is_unpaid (r : MwsMonthlyRevenue) : bool :=
  match status r with
  | Payment.unpaid => true
  | _ => false
  end.

Definition historyRevenues (mwsRevenues : list MwsMonthlyRevenue) (isAdmin : bool)
    (selectedClientId : string) : list MwsMonthlyRevenue :=
  let revenues := sort (filter (fun r => negb (is_unpaid r)) mwsRevenues) in
  if isAdmin && negb (String.eqb selectedClientId "all")
  then filter (fun r => String.eqb (client_id r) selectedClientId) revenues
  else revenues.

End Page.

(** *** Saving the calculation *)

Lemma same_amount_not_pending (saved : MwsMonthlyRevenue) :
  hasPendingChanges (Some saved) (revenue_amount saved) = false.
Proof.
  unfold hasPendingChanges.
  destruct (sub_diag (revenue_amount saved)) as [-> | ->]; reflexivity.
Qed.

(** The row the calculator saves carries the commission just computed and
    the paid amount and the status of the row that was saved before (a paid
    amount that is zero or [NaN] is saved as 0; nothing paid and [unpaid]
    when there was no row): saving the calculation never touches the
    payment. With that row as the saved row the same commission shows no
    pending change, whatever number it is; a month never saved is pending
    exactly when its commission is positive. *)
Theorem saved_calculation_is_not_pending :
  forall (getFullYear getMonth : Z -> Z) (client : string) (start : option Js.Date)
         (saved : option MwsMonthlyRevenue) (mwsRevenue : double)
         (row : MwsMonthlyRevenue),
    handleSave getFullYear getMonth client start saved mwsRevenue = Some row ->
    hasPendingChanges (Some row) mwsRevenue = false /\
    revenue_amount row = mwsRevenue /\
    paid_amount row
    = match saved with Some s => num_or (paid_amount s) zero | None => zero end /\
    status row = match saved with Some s => status s | None => Payment.unpaid end /\
    hasPendingChanges None mwsRevenue = gtb mwsRevenue zero.
Proof.
  intros getFullYear getMonth client start saved mwsRevenue row H.
  unfold handleSave in H. destruct start as [start|]; [|discriminate H].
  inversion H; subst row; clear H.
  split; [|now repeat split].
  apply (same_amount_not_pending (mkMonthly _ _ mwsRevenue _ _)).
Qed.

Lemma saved_calculation_is_not_pending_witness :
  hasPendingChanges
    (Some (mkMonthly "client-1" "2024-03-01" (dec 260.1) (dec 100)
                     Payment.partially_paid)) (dec 260.1)
  = false.
Proof.
  refine (proj1 (saved_calculation_is_not_pending
                   Api.getUTCFullYear Api.getUTCMonth
                   "client-1" (Some (Some 1709251200000%Z))
                   (Some (mkMonthly "client-1" "2024-03-01" (dec 180) (dec 100)
                                    Payment.partially_paid))
                   (dec 260.1)
                   (mkMonthly "client-1" "2024-03-01" (dec 260.1) (dec 100)
                              Payment.partially_paid)
                   _)).
  vm_compute. reflexivity.
Defined.

(** The threshold is that of JavaScript numbers: a commission of 1.01
    against a saved amount of 1 is pending, the difference being
    0.010000000000000009, and 260.01 against 260 is not. *)
Lemma one_cent_apart :
  hasPendingChanges
    (Some (mkMonthly "client-1" "2024-03-01" (dec 1) zero Payment.unpaid)) (dec 1.01)
  = true /\
  hasPendingChanges
    (Some (mkMonthly "client-1" "2024-03-01" (dec 260) zero Payment.unpaid)) (dec 260.01)
  = false.
Proof. split; vm_compute; reflexivity. Qed.

(** *** Saving a payment and reading it back *)

Lemma split_dash_plain (text : string) :
  Api.occurs "-" text = false -> split_dash text = [text].
Proof.
  induction text as [|c rest IH]; [reflexivity|].
  cbn [Api.occurs split_dash]. intros H. apply orb_false_elim in H.
  destruct H as [C R]. rewrite C, (IH R). reflexivity.
Qed.

Lemma split_dash_month (year monthNum : string) :
  Api.occurs "-" year = false -> Api.occurs "-" monthNum = false ->
  split_dash (year ++ String "-" monthNum) = [year; monthNum].
Proof.
  intros Y M. induction year as [|c rest IH].
  - cbn. now rewrite (split_dash_plain _ M).
  - cbn [Api.occurs] in Y. apply orb_false_elim in Y. destruct Y as [C R].
    change (split_dash (String c (rest ++ String "-" monthNum))
            = [String c rest; monthNum]).
    cbn [split_dash]. rewrite C. now rewrite (IH R).
Qed.

Lemma prefix_append (a b : string) : String.prefix a (a ++ b) = true.
Proof.
  induction a as [|x a IH]; [now destruct b|].
  cbn. destruct (ascii_dec x x) as [_|N]; [exact IH | now contradiction N].
Qed.

Lemma same_key_spec (a b : MwsMonthlyRevenue) :
  same_key a b = true <-> client_id a = client_id b /\ month a = month b.
Proof.
  unfold same_key. rewrite andb_true_iff, !String.eqb_eq. reflexivity.
Qed.

Lemma same_key_refl (a : MwsMonthlyRevenue) : same_key a a = true.
Proof. now apply same_key_spec. Qed.

Lemma upsert_idempotent (row : MwsMonthlyRevenue) (table : list MwsMonthlyRevenue) :
  upsert row (upsert row table) = upsert row table.
Proof.
  unfold upsert.
  destruct (existsb (same_key row) table) eqn:E.
  - assert (E' : existsb (same_key row)
                   (map (fun r => if same_key row r then row else r) table) = true).
    { apply existsb_exists in E. destruct E as (r & In_r & K).
      apply existsb_exists. exists row. split; [|apply same_key_refl].
      apply in_map_iff. exists r. now rewrite K. }
    rewrite E', map_map. apply map_ext. intros r.
    destruct (same_key row r) eqn:K; [now rewrite same_key_refl | now rewrite K].
  - assert (E' : existsb (same_key row) (table ++ [row]) = true).
    { rewrite existsb_app. cbn. now rewrite same_key_refl, orb_true_r. }
    rewrite E', map_app. cbn [map]. rewrite same_key_refl. f_equal.
    rewrite <- (map_id table) at 2. apply map_ext_in. intros r In_r.
    destruct (same_key row r) eqn:K; [|reflexivity].
    exfalso. assert (X : existsb (same_key row) table = true)
      by (apply existsb_exists; now exists r).
    congruence.
Qed.

Lemma find_upserted (row : MwsMonthlyRevenue) (f : MwsMonthlyRevenue -> bool)
    (table : list MwsMonthlyRevenue) :
  f row = true ->
  (forall r, In r table -> f r = true -> same_key row r = true) ->
  find f (upsert row table) = Some row.
Proof.
  intros Frow Only. unfold upsert.
  destruct (existsb (same_key row) table) eqn:E.
  - induction table as [|r rest IH]; [discriminate E|].
    cbn [map find]. destruct (same_key row r) eqn:K.
    + now rewrite Frow.
    + destruct (f r) eqn:Fr.
      * rewrite (Only r (or_introl eq_refl) Fr) in K. discriminate K.
      * apply IH.
        -- intros x Hx. apply Only. now right.
        -- cbn [existsb] in E. now rewrite K in E.
  - induction table as [|r rest IH]; cbn [app find].
    + now rewrite Frow.
    + cbn [existsb] in E. apply orb_false_elim in E. destruct E as [K E].
      destruct (f r) eqn:Fr.
      * rewrite (Only r (or_introl eq_refl) Fr) in K. discriminate K.
      * apply IH; [|exact E]. intros x Hx. apply Only. now right.
Qed.

(** The payment the modal saves is the row the page reads back. For a
    selected month [year-month], [handleSavePayment] writes the key
    [year-month-01]; when the rows of the client in that month all carry
    that key (the page writes no other), then after the upsert the page's
    lookup for the client and the month finds the row just saved, and
    upserting the same row once more changes nothing. *)
Theorem payment_row_is_read_back :
  forall (client year monthNum : string) (totalDue : double)
         (details : Payment.PaymentDetails) (table : list MwsMonthlyRevenue),
    let selectedMonth := year ++ "-" ++ monthNum in
    let row := handleSavePayment client selectedMonth totalDue details in
    Api.occurs "-" year = false ->
    Api.occurs "-" monthNum = false ->
    (forall r, In r table -> client_id r = client ->
               String.prefix selectedMonth (month r) = true ->
               month r = selectedMonth ++ "-01") ->
    month row = selectedMonth ++ "-01" /\
    savedData (upsert row table) client selectedMonth = Some row /\
    upsert row (upsert row table) = upsert row table.
Proof.
  intros client year monthNum totalDue details table selectedMonth row Y M Keys.
  assert (K : month row = selectedMonth ++ "-01").
  { unfold row, handleSavePayment, paymentMonth, selectedMonth. cbn [month].
    change (year ++ "-" ++ monthNum) with (year ++ String "-" monthNum).
    rewrite (split_dash_month _ _ Y M). now rewrite !Api.append_assoc. }
  split; [exact K|]. split; [|apply upsert_idempotent].
  unfold savedData. apply find_upserted.
  - rewrite K, prefix_append. unfold row, handleSavePayment. cbn [client_id].
    now rewrite String.eqb_refl.
  - intros r In_r Fr. apply andb_true_iff in Fr. destruct Fr as [C P].
    apply String.eqb_eq in C. apply same_key_spec.
    split; [unfold row, handleSavePayment; cbn [client_id]; now symmetry|].
    rewrite K. symmetry. now apply Keys.
Qed.

Lemma payment_row_is_read_back_witness :
  savedData
    (upsert (handleSavePayment "client-1" ("2024" ++ "-" ++ "03") (dec 260)
               (Payment.mkDetails (dec 100) false))
            [mkMonthly "client-1" "2024-03-01" (dec 260) zero Payment.unpaid;
             mkMonthly "client-2" "2024-03-01" (dec 90) zero Payment.unpaid])
    "client-1" ("2024" ++ "-" ++ "03")
  = Some (handleSavePayment "client-1" ("2024" ++ "-" ++ "03") (dec 260)
            (Payment.mkDetails (dec 100) false)).
Proof.
  refine (proj1 (proj2 (payment_row_is_read_back "client-1" "2024" "03" (dec 260)
                          (Payment.mkDetails (dec 100) false)
                          [mkMonthly "client-1" "2024-03-01" (dec 260) zero Payment.unpaid;
                           mkMonthly "client-2" "2024-03-01" (dec 90) zero Payment.unpaid]
                          eq_refl eq_refl _))).
  intros r [<-|[<-|[]]] _ _; reflexivity.
Defined.

(** *** The totals of the selected month *)

(** The rows of the selected month. *)
Definition of_month (selectedMonth : string) (rows : list MwsMonthlyRevenue)
  : list MwsMonthlyRevenue :=
  filter (fun r => String.prefix selectedMonth (month r)) rows.

Lemma of_month_idem (selectedMonth : string) (rows : list MwsMonthlyRevenue) :
  of_month selectedMonth (of_month selectedMonth rows) = of_month selectedMonth rows.
Proof.
  unfold of_month. induction rows as [|r rows IH]; [reflexivity|].
  cbn [filter]. destruct (String.prefix selectedMonth (month r)) eqn:P; [|exact IH].
  cbn [filter]. now rewrite P, IH.
Qed.

Lemma analytics_of_month (rows rows' : list MwsMonthlyRevenue) (selectedMonth : string) :
  of_month selectedMonth rows = of_month selectedMonth rows' ->
  analytics rows selectedMonth = analytics rows' selectedMonth.
Proof. unfold analytics, of_month. now intros ->. Qed.

(** The totals of rows whose amounts are whole numbers. *)
Lemma whole_totals (due paid : MwsMonthlyRevenue -> Z)
    (mwsRevenues : list MwsMonthlyRevenue) (selectedMonth : string) :
  (forall r, In r (of_month selectedMonth mwsRevenues) ->
             revenue_amount r = of_Z (due r) /\ paid_amount r = of_Z (paid r)) ->
  (size_Z (map due (of_month selectedMonth mwsRevenues))
   + size_Z (map paid (of_month selectedMonth mwsRevenues)) < 2 ^ 53)%Z ->
  analytics mwsRevenues selectedMonth
  = mkAnalytics (of_Z (sum_Z (map due (of_month selectedMonth mwsRevenues))))
                (of_Z (sum_Z (map paid (of_month selectedMonth mwsRevenues))))
                (of_Z (sum_Z (map due (of_month selectedMonth mwsRevenues))
                       - sum_Z (map paid (of_month selectedMonth mwsRevenues)))).
Proof.
  intros W B. unfold analytics. fold (of_month selectedMonth mwsRevenues). cbv zeta.
  set (rows := of_month selectedMonth mwsRevenues) in *.
  pose proof (size_Z_nonneg (map due rows)) as Pd.
  pose proof (size_Z_nonneg (map paid rows)) as Pp.
  pose proof (sum_Z_size (map due rows)) as Sd.
  pose proof (sum_Z_size (map paid rows)) as Sp.
  change zero with (of_Z 0).
  rewrite (fold_add_of_Z _ revenue_amount due), (fold_add_of_Z _ paid_amount paid);
    try (cbn [Z.abs]; lia); try (intros r I; apply (W r I)).
  cbn [Z.add]. rewrite sub_of_Z by (unfold whole_number; lia). reflexivity.
Qed.

(** The three totals only look at the rows whose month starts with the
    selected month: a row of another month, wherever it stands, changes none
    of them, and with no row of the month all three are 0. The total still
    to be paid is the total revenue minus the total paid, as JavaScript
    subtracts them. When the amounts of the rows of the month are whole
    numbers whose absolute values add up to less than [2^53], the totals
    are the whole sums and do not depend on the order of the rows. *)
Theorem analytics_totals :
  forall (mwsRevenues : list MwsMonthlyRevenue) (selectedMonth : string),
    let a := analytics mwsRevenues selectedMonth in
    a = analytics (of_month selectedMonth mwsRevenues) selectedMonth /\
    (forall (before after : list MwsMonthlyRevenue) (other : MwsMonthlyRevenue),
       mwsRevenues = (before ++ other :: after)%list ->
       String.prefix selectedMonth (month other) = false ->
       a = analytics (before ++ after) selectedMonth) /\
    (of_month selectedMonth mwsRevenues = [] -> a = mkAnalytics zero zero zero) /\
    totalUnpaid a = sub (totalRevenue a) (totalPaid a) /\
    (forall (due paid : MwsMonthlyRevenue -> Z) (permuted : list MwsMonthlyRevenue),
       (forall r, In r (of_month selectedMonth mwsRevenues) ->
                  revenue_amount r = of_Z (due r) /\ paid_amount r = of_Z (paid r)) ->
       (size_Z (map due (of_month selectedMonth mwsRevenues))
        + size_Z (map paid (of_month selectedMonth mwsRevenues)) < 2 ^ 53)%Z ->
       Permutation mwsRevenues permuted ->
       totalRevenue a = of_Z (sum_Z (map due (of_month selectedMonth mwsRevenues))) /\
       totalPaid a = of_Z (sum_Z (map paid (of_month selectedMonth mwsRevenues))) /\
       a = analytics permuted selectedMonth).
Proof.
  intros mwsRevenues selectedMonth a. subst a.
  split; [|split; [|split; [|split]]].
  - apply analytics_of_month. symmetry. apply of_month_idem.
  - intros before after other -> Other. apply analytics_of_month.
    unfold of_month. rewrite !filter_app. cbn [filter]. now rewrite Other.
  - intros Empty. rewrite (analytics_of_month _ [] _ Empty). reflexivity.
  - reflexivity.
  - intros due paid permuted W B P.
    assert (P' : Permutation (of_month selectedMonth mwsRevenues)
                             (of_month selectedMonth permuted))
      by (apply Revenue64.filter_permutation; exact P).
    rewrite (whole_totals due paid mwsRevenues selectedMonth W B).
    split; [reflexivity|]. split; [reflexivity|].
    rewrite (whole_totals due paid permuted selectedMonth).
    + rewrite (sum_Z_permutation _ _ (Permutation_map due P')).
      rewrite (sum_Z_permutation _ _ (Permutation_map paid P')). reflexivity.
    + intros r I. apply W. apply (Permutation_in r (Permutation_sym P') I).
    + rewrite <- (size_Z_permutation _ _ (Permutation_map due P')).
      rewrite <- (size_Z_permutation _ _ (Permutation_map paid P')). exact B.
Qed.

Lemma analytics_totals_witness :
  analytics [mkMonthly "client-1" "2024-03-01" (dec 260) (dec 100) Payment.partially_paid;
             mkMonthly "client-1" "2024-02-01" (dec 300) zero Payment.unpaid;
             mkMonthly "client-2" "2024-03-01" (dec 90) (dec 90) Payment.paid]
            "2024-03"
  = analytics [mkMonthly "client-1" "2024-03-01" (dec 260) (dec 100)
                         Payment.partially_paid;
               mkMonthly "client-2" "2024-03-01" (dec 90) (dec 90) Payment.paid]
              "2024-03" /\
  analytics [mkMonthly "client-1" "2024-03-01" (of_Z 260) (of_Z 100)
                       Payment.partially_paid;
             mkMonthly "client-2" "2024-03-01" (of_Z 90) (of_Z 90) Payment.paid]
            "2024-03"
  = analytics [mkMonthly "client-2" "2024-03-01" (of_Z 90) (of_Z 90) Payment.paid;
               mkMonthly "client-1" "2024-03-01" (of_Z 260) (of_Z 100)
                         Payment.partially_paid]
              "2024-03".
Proof.
  split.
  - apply (proj1 (proj2 (analytics_totals _ "2024-03"))
                 [mkMonthly "client-1" "2024-03-01" (dec 260) (dec 100)
                            Payment.partially_paid]
                 [mkMonthly "client-2" "2024-03-01" (dec 90) (dec 90) Payment.paid]
                 (mkMonthly "client-1" "2024-02-01" (dec 300) zero Payment.unpaid));
      reflexivity.
  - apply (proj2 (proj2 (proj2 (proj2 (analytics_totals _ "2024-03"))))
                 (fun r => if String.eqb (client_id r) "client-1" then 260 else 90)%Z
                 (fun r => if String.eqb (client_id r) "client-1" then 100 else 90)%Z).
    + intros r [<-|[<-|[]]]; split; reflexivity.
    + vm_compute. reflexivity.
    + apply perm_swap.
Defined.

(** The totals are sums of JavaScript numbers in the order of the rows:
    three rows of 100.10, 200.20 and 300.30 give 600.5999999999999, and in
    the opposite order 600.6. *)
Definition march_row (client : string) (due : Q) : MwsMonthlyRevenue :=
  mkMonthly client "2024-03-01" (dec due) zero Payment.unpaid.

Lemma totals_depend_on_order :
  totalRevenue (analytics [march_row "client-1" 100.10; march_row "client-2" 200.20;
                           march_row "client-3" 300.30] "2024-03")
  = dec 600.5999999999999 /\
  totalRevenue (analytics [march_row "client-3" 300.30; march_row "client-2" 200.20;
                           march_row "client-1" 100.10] "2024-03")
  = dec 600.6.
Proof. split; vm_compute; reflexivity. Qed.

(** *** The payment history *)

Section History.

Variable Date_parse : string -> Js.Date.

(** The month of [a] is not before the month of [b]. *)
Definition month_not_before (a b : MwsMonthlyRevenue) : Prop :=
  match Date_parse (month a), Date_parse (month b) with
  | Some ta, Some tb => (tb <= ta)%Z
  | _, _ => False
  end.

Definition dated (r : MwsMonthlyRevenue) : Prop := Date_parse (month r) <> None.

Lemma sort_insert_perm (x : MwsMonthlyRevenue) (sorted : list MwsMonthlyRevenue) :
  Permutation (sort_insert Date_parse x sorted) (x :: sorted).
Proof.
  induction sorted as [|y rest IH]; simpl; [apply Permutation_refl|].
  destruct (sorts_after Date_parse x y); [|apply Permutation_refl].
  eapply perm_trans; [apply perm_skip, IH | apply perm_swap].
Qed.

Lemma sort_perm (rows : list MwsMonthlyRevenue) :
  Permutation (sort Date_parse rows) rows.
Proof.
  induction rows as [|x rows IH]; simpl; [constructor|].
  eapply perm_trans; [apply sort_insert_perm | now apply perm_skip].
Qed.

Lemma sort_insert_sorted (x : MwsMonthlyRevenue) (sorted : list MwsMonthlyRevenue) :
  dated x -> Forall dated sorted ->
  StronglySorted month_not_before sorted ->
  StronglySorted month_not_before (sort_insert Date_parse x sorted).
Proof.
  intros Dx Ds S. induction S as [|y rest S IH F]; simpl.
  - repeat constructor.
  - inversion Ds as [|y' rest' Dy Drest]; subst.
    unfold sorts_after. unfold dated in Dx, Dy.
    destruct (Date_parse (month y)) as [ty|] eqn:Ty; [|now contradiction Dy].
    destruct (Date_parse (month x)) as [tx|] eqn:Tx; [|now contradiction Dx].
    destruct (Z.ltb_spec tx ty) as [L|L].
    + constructor; [now apply IH|].
      assert (P : Permutation (sort_insert Date_parse x rest) (x :: rest))
        by apply sort_insert_perm.
      rewrite Forall_forall in *. intros z Hz.
      apply (Permutation_in _ P) in Hz. destruct Hz as [<-|Hz]; [|now apply F].
      unfold month_not_before. rewrite Ty, Tx. lia.
    + constructor; [now constructor|].
      constructor; [unfold month_not_before; rewrite Tx, Ty; lia|].
      rewrite Forall_forall in *. intros z Hz. specialize (F z Hz).
      unfold month_not_before in *. rewrite Tx. rewrite Ty in F.
      destruct (Date_parse (month z)); [lia | contradiction].
Qed.

Lemma sort_sorted (rows : list MwsMonthlyRevenue) :
  Forall dated rows -> StronglySorted month_not_before (sort Date_parse rows).
Proof.
  induction 1 as [|x rows Dx Drows IH]; simpl; [constructor|].
  apply sort_insert_sorted; [exact Dx | | exact IH].
  rewrite Forall_forall in *. intros z Hz.
  apply Drows. exact (Permutation_in _ (sort_perm rows) Hz).
Qed.

Lemma filter_sorted (f : MwsMonthlyRevenue -> bool) (rows : list MwsMonthlyRevenue) :
  StronglySorted month_not_before rows ->
  StronglySorted month_not_before (filter f rows).
Proof.
  induction 1 as [|x rows S IH F]; simpl; [constructor|].
  destruct (f x); [|exact IH]. constructor; [exact IH|].
  rewrite Forall_forall in *. intros z Hz. apply filter_In in Hz. now apply F.
Qed.

Lemma filter_perm (f : MwsMonthlyRevenue -> bool) (xs ys : list MwsMonthlyRevenue) :
  Permutation xs ys -> Permutation (filter f xs) (filter f ys).
Proof.
  induction 1 as [|x xs ys _ IH|x y xs|xs ys zs _ IH1 _ IH2]; simpl.
  - constructor.
  - destruct (f x); [now constructor | exact IH].
  - destruct (f x), (f y); try apply Permutation_refl. apply perm_swap.
  - now apply perm_trans with (filter f ys).
Qed.

(** The rows the history table shows for a filter. *)
Definition in_history (isAdmin : bool) (selectedClientId : string)
    (r : MwsMonthlyRevenue) : bool :=
  negb (is_unpaid r)
  && (negb (isAdmin && negb (String.eqb selectedClientId "all"))
      || String.eqb (client_id r) selectedClientId).

(** The payment history holds each row that is not [unpaid] (for an admin
    who selected a client, of that client) once and no other row, and, when
    the month of every row is a date, it is sorted with the latest month
    first. *)
Theorem history_is_sorted :
  forall (mwsRevenues : list MwsMonthlyRevenue) (isAdmin : bool)
         (selectedClientId : string),
    let shown := historyRevenues Date_parse mwsRevenues isAdmin selectedClientId in
    Permutation shown (filter (in_history isAdmin selectedClientId) mwsRevenues) /\
    (forall r, In r shown -> status r <> Payment.unpaid) /\
    (Forall dated mwsRevenues -> StronglySorted month_not_before shown).
Proof.
  intros mwsRevenues isAdmin selectedClientId shown.
  set (paid_rows := filter (fun r => negb (is_unpaid r)) mwsRevenues).
  assert (P : Permutation shown
                (filter (in_history isAdmin selectedClientId) mwsRevenues)).
  { unfold shown, historyRevenues. fold paid_rows.
    destruct (isAdmin && negb (String.eqb selectedClientId "all")) eqn:C.
    - eapply perm_trans; [apply filter_perm, sort_perm|].
      unfold paid_rows. rewrite Revenue.filter_filter.
      erewrite filter_ext; [apply Permutation_refl|].
      intros r. unfold in_history. rewrite C. cbn [negb orb]. apply andb_comm.
    - eapply perm_trans; [apply sort_perm|].
      unfold paid_rows.
      erewrite filter_ext; [apply Permutation_refl|].
      intros r. unfold in_history. rewrite C. cbn [negb orb].
      now rewrite andb_true_r. }
  split; [exact P|]. split.
  - intros r Hr. apply (Permutation_in _ P) in Hr. apply filter_In in Hr.
    destruct Hr as [_ H]. unfold in_history, is_unpaid in H.
    destruct (status r); [discriminate H | discriminate | discriminate].
  - intros D.
    assert (S : StronglySorted month_not_before (sort Date_parse paid_rows)).
    { apply sort_sorted. rewrite Forall_forall in *. intros r Hr.
      apply D. apply filter_In in Hr. apply Hr. }
    unfold shown, historyRevenues. fold paid_rows.
    destruct (isAdmin && negb (String.eqb selectedClientId "all")); [|exact S].
    now apply filter_sorted.
Qed.

End History.

Lemma history_is_sorted_witness :
  historyRevenues Revenue.Date_parse_examples
    [mkMonthly "client-1" "2024-03-15" (dec 260) (dec 260) Payment.paid;
     mkMonthly "client-2" "2024-04-02" (dec 90) zero Payment.unpaid;
     mkMonthly "client-1" "2024-04-02" (dec 300) (dec 100) Payment.partially_paid]
    true "all"
  = [mkMonthly "client-1" "2024-04-02" (dec 300) (dec 100) Payment.partially_paid;
     mkMonthly "client-1" "2024-03-15" (dec 260) (dec 260) Payment.paid] /\
  StronglySorted (month_not_before Revenue.Date_parse_examples)
    (historyRevenues Revenue.Date_parse_examples
       [mkMonthly "client-1" "2024-03-15" (dec 260) (dec 260) Payment.paid;
        mkMonthly "client-2" "2024-04-02" (dec 90) zero Payment.unpaid;
        mkMonthly "client-1" "2024-04-02" (dec 300) (dec 100) Payment.partially_paid]
       true "all").
Proof.
  split; [reflexivity|].
  apply (history_is_sorted Revenue.Date_parse_examples).
  repeat constructor; discriminate.
Defined.

End Ledger.

(** ** The session holder ([AuthContext.tsx]) and the login form
       ([LoginPage.tsx]) *)

Module Auth.

(** A row of [profiles]. *)
Record Profile := mkProfile {
  profile_id : string;
  username : string;
  role : string;
  status : string;
  phone : option string
}.

(** The user of the authentication service. *)
Record AuthUser := mkAuthUser {
  auth_id : string;
  auth_email : option string;
  auth_created_at : string
}.

(** The [User] the provider hands to the pages. *)
Record User := mkUser {
  id : string;
  email : option string;
  created_at : string;
  user_username : string;
  user_role : string;
  user_status : string;
  user_phone : option string
}.

Record Session := mkSession {
  session_user : AuthUser
}.

(** An account of the authentication service. *)
Record Account := mkAccount {
  account_email : string;
  account_password : string;
  account_user : AuthUser
}.

(** The world the provider runs in: the [profiles] table, the rows the
    sign-up trigger makes visible during the next wait, the faults of the
    backend still to come (each request for a profile consumes the next one);
    the accounts of the authentication service, what it answers to a sign-up
    ([None] when it accepts it) and to [getSession] (an error, if any), and
    the user it holds signed in; the state of the provider ([user],
    [session], [isLoading]); the console, the time spent waiting and the
    number of requests for a profile.

    The functions of the provider are modelled one call at a time: the
    listener of [onAuthStateChange], which runs beside them, is left out. *)
Record World := mkWorld {
  profiles : list Profile;
  arriving : list Profile;
  faults : list Api.Fault;
  accounts : list Account;
  registrar : string -> string -> option string;
  session_error : option string;
  signed_in : option AuthUser;
  user : option User;
  session : option Session;
  isLoading : bool;
  console : list string;
  waited : Z;
  fetches : nat
}.

Definition M (A : Type) : Type := World -> Api.Outcome A * World.

Definition ret {A : Type} (a : A) : M A := fun w => (Api.Returned a, w).

Definition throw {A : Type} (message : string) : M A :=
  fun w => (Api.Thrown message, w).

Definition bind {A B : Type} (m : M A) (k : A -> M B) : M B :=
  fun w =>
    match m w with
    | (Api.Returned a, w') => k a w'
    | (Api.Thrown e, w') => (Api.Thrown e, w')
    end.

Definition try_catch {A : Type} (body : M A) (handler : string -> M A) : M A :=
  fun w =>
    match body w with
    | (Api.Returned a, w') => (Api.Returned a, w')
    | (Api.Thrown e, w') => handler e w'
    end.

Notation "x <- m ;; k" := (bind m (fun x => k))
  (at level 61, m at next level, right associativity).
Notation "m ;;; k" := (bind m (fun _ => k))
  (at level 61, right associativity).

Definition log (line : string) : M unit :=
  fun w =>
    (Api.Returned tt,
     mkWorld (profiles w) (arriving w) (faults w) (accounts w) (registrar w)
             (session_error w) (signed_in w) (user w) (session w) (isLoading w)
             (console w ++ [line]) (waited w) (fetches w)).

Definition setUser (u : option User) : M unit :=
  fun w =>
    (Api.Returned tt,
     mkWorld (profiles w) (arriving w) (faults w) (accounts w) (registrar w)
             (session_error w) (signed_in w) u (session w) (isLoading w)
             (console w) (waited w) (fetches w)).

Definition setSession (s : option Session) : M unit :=
  fun w =>
    (Api.Returned tt,
     mkWorld (profiles w) (arriving w) (faults w) (accounts w) (registrar w)
             (session_error w) (signed_in w) (user w) s (isLoading w)
             (console w) (waited w) (fetches w)).

Definition setIsLoading (b : bool) : M unit :=
  fun w =>
    (Api.Returned tt,
     mkWorld (profiles w) (arriving w) (faults w) (accounts w) (registrar w)
             (session_error w) (signed_in w) (user w) (session w) b (console w)
             (waited w) (fetches w)).

(** [supabase.auth.signOut()] *)
Definition signOut : M unit :=
  fun w =>
    (Api.Returned tt,
     mkWorld (profiles w) (arriving w) (faults w) (accounts w) (registrar w)
             (session_error w) None (user w) (session w) (isLoading w)
             (console w) (waited w) (fetches w)).

(** [new Promise(res => setTimeout(res, ms))]: while the provider waits, the
    rows of the sign-up trigger become visible. *)
Definition wait (ms : Z) : M unit :=
  fun w =>
    (Api.Returned tt,
     mkWorld (profiles w ++ arriving w) [] (faults w) (accounts w) (registrar w)
             (session_error w) (signed_in w) (user w) (session w) (isLoading w)
             (console w) (waited w + ms) (fetches w)).

(** [from('profiles').select('*').eq('id', id).limit(1)] *)
Definition select_profile (userId : string) : M (Api.Resp (list Profile)) :=
  fun w =>
    let asked (rest : list Api.Fault) :=
      mkWorld (profiles w) (arriving w) rest (accounts w) (registrar w)
              (session_error w) (signed_in w) (user w) (session w) (isLoading w)
              (console w) (waited w) (S (fetches w)) in
    let rows := firstn 1 (filter (fun p => String.eqb (profile_id p) userId) (profiles w)) in
    match faults w with
    | [] => (Api.Returned (Api.Data rows), asked [])
    | Api.Healthy :: rest => (Api.Returned (Api.Data rows), asked rest)
    | Api.Reports message :: rest => (Api.Returned (Api.Error message), asked rest)
    | Api.Rejects reason :: rest => (Api.Thrown reason, asked rest)
    end.

Definition logout : M unit :=
  signOut ;;;
  setUser None ;;;
  setSession None.

(** [processProfile] of [fetchAndSetUserProfile]. *)
Definition processProfile (authUser : AuthUser) (profile : Profile) : M unit :=
  if String.eqb (status profile) "suspended" then
    log "User is suspended. Logging out." ;;;
    logout ;;;
    throw "This account has been suspended."
  else
    let fullUser :=
      mkUser (auth_id authUser) (auth_email authUser) (auth_created_at authUser)
             (username profile) (role profile) (status profile) (phone profile) in
    setUser (Some fullUser).

Definition fetchAndSetUserProfile (authUser : AuthUser) : M unit :=
  r <- select_profile (auth_id authUser) ;;
  match r with
  | Api.Error message =>
    log ("Error fetching user profile: " ++ message)
  | Api.Data (profile :: _) => processProfile authUser profile
  | Api.Data [] =>
    log ("Profile not found for user: " ++ auth_id authUser
         ++ ". This can happen on signup. Retrying...") ;;;
    wait 1000 ;;;
    r <- select_profile (auth_id authUser) ;;
    match r with
    | Api.Error message =>
      log ("Error on profile fetch retry: " ++ message)
    | Api.Data (retryProfile :: _) => processProfile authUser retryProfile
    | Api.Data [] =>
      log ("Profile for user " ++ auth_id authUser
           ++ " not found after retry. Logging out to prevent login loop.") ;;;
      logout
    end
  end.

(** [supabase.auth.signInWithPassword]: the user of the account with this
    email and password, who is then signed in, or an error. *)
Definition signInWithPassword (email_ password : string)
  : M (option AuthUser * option string) :=
  fun w =>
    match find (fun a => String.eqb (account_email a) email_
                         && String.eqb (account_password a) password)
               (accounts w) with
    | Some a =>
      (Api.Returned (Some (account_user a), None),
       mkWorld (profiles w) (arriving w) (faults w) (accounts w) (registrar w)
               (session_error w) (Some (account_user a)) (user w) (session w)
               (isLoading w) (console w) (waited w) (fetches w))
    | None => (Api.Returned (None, Some "Invalid login credentials"), w)
    end.

(** [login]: the [error] of the object it resolves to, [None] for [null]. *)
Definition login (email_ pass : string) : M (option string) :=
  r <- signInWithPassword email_ pass ;;
  match r with
  | (Some authUser, None) =>
    try_catch
      (fetchAndSetUserProfile authUser ;;; ret None)
      (fun profileError => ret (Some profileError))
  | (_, error) => ret error
  end.

(** [signUp]: the [error] of the object it resolves to. Only the answer of
    the service is modelled, not what the service keeps of the
    registration. *)
Definition signUp (email_ pass : string) : M (option string) :=
  fun w => (Api.Returned (registrar w email_ pass), w).

(** [getInitialSession] of the provider's effect; [getSession] answers with
    the session the authentication service holds, or with an error. *)
Definition getInitialSession : M unit :=
  answer <- (fun w => (Api.Returned (signed_in w, session_error w), w)) ;;
  match answer with
  | (_, Some message) =>
    log ("Error getting initial session: " ++ message) ;;;
    setIsLoading false
  | (stored, None) =>
    setSession (option_map mkSession stored) ;;;
    match stored with
    | Some authUser => fetchAndSetUserProfile authUser
    | None => ret tt
    end ;;;
    setIsLoading false
  end.

(** *** What a request for the profile leaves behind *)

(** The provider signed out: no user, no session, nobody signed in. *)
Definition signed_out (w : World) : Prop :=
  user w = None /\ session w = None /\ signed_in w = None.

(** The [User] built from the user of the service and a profile. *)
Definition fullUser (authUser : AuthUser) (profile : Profile) : User :=
  mkUser (auth_id authUser) (auth_email authUser) (auth_created_at authUser)
         (username profile) (role profile) (status profile) (phone profile).

(** The profile of a user among rows: the first row with the id. *)
Definition profile_of (userId : string) (rows : list Profile) : option Profile :=
  find (fun p => String.eqb (profile_id p) userId) rows.

Lemma first_row (userId : string) (rows : list Profile) :
  firstn 1 (filter (fun p => String.eqb (profile_id p) userId) rows)
  = match profile_of userId rows with
    | Some p => [p]
    | None => []
    end.
Proof.
  unfold profile_of. induction rows as [|p rows IH]; [reflexivity|].
  cbn [filter find]. destruct (String.eqb (profile_id p) userId); [reflexivity|].
  exact IH.
Qed.

Lemma processProfile_run (authUser : AuthUser) (profile : Profile) (w : World) :
  let run := processProfile authUser profile w in
  profiles (snd run) = profiles w /\ arriving (snd run) = arriving w /\
  faults (snd run) = faults w /\ waited (snd run) = waited w /\
  fetches (snd run) = fetches w /\ isLoading (snd run) = isLoading w /\
  if String.eqb (status profile) "suspended"
  then fst run = Api.Thrown "This account has been suspended." /\ signed_out (snd run)
  else fst run = Api.Returned tt /\
       user (snd run) = Some (fullUser authUser profile) /\
       session (snd run) = session w /\ signed_in (snd run) = signed_in w.
Proof.
  unfold processProfile.
  destruct (String.eqb (status profile) "suspended"); cbn; repeat split.
Qed.

Lemma profile_of_app (userId : string) (rows more : list Profile) :
  profile_of userId (rows ++ more)
  = match profile_of userId rows with
    | Some p => Some p
    | None => profile_of userId more
    end.
Proof.
  unfold profile_of. induction rows as [|p rows IH]; [reflexivity|].
  cbn [app find]. destruct (String.eqb (profile_id p) userId); [reflexivity | exact IH].
Qed.

(** The profile request on a backend with no fault to come. *)
Lemma select_profile_healthy (userId : string) (w : World) :
  faults w = [] ->
  select_profile userId w
  = (Api.Returned (Api.Data match profile_of userId (profiles w) with
                            | Some p => [p]
                            | None => []
                            end),
     mkWorld (profiles w) (arriving w) [] (accounts w) (registrar w)
             (session_error w) (signed_in w) (user w) (session w) (isLoading w)
             (console w) (waited w) (S (fetches w))).
Proof.
  intros F. unfold select_profile. rewrite F, first_row. reflexivity.
Qed.

Lemma bind_inv (A B : Type) (m : M A) (k : A -> M B) (w w' : World)
    (o : Api.Outcome B) :
  bind m k w = (o, w') ->
  (exists a w1, m w = (Api.Returned a, w1) /\ k a w1 = (o, w')) \/
  (exists e, m w = (Api.Thrown e, w') /\ o = Api.Thrown e).
Proof.
  unfold bind. destruct (m w) as [[a|e] w1]; intros H.
  - left. now exists a, w1.
  - right. exists e. now inversion H.
Qed.

(** [fetchAndSetUserProfile] on a backend with no fault to come: the profile
    it ends with is the row visible at once or, failing that, the row
    visible after the wait. *)
Lemma fetchAndSetUserProfile_healthy (authUser : AuthUser) (w : World) :
  faults w = [] ->
  let run := fetchAndSetUserProfile authUser w in
  let at_once := profile_of (auth_id authUser) (profiles w) in
  let found :=
    match at_once with
    | Some p => Some p
    | None => profile_of (auth_id authUser) (arriving w)
    end in
  fetches (snd run)
  = (match at_once with Some _ => 1 | None => 2 end + fetches w)%nat /\
  waited (snd run)
  = match at_once with Some _ => waited w | None => (waited w + 1000)%Z end /\
  isLoading (snd run) = isLoading w /\
  match found with
  | Some p =>
    if String.eqb (status p) "suspended"
    then fst run = Api.Thrown "This account has been suspended." /\ signed_out (snd run)
    else fst run = Api.Returned tt /\
         user (snd run) = Some (fullUser authUser p) /\
         session (snd run) = session w /\ signed_in (snd run) = signed_in w
  | None => fst run = Api.Returned tt /\ signed_out (snd run)
  end.
Proof.
  intros F. cbv zeta.
  destruct (fetchAndSetUserProfile authUser w) as [o w'] eqn:H. cbn [fst snd].
  unfold fetchAndSetUserProfile in H.
  apply bind_inv in H. destruct H as [(r & w1 & E1 & H)|(e & E1 & _)];
    rewrite (select_profile_healthy _ _ F) in E1; [|discriminate E1].
  inversion E1; subst r w1; clear E1.
  destruct (profile_of (auth_id authUser) (profiles w)) as [p|] eqn:P.
  - pose proof (processProfile_run authUser p
                  (mkWorld (profiles w) (arriving w) [] (accounts w) (registrar w)
                           (session_error w) (signed_in w) (user w) (session w)
                           (isLoading w) (console w) (waited w) (S (fetches w)))) as R.
    cbv zeta in R. rewrite H in R. cbn [fst snd] in R.
    destruct R as (_ & _ & _ & Rw & Rf & Rl & R).
    split; [exact Rf|]. split; [exact Rw|]. split; [exact Rl|]. exact R.
  - apply bind_inv in H. destruct H as [([] & w2 & E2 & H)|(e & E2 & _)];
      [|discriminate E2].
    inversion E2; subst w2; clear E2.
    apply bind_inv in H. destruct H as [([] & w3 & E3 & H)|(e & E3 & _)];
      [|discriminate E3].
    inversion E3; subst w3; clear E3.
    cbn [profiles arriving faults accounts registrar session_error
         signed_in user session isLoading console waited fetches] in H.
    apply bind_inv in H. destruct H as [(r & w4 & E4 & H)|(e & E4 & _)];
      match type of E4 with select_profile _ ?w0 = _ =>
        rewrite (select_profile_healthy _ w0 eq_refl) in E4 end;
      [|discriminate E4].
    cbn [profiles arriving faults accounts registrar session_error
         signed_in user session isLoading console waited fetches] in E4.
    rewrite profile_of_app, P in E4.
    inversion E4; subst r w4; clear E4.
    destruct (profile_of (auth_id authUser) (arriving w)) as [p|] eqn:A.
    + match type of H with processProfile _ _ ?w4 = _ =>
        pose proof (processProfile_run authUser p w4) as R end.
      cbv zeta in R. rewrite H in R.
      cbn [fst snd profiles arriving faults accounts registrar session_error
           signed_in user session isLoading console waited fetches] in R.
      destruct R as (_ & _ & _ & Rw & Rf & Rl & R).
      split; [exact Rf|]. split; [exact Rw|]. split; [exact Rl|]. exact R.
    + apply bind_inv in H. destruct H as [([] & w5 & E5 & H)|(e & E5 & _)];
        [|discriminate E5].
      inversion E5; subst w5; clear E5.
      unfold logout, bind, signOut, setUser, setSession in H.
      injection H as <- <-.
      unfold signed_out.
      cbn [fetches waited isLoading user session signed_in].
      repeat split.
Qed.

(** The request for a profile, on any backend. *)
Lemma select_profile_run (userId : string) (w : World) :
  let run := select_profile userId w in
  profiles (snd run) = profiles w /\ arriving (snd run) = arriving w /\
  user (snd run) = user w /\ session (snd run) = session w /\
  signed_in (snd run) = signed_in w /\ isLoading (snd run) = isLoading w /\
  waited (snd run) = waited w /\ fetches (snd run) = S (fetches w) /\
  (forall f, In f (faults (snd run)) -> In f (faults w)) /\
  match fst run with
  | Api.Thrown reason => In (Api.Rejects reason) (faults w)
  | Api.Returned (Api.Error _) => True
  | Api.Returned (Api.Data rows) =>
    rows = match profile_of userId (profiles w) with
           | Some p => [p]
           | None => []
           end
  end.
Proof.
  cbv zeta. unfold select_profile. rewrite first_row.
  destruct (faults w) as [|[|message|reason] rest]; cbn;
    repeat split; auto; intros f H; now right.
Qed.

Lemma profile_of_In (userId : string) (rows : list Profile) (p : Profile) :
  profile_of userId rows = Some p -> In p rows /\ profile_id p = userId.
Proof.
  intros H. apply find_some in H. destruct H as [I E].
  split; [exact I | now apply String.eqb_eq].
Qed.

(** What [fetchAndSetUserProfile] may have done to the provider: nothing,
    signed it out, or set the user from a profile of that user that is not
    suspended. *)
Definition settled (authUser : AuthUser) (w w' : World) : Prop :=
  (user w' = user w /\ session w' = session w /\ signed_in w' = signed_in w) \/
  signed_out w' \/
  (exists p,
     In p (profiles w ++ arriving w) /\ profile_id p = auth_id authUser /\
     status p <> "suspended" /\
     user w' = Some (fullUser authUser p) /\
     session w' = session w /\ signed_in w' = signed_in w).

Lemma processProfile_settled (authUser : AuthUser) (p : Profile) (w0 w : World) :
  In p (profiles w0 ++ arriving w0) -> profile_id p = auth_id authUser ->
  user w = user w0 -> session w = session w0 -> signed_in w = signed_in w0 ->
  let run := processProfile authUser p w in
  settled authUser w0 (snd run) /\
  (forall e, fst run = Api.Thrown e ->
             e = "This account has been suspended." /\ signed_out (snd run)).
Proof.
  intros I K U S G. cbv zeta.
  pose proof (processProfile_run authUser p w) as R. cbv zeta in R.
  destruct R as (_ & _ & _ & _ & _ & _ & R).
  destruct (String.eqb (status p) "suspended") eqn:Q.
  - destruct R as (T & O). split; [right; left; exact O|].
    intros e E. rewrite T in E. inversion E. split; [reflexivity | exact O].
  - destruct R as (T & R1 & R2 & R3). split.
    + right. right. exists p. apply String.eqb_neq in Q.
      repeat split; try assumption; congruence.
    + intros e E. rewrite T in E. discriminate E.
Qed.

Lemma fetchAndSetUserProfile_run (authUser : AuthUser) (w w' : World)
    (o : Api.Outcome unit) :
  fetchAndSetUserProfile authUser w = (o, w') ->
  (fetches w < fetches w' <= fetches w + 2)%nat /\
  (waited w' = waited w \/ waited w' = (waited w + 1000)%Z) /\
  isLoading w' = isLoading w /\
  settled authUser w w' /\
  (forall e, o = Api.Thrown e ->
             (e = "This account has been suspended." /\ signed_out w')
             \/ In (Api.Rejects e) (faults w)).
Proof.
  unfold fetchAndSetUserProfile. intros H.
  pose proof (select_profile_run (auth_id authUser) w) as R1. cbv zeta in R1.
  apply bind_inv in H. destruct H as [(r & w1 & E1 & H)|(e & E1 & ->)];
    rewrite E1 in R1; cbn [fst snd] in R1;
    destruct R1 as (P1 & A1 & U1 & S1 & G1 & L1 & W1 & F1 & X1 & D1).
  2:{ rewrite L1, W1, F1.
      split; [lia|]. split; [now left|]. split; [reflexivity|].
      split; [left; repeat split; cbn; congruence|].
      intros e' E. inversion E; subst. now right. }
  destruct r as [[|p rows]|message].
  - (* no row: the retry *)
    apply bind_inv in H. destruct H as [([] & w2 & E2 & H)|(e & E2 & _)];
      [|discriminate E2].
    inversion E2; subst w2; clear E2.
    apply bind_inv in H. destruct H as [([] & w3 & E3 & H)|(e & E3 & _)];
      [|discriminate E3].
    inversion E3; subst w3; clear E3.
    match type of H with bind (select_profile ?u) _ ?w2 = _ =>
      pose proof (select_profile_run u w2) as R2 end.
    cbv zeta in R2.
    apply bind_inv in H. destruct H as [(r & w4 & E4 & H)|(e & E4 & ->)];
      rewrite E4 in R2;
      cbn [fst snd profiles arriving faults accounts registrar session_error
           signed_in user session isLoading console waited fetches] in R2;
      destruct R2 as (P2 & A2 & U2 & S2 & G2 & L2 & W2 & F2 & X2 & D2).
    2:{ rewrite L2, L1, W2, W1, F2, F1.
        split; [lia|]. split; [now right|]. split; [reflexivity|].
        split; [left; repeat split; cbn; congruence|].
        intros e' E. inversion E; subst. right. now apply X1. }
    destruct r as [[|p rows]|message].
    + inversion H; subst o w'; clear H. cbn.
      rewrite L2, L1, W2, W1, F2, F1.
      split; [lia|]. split; [now right|]. split; [reflexivity|].
      split; [right; left; repeat split|]. intros e E. discriminate E.
    + assert (Pp : In p (profiles w ++ arriving w) /\ profile_id p = auth_id authUser).
      { destruct (profile_of (auth_id authUser) (profiles w1 ++ arriving w1))
          as [q|] eqn:Q; inversion D2; subst q.
        apply profile_of_In in Q. now rewrite P1, A1 in Q. }
      destruct Pp as [Ip Kp].
      pose proof (processProfile_run authUser p w4) as R. cbv zeta in R.
      destruct R as (_ & _ & _ & Rw & Rf & Rl & _).
      destruct (processProfile_settled authUser p w w4 Ip Kp) as (St & Th);
        try congruence.
      rewrite H in *. cbn [fst snd] in *.
      rewrite Rl, L2, L1, Rw, W2, W1, Rf, F2, F1.
      split; [lia|]. split; [now right|]. split; [reflexivity|].
      split; [exact St|]. intros e E. left. now apply Th.
    + inversion H; subst o w'; clear H. cbn.
      rewrite L2, L1, W2, W1, F2, F1.
      split; [lia|]. split; [now right|]. split; [reflexivity|].
      split; [left; repeat split; cbn; congruence|]. intros e E. discriminate E.
  - assert (Pp : In p (profiles w ++ arriving w) /\ profile_id p = auth_id authUser).
    { destruct (profile_of (auth_id authUser) (profiles w)) as [q|] eqn:Q;
        inversion D1; subst q.
      apply profile_of_In in Q. destruct Q as [I K].
      split; [apply in_or_app; now left | exact K]. }
    destruct Pp as [Ip Kp].
    pose proof (processProfile_run authUser p w1) as R. cbv zeta in R.
    destruct R as (_ & _ & _ & Rw & Rf & Rl & _).
    destruct (processProfile_settled authUser p w w1 Ip Kp) as (St & Th);
      try congruence.
    rewrite H in *. cbn [fst snd] in *.
    rewrite Rl, L1, Rw, W1, Rf, F1.
    split; [lia|]. split; [now left|]. split; [reflexivity|].
    split; [exact St|]. intros e E. left. now apply Th.
  - inversion H; subst o w'; clear H. cbn.
    rewrite L1, W1, F1.
    split; [lia|]. split; [now left|]. split; [reflexivity|].
    split; [left; repeat split; cbn; congruence|]. intros e E. discriminate E.
Qed.

(** On any backend, [fetchAndSetUserProfile] asks for the profile once or
    twice and waits at most once. It leaves the provider as it was, or signed
    out, or with the user built from a profile of that user that is not
    suspended: a suspended profile never becomes the user. When it throws,
    either the profile is suspended and the provider is signed out, or the
    backend rejected a request. *)
Theorem suspended_profile_never_becomes_the_user :
  forall (authUser : AuthUser) (w : World),
    let run := fetchAndSetUserProfile authUser w in
    (fetches w < fetches (snd run) <= fetches w + 2)%nat /\
    (waited (snd run) = waited w \/ waited (snd run) = (waited w + 1000)%Z) /\
    isLoading (snd run) = isLoading w /\
    settled authUser w (snd run) /\
    (forall u, user (snd run) = Some u ->
               user (snd run) = user w \/ user_status u <> "suspended") /\
    (forall e, fst run = Api.Thrown e ->
               (e = "This account has been suspended." /\ signed_out (snd run))
               \/ In (Api.Rejects e) (faults w)).
Proof.
  intros authUser w. cbv zeta.
  destruct (fetchAndSetUserProfile authUser w) as [o w'] eqn:R.
  destruct (fetchAndSetUserProfile_run _ _ _ _ R) as (C1 & C2 & C3 & C4 & C5).
  cbn [fst snd]. repeat split; try assumption; try apply C1.
  intros u U. destruct C4 as [(Same & _)|[(None_ & _)|(p & _ & _ & Active & Set_ & _)]].
  - left. exact Same.
  - rewrite None_ in U. discriminate U.
  - right. rewrite Set_ in U. inversion U; subst u. exact Active.
Qed.

(** *** Logging in, and the session found at start *)

(** The account a pair of credentials opens. *)
Definition account_of (email_ pass : string) (w : World) : option Account :=
  find (fun a => String.eqb (account_email a) email_
                 && String.eqb (account_password a) pass)
       (accounts w).

(** The world once the service has signed the user in. *)
Definition signed (authUser : AuthUser) (w : World) : World :=
  mkWorld (profiles w) (arriving w) (faults w) (accounts w) (registrar w)
          (session_error w) (Some authUser) (user w) (session w) (isLoading w)
          (console w) (waited w) (fetches w).

Lemma login_unfold (email_ pass : string) (w : World) :
  login email_ pass w
  = match account_of email_ pass w with
    | Some a =>
      match fetchAndSetUserProfile (account_user a) (signed (account_user a) w) with
      | (Api.Returned _, w') => (Api.Returned None, w')
      | (Api.Thrown profileError, w') => (Api.Returned (Some profileError), w')
      end
    | None => (Api.Returned (Some "Invalid login credentials"), w)
    end.
Proof.
  unfold login, bind at 1, signInWithPassword, account_of.
  destruct (find _ (accounts w)) as [a|]; [|reflexivity].
  unfold try_catch, bind, signed.
  destruct (fetchAndSetUserProfile _ _) as [[[]|e] w']; reflexivity.
Qed.

Lemma login_resolves (email_ pass : string) (w : World) :
  exists error_, fst (login email_ pass w) = Api.Returned error_.
Proof.
  rewrite login_unfold.
  destruct (account_of email_ pass w) as [a|]; [|eexists; reflexivity].
  destruct (fetchAndSetUserProfile _ _) as [[[]|e] w']; eexists; reflexivity.
Qed.

(** [login] always resolves, to an error or to none. Credentials that open
    no account give the error of the service and change nothing, and no
    profile is asked for. With an account and a backend with no fault, the
    profile is the row visible at once or else the row visible after the
    wait: when it is suspended [login] resolves to the error
    ['This account has been suspended.'] and the provider is signed out;
    when it is not, [login] resolves to no error and the user is set from it;
    when there is no row even after the wait, [login] resolves to no error
    although the provider is signed out. *)
Theorem login_outcomes :
  forall (email_ pass : string) (w : World),
    let run := login email_ pass w in
    (exists error, fst run = Api.Returned error) /\
    (account_of email_ pass w = None ->
     exists message, run = (Api.Returned (Some message), w)) /\
    (forall a : Account,
       account_of email_ pass w = Some a ->
       faults w = [] ->
       let authUser := account_user a in
       match
         match profile_of (auth_id authUser) (profiles w) with
         | Some p => Some p
         | None => profile_of (auth_id authUser) (arriving w)
         end
       with
       | Some p =>
         if String.eqb (status p) "suspended"
         then fst run = Api.Returned (Some "This account has been suspended.") /\
              signed_out (snd run)
         else fst run = Api.Returned None /\
              user (snd run) = Some (fullUser authUser p) /\
              signed_in (snd run) = Some authUser
       | None => fst run = Api.Returned None /\ signed_out (snd run)
       end).
Proof.
  intros email_ pass w. cbv zeta.
  split; [apply login_resolves|]. rewrite login_unfold. split.
  - intros ->. now eexists.
  - intros a -> F.
    pose proof (fetchAndSetUserProfile_healthy (account_user a)
                  (signed (account_user a) w) F) as H.
    cbv zeta in H. cbn [signed profiles arriving] in H.
    destruct H as (_ & _ & _ & H).
    destruct (match profile_of (auth_id (account_user a)) (profiles w) with
              | Some p => Some p
              | None => profile_of (auth_id (account_user a)) (arriving w)
              end) as [p|].
    + destruct (String.eqb (status p) "suspended").
      * destruct H as (T & O).
        destruct (fetchAndSetUserProfile _ _) as [[[]|e] w']; cbn [fst snd] in *;
          [discriminate T|]. inversion T. now split.
      * destruct H as (T & U & _ & G).
        destruct (fetchAndSetUserProfile _ _) as [[[]|e] w']; cbn [fst snd] in *;
          [|discriminate T]. repeat split; assumption.
    + destruct H as (T & O).
      destruct (fetchAndSetUserProfile _ _) as [[[]|e] w']; cbn [fst snd] in *;
        [|discriminate T]. now split.
Qed.

(** A world for the examples: one account whose profile is suspended, one
    whose profile only appears during the wait, and one with no profile. *)
Definition anna : AuthUser := mkAuthUser "user-1" (Some "anna@example.com") "2024-03-01".
Definition bruno : AuthUser := mkAuthUser "user-2" (Some "bruno@example.com") "2024-03-02".
Definition carla : AuthUser := mkAuthUser "user-3" (Some "carla@example.com") "2024-03-03".

Definition demo_world : World :=
  mkWorld [mkProfile "user-1" "anna" "client" "suspended" None]
          [mkProfile "user-2" "bruno" "client" "active" (Some "333")]
          []
          [mkAccount "anna@example.com" "pw-a" anna;
           mkAccount "bruno@example.com" "pw-b" bruno;
           mkAccount "carla@example.com" "pw-c" carla]
          (fun _ _ => None) None None None None true [] 0 0.

Lemma login_outcomes_witness :
  fst (login "anna@example.com" "pw-a" demo_world)
  = Api.Returned (Some "This account has been suspended.") /\
  signed_out (snd (login "anna@example.com" "pw-a" demo_world)).
Proof.
  apply (proj2 (proj2 (login_outcomes "anna@example.com" "pw-a" demo_world))
               (mkAccount "anna@example.com" "pw-a" anna) eq_refl eq_refl).
Defined.

Lemma suspended_profile_never_becomes_the_user_witness :
  settled bruno (signed bruno demo_world)
          (snd (fetchAndSetUserProfile bruno (signed bruno demo_world))).
Proof.
  exact (proj1 (proj2 (proj2 (proj2
           (suspended_profile_never_becomes_the_user bruno (signed bruno demo_world)))))).
Defined.

Lemma getInitialSession_unfold (w : World) :
  getInitialSession w
  = match session_error w with
    | Some message =>
      (log ("Error getting initial session: " ++ message) ;;; setIsLoading false) w
    | None =>
      match signed_in w with
      | Some authUser =>
        (fetchAndSetUserProfile authUser ;;; setIsLoading false)
          (snd (setSession (Some (mkSession authUser)) w))
      | None => (setIsLoading false) (snd (setSession None w))
      end
    end.
Proof.
  unfold getInitialSession. unfold bind at 1.
  destruct (session_error w) as [message|]; [reflexivity|].
  destruct (signed_in w) as [authUser|]; reflexivity.
Qed.

(** [getInitialSession] clears the loading flag when it returns. It does not
    when the request for the profile throws: with a stored session whose
    profile is suspended it throws, the provider is signed out, and
    [isLoading] stays as it was. *)
Theorem initial_session_loading_flag :
  forall w : World,
    let run := getInitialSession w in
    (fst run = Api.Returned tt -> isLoading (snd run) = false) /\
    (forall e, fst run = Api.Thrown e -> isLoading (snd run) = isLoading w) /\
    (forall (authUser : AuthUser) (p : Profile),
       session_error w = None ->
       signed_in w = Some authUser ->
       faults w = [] ->
       profile_of (auth_id authUser) (profiles w) = Some p ->
       status p = "suspended" ->
       fst run = Api.Thrown "This account has been suspended." /\
       isLoading (snd run) = isLoading w /\
       signed_out (snd run)).
Proof.
  intros w. cbv zeta. rewrite getInitialSession_unfold.
  split; [|split].
  - destruct (session_error w) as [message|]; [reflexivity|].
    destruct (signed_in w) as [authUser|]; [|reflexivity].
    unfold bind.
    destruct (fetchAndSetUserProfile authUser _) as [[[]|e] w']; [reflexivity|].
    discriminate.
  - intros e. destruct (session_error w) as [message|]; [discriminate|].
    destruct (signed_in w) as [authUser|]; [|discriminate].
    unfold bind.
    destruct (fetchAndSetUserProfile authUser _) as [[[]|e'] w'] eqn:R;
      [discriminate|].
    intros _. cbn [snd].
    now destruct (fetchAndSetUserProfile_run _ _ _ _ R) as (_ & _ & L & _).
  - intros authUser p -> -> F P S.
    pose proof (fetchAndSetUserProfile_healthy authUser
                  (snd (setSession (Some (mkSession authUser)) w)) F) as H.
    cbv zeta in H. cbn [setSession snd profiles arriving] in H.
    rewrite P in H. destruct H as (_ & _ & L & H).
    rewrite S in H. cbn [String.eqb] in H.
    change ("suspended" =? "suspended") with true in H. destruct H as (T & O).
    unfold bind. cbn [setSession snd].
    destruct (fetchAndSetUserProfile authUser _) as [[[]|e] w']; cbn [fst snd] in *;
      [discriminate T|].
    split; [exact T|]. split; [exact L | exact O].
Qed.

Lemma initial_session_loading_flag_witness :
  fst (getInitialSession (signed anna demo_world))
  = Api.Thrown "This account has been suspended." /\
  isLoading (snd (getInitialSession (signed anna demo_world))) = true /\
  signed_out (snd (getInitialSession (signed anna demo_world))).
Proof.
  apply (proj2 (proj2 (initial_session_loading_flag (signed anna demo_world)))
               anna (mkProfile "user-1" "anna" "client" "suspended" None));
    reflexivity.
Defined.

(** *** The login form *)

(** The state of [LoginPage]. *)
Record Form := mkForm {
  isRegistering : bool;
  form_email : string;
  password : string;
  confirmPassword : string;
  error : string;
  success : string;
  form_isLoading : bool
}.

(** [handleSubmit]; [login_error_generic] is the text [t('login_error_generic')]
    of the translations. *)
Definition handleSubmit (login_error_generic : string) (f : Form) : M Form :=
  let submitted :=
    mkForm (isRegistering f) (form_email f) (password f) (confirmPassword f) "" "" true in
  after <-
    try_catch
      (if isRegistering f then
         if negb (String.eqb (password f) (confirmPassword f)) then
           throw "Le password non coincidono."
         else
           e <- signUp (form_email f) (password f) ;;
           match e with
           | Some message => throw message
           | None =>
             ret (mkForm false (form_email f) "" "" ""
                         "Registrazione completata! Ora puoi accedere." true)
           end
       else
         e <- login (form_email f) (password f) ;;
         match e with
         | Some message => throw message
         | None => ret submitted
         end)
      (fun message =>
         ret (mkForm (isRegistering f) (form_email f) (password f) (confirmPassword f)
                     (if Js.truthy message then message
                      else if isRegistering f then "Errore durante la registrazione."
                           else login_error_generic)
                     "" true)) ;;
  ret (mkForm (isRegistering after) (form_email after) (password after)
              (confirmPassword after) (error after) (success after) false).

(** No submission of the form throws, and every one ends with the loading
    mark cleared and with at most one of an error and a success message. A
    registration whose two passwords differ is refused with
    ['Le password non coincidono.'] whatever the service would answer, and
    nothing else changes; a registration the service accepts goes back to the
    login view with the success message, the email kept and both password
    fields emptied; a login that resolves to an error shows its message, or
    the generic text when the message is empty; a login that resolves to no
    error shows neither message and leaves the fields as they were. *)
Theorem handleSubmit_outcomes :
  forall (generic : string) (f : Form) (w : World),
    let run := handleSubmit generic f w in
    (exists after,
       fst run = Api.Returned after /\
       form_isLoading after = false /\
       form_email after = form_email f /\
       (error after = "" \/ success after = "")) /\
    (isRegistering f = true -> password f <> confirmPassword f ->
     run = (Api.Returned (mkForm true (form_email f) (password f) (confirmPassword f)
                                 "Le password non coincidono." "" false), w)) /\
    (isRegistering f = true -> password f = confirmPassword f ->
     registrar w (form_email f) (password f) = None ->
     fst run = Api.Returned (mkForm false (form_email f) "" "" ""
                                    "Registrazione completata! Ora puoi accedere."
                                    false)) /\
    (isRegistering f = false ->
     forall message,
       fst (login (form_email f) (password f) w) = Api.Returned (Some message) ->
       exists after,
         fst run = Api.Returned after /\
         error after = (if Js.truthy message then message else generic) /\
         success after = "") /\
    (isRegistering f = false ->
     fst (login (form_email f) (password f) w) = Api.Returned None ->
     fst run = Api.Returned (mkForm false (form_email f) (password f) (confirmPassword f)
                                    "" "" false)).
Proof.
  intros generic f w. cbv zeta. unfold handleSubmit.
  destruct (login_resolves (form_email f) (password f) w) as (le & Lr).
  split; [|split; [|split; [|split]]].
  - unfold bind at 1, try_catch.
    destruct (isRegistering f).
    + destruct (String.eqb (password f) (confirmPassword f)); cbn [negb].
      * unfold bind, signUp.
        destruct (registrar w (form_email f) (password f)) as [message|]; cbn.
        -- eexists. repeat split. now right.
        -- eexists. repeat split. now left.
      * cbn. eexists. repeat split. now right.
    + unfold bind.
      destruct (login (form_email f) (password f) w) as [[[message|]|e] w'];
        cbn [fst] in Lr; try discriminate Lr; cbn.
      * eexists. repeat split. now right.
      * eexists. repeat split. now left.
  - intros -> D. apply String.eqb_neq in D. rewrite D. reflexivity.
  - intros -> S N. rewrite S, String.eqb_refl. cbn [negb].
    unfold bind, try_catch, signUp. rewrite S in N. rewrite N. reflexivity.
  - intros -> message L. unfold bind, try_catch.
    destruct (login (form_email f) (password f) w) as [[[m|]|e] w'];
      cbn [fst] in L; inversion L; subst. cbn.
    eexists. repeat split.
  - intros -> L. unfold bind, try_catch.
    destruct (login (form_email f) (password f) w) as [[[m|]|e] w'];
      cbn [fst] in L; inversion L; subst. reflexivity.
Qed.

Lemma handleSubmit_outcomes_witness :
  handleSubmit "Credenziali non valide."
    (mkForm true "dora@example.com" "pw-d" "pw-x" "" "" false) demo_world
  = (Api.Returned (mkForm true "dora@example.com" "pw-d" "pw-x"
                          "Le password non coincidono." "" false),
     demo_world).
Proof.
  apply (proj1 (proj2 (handleSubmit_outcomes "Credenziali non valide."
                         (mkForm true "dora@example.com" "pw-d" "pw-x" "" "" false)
                         demo_world))).
  - reflexivity.
  - discriminate.
Defined.

End Auth.
